(** * OSC VMAF Studio: [server/index.ts] and the logic of its client

    A shallow embedding of the Express server: the configuration endpoints,
    the job metadata helpers ([saveJobMetadata], [loadJobMetadata],
    [listJobMetadata]), the [POST /api/analyze] handler with its background
    polling task, the status, results and delete handlers, the result
    parser, and the bucket, file and folder routes. Of the client: the
    settings form, the configuration check, the score circle and the moves
    between folders.

    Conventions.
    - A JavaScript string is a [string] (a sequence of code units).
    - [undefined] is [None]; an optional field is an [option].
    - Code that can throw lives in the error monad [Exn]; handlers that touch
      the process state live in [M], a state monad over [World] in which a
      [try { } catch { }] block is [tryCatch].
    - An [await] is a suspension point: the background task of
      [POST /api/analyze] is a state machine whose program counter names the
      pending [await] and whose input is the reply of the awaited call.
    - The other handlers run in one piece: no other turn comes in between
      their [await]s.
    - The Storage Gateway is a finite map from (bucket, key) to object bodies;
      a fault oracle says which calls of one handler invocation fail.
    - [statusLog] is ghost state: it records the status of every write to the
      registry, so that the history of a job can be stated.
    - A call that a route makes on a whole bucket (head, create, CORS, a
      listing with a delimiter, signing) is given by its [Answer]. *)

From stdpp Require Import gmap strings list pretty.
From Stdlib Require Import Ascii QArith Qminmax Lqa Sorting.Sorted.

(** ** Exceptions *)

Inductive Exn (A : Type) : Type :=
| Ok (a : A)
| Throw (msg : string).
Arguments Ok {A} a.
Arguments Throw {A} msg.

#[global] Instance Exn_ret : MRet Exn := fun A a => Ok a.
#[global] Instance Exn_bind : MBind Exn := fun A B f m =>
  match m with
  | Ok a => f a
  | Throw e => Throw e
  end.

(** ** JavaScript string primitives *)

Module JsString.

Definition slash : ascii := "/"%char.

(** [s.lastIndexOf(c)]: the scan keeps the index of the latest match. *)
Fixpoint lastIndexOfFrom (c : ascii) (s : string) (i acc : Z) : Z :=
  match s with
  | EmptyString => acc
  | String a s' =>
      lastIndexOfFrom c s' (i + 1) (if Ascii.eqb a c then i else acc)
  end.

Definition lastIndexOf (s : string) (c : ascii) : Z :=
  lastIndexOfFrom c s 0 (-1).

Definition clamp (len x : Z) : Z := Z.max 0 (Z.min x len).

(** [s.substring(a, b)]: both indices are clamped to [0, length] and swapped
    when [a > b]. *)
Definition substring (s : string) (a b : Z) : string :=
  let len := Z.of_nat (String.length s) in
  let a' := clamp len a in
  let b' := clamp len b in
  let lo := Z.min a' b' in
  let hi := Z.max a' b' in
  String.substring (Z.to_nat lo) (Z.to_nat (hi - lo)) s.

(** [s.startsWith(p)] *)
Definition startsWith (s p : string) : bool := String.prefix p s.

(** [s.endsWith(p)] *)
Definition endsWith (s p : string) : bool :=
  let n := String.length s in
  let m := String.length p in
  (m <=? n)%nat && String.eqb (String.substring (n - m) m s) p.

Fixpoint dropChars (n : nat) (s : string) : string :=
  match n, s with
  | O, _ => s
  | S n', String _ s' => dropChars n' s'
  | S _, EmptyString => EmptyString
  end.

(** [s.replace(pat, rep)] with a string pattern: the first occurrence only. *)
Fixpoint replace (s pat rep : string) : string :=
  if String.prefix pat s then rep +:+ dropChars (String.length pat) s
  else match s with
       | EmptyString => EmptyString
       | String a s' => String a (replace s' pat rep)
       end.

(** [s.split(c)] for a one-character separator: never the empty array. *)
Fixpoint split (s : string) (c : ascii) : list string :=
  match s with
  | EmptyString => [EmptyString]
  | String a s' =>
      if Ascii.eqb a c then EmptyString :: split s' c
      else match split s' c with
           | h :: t => String a h :: t
           | [] => [String a EmptyString]
           end
  end.

(** [arr.pop()] read as a value: the last element. *)
Definition pop (l : list string) : option string := last l.

(** A string in a boolean position: only [''] is falsy. *)
Definition truthy (s : string) : bool := negb (String.eqb s "").

(** An optional string in a boolean position. *)
Definition truthyOpt (s : option string) : bool :=
  match s with
  | Some s => truthy s
  | None => false
  end.

(** [s.substring(a)]: up to the end. *)
Definition substringFrom (s : string) (a : Z) : string :=
  substring s a (Z.of_nat (String.length s)).

(** [s.replace(/\/+$/, '')]: the trailing slashes go. *)
Fixpoint stripTrailingSlashes (s : string) : string :=
  match s with
  | EmptyString => EmptyString
  | String a s' =>
      match stripTrailingSlashes s' with
      | EmptyString => if Ascii.eqb a slash then EmptyString else String a EmptyString
      | rest => String a rest
      end
  end.

(** [`${x}`] for an optional string. *)
Definition template (s : option string) : string :=
  match s with
  | Some s => s
  | None => "undefined"
  end.

(** [a || b] on optional strings. *)
Definition orElse (a b : option string) : option string :=
  if truthyOpt a then a else b.

End JsString.

(** ** Parsed JSON documents *)

Module Json.

(** The result of [JSON.parse]. An object keeps its keys in insertion
    order, each key once. A number is the rational its literal denotes;
    no arithmetic is ever done on one. *)
#[warnings="-register-all"]
Inductive value : Type :=
| JNull
| JBool (b : bool)
| JNum (q : Q)
| JStr (s : string)
| JArr (items : list value)
| JObj (fields : list (string * value)).

Definition typeError : string := "TypeError".

Fixpoint lookup (k : string) (fields : list (string * value)) : option value :=
  match fields with
  | [] => None
  | (k', v) :: rest => if String.eqb k k' then Some v else lookup k rest
  end.

(** A value in a boolean position. *)
Definition truthy (v : option value) : bool :=
  match v with
  | None => false
  | Some JNull => false
  | Some (JBool b) => b
  | Some (JNum q) => negb (Qnum q =? 0)%Z
  | Some (JStr s) => JsString.truthy s
  | Some (JArr _) => true
  | Some (JObj _) => true
  end.

(** [v.k] and [v[k]] for a key that is no built-in property: a [TypeError]
    on [undefined] and [null], [undefined] on the other primitives and on
    arrays. *)
Definition prop (k : string) (v : option value) : Exn (option value) :=
  match v with
  | None => Throw typeError
  | Some JNull => Throw typeError
  | Some (JObj fields) => Ok (lookup k fields)
  | Some _ => Ok None
  end.

(** [v?.k] *)
Definition optProp (k : string) (v : option value) : option value :=
  match v with
  | Some (JObj fields) => lookup k fields
  | _ => None
  end.

(** [Object.keys(v).filter(key => key.startsWith(p))] for a prefix [p] that
    no array index starts with: the own keys of an object in insertion
    order; a primitive or an array has index keys only. *)
Definition keysWithPrefix (p : string) (v : value) : list string :=
  match v with
  | JObj fields =>
      List.filter (fun key => JsString.startsWith key p) (List.map fst fields)
  | _ => []
  end.

End Json.

(** ** Configuration held in server memory *)

(** [interface S3Config]. [storageType] is whatever string was posted. *)
Record S3Config : Type := mkS3Config {
  cfg_storageType : string;
  cfg_endpoint : option string;
  cfg_accessKey : string;
  cfg_secretKey : string;
  cfg_bucket : option string;
  cfg_region : option string;
  cfg_oscToken : string
}.

(** The JSON body of [GET /api/config]. *)
Record ConfigView : Type := mkConfigView {
  view_storageType : string;
  view_endpoint : option string;
  view_region : option string;
  view_bucket : option string;
  view_accessKey : string;
  view_secretKey : string;
  view_oscToken : string
}.

(** The destructured body of [POST /api/config]; an absent field is
    [undefined]. *)
Record ConfigPost : Type := mkConfigPost {
  post_storageType : option string;
  post_endpoint : option string;
  post_region : option string;
  post_bucket : option string;
  post_accessKey : option string;
  post_secretKey : option string;
  post_oscToken : option string
}.

Definition mask : string := "****".

(** [secret ? '****' : ''] *)
Definition masked (secret : string) : string :=
  if JsString.truthy secret then mask else "".

(** [app.get('/api/config')] *)
Definition getConfigHandler (serverConfig : S3Config) : ConfigView :=
  {| view_storageType := cfg_storageType serverConfig;
     view_endpoint := cfg_endpoint serverConfig;
     view_region := cfg_region serverConfig;
     view_bucket := cfg_bucket serverConfig;
     view_accessKey := masked (cfg_accessKey serverConfig);
     view_secretKey := masked (cfg_secretKey serverConfig);
     view_oscToken := masked (cfg_oscToken serverConfig) |}.

Definition set_storageType (v : string) (c : S3Config) : S3Config :=
  mkS3Config v (cfg_endpoint c) (cfg_accessKey c) (cfg_secretKey c)
             (cfg_bucket c) (cfg_region c) (cfg_oscToken c).
Definition set_endpoint (v : option string) (c : S3Config) : S3Config :=
  mkS3Config (cfg_storageType c) v (cfg_accessKey c) (cfg_secretKey c)
             (cfg_bucket c) (cfg_region c) (cfg_oscToken c).
Definition set_accessKey (v : string) (c : S3Config) : S3Config :=
  mkS3Config (cfg_storageType c) (cfg_endpoint c) v (cfg_secretKey c)
             (cfg_bucket c) (cfg_region c) (cfg_oscToken c).
Definition set_secretKey (v : string) (c : S3Config) : S3Config :=
  mkS3Config (cfg_storageType c) (cfg_endpoint c) (cfg_accessKey c) v
             (cfg_bucket c) (cfg_region c) (cfg_oscToken c).
Definition set_bucket (v : option string) (c : S3Config) : S3Config :=
  mkS3Config (cfg_storageType c) (cfg_endpoint c) (cfg_accessKey c)
             (cfg_secretKey c) v (cfg_region c) (cfg_oscToken c).
Definition set_region (v : option string) (c : S3Config) : S3Config :=
  mkS3Config (cfg_storageType c) (cfg_endpoint c) (cfg_accessKey c)
             (cfg_secretKey c) (cfg_bucket c) v (cfg_oscToken c).
Definition set_oscToken (v : string) (c : S3Config) : S3Config :=
  mkS3Config (cfg_storageType c) (cfg_endpoint c) (cfg_accessKey c)
             (cfg_secretKey c) (cfg_bucket c) (cfg_region c) v.

(** [if (x !== undefined) update] *)
Definition whenDefined {A} (x : option A) (update : A -> S3Config -> S3Config)
    (c : S3Config) : S3Config :=
  match x with
  | Some v => update v c
  | None => c
  end.

(** [if (x !== undefined && x !== '****') update] *)
Definition whenSecret (x : option string) (update : string -> S3Config -> S3Config)
    (c : S3Config) : S3Config :=
  match x with
  | Some v => if String.eqb v mask then c else update v c
  | None => c
  end.

(** The bucket name as stored: the [s3://] prefix and trailing slashes go. *)
Definition cleanBucket (bucket : string) : string :=
  let cleanBucket :=
    if JsString.startsWith bucket "s3://" then JsString.substringFrom bucket 5
    else bucket in
  JsString.stripTrailingSlashes cleanBucket.

(** [app.post('/api/config')]: the statements in source order. *)
Definition postConfigHandler (body : ConfigPost) (serverConfig : S3Config) : S3Config :=
  let c := serverConfig in
  let c := whenDefined (post_storageType body) (fun storageType c =>
             let c := set_storageType storageType c in
             if String.eqb storageType "s3-compatible" then set_bucket None c
             else if String.eqb storageType "aws" then set_endpoint None c
             else c) c in
  let c := whenDefined (post_endpoint body) (fun v => set_endpoint (Some v)) c in
  let c := whenDefined (post_region body) (fun v => set_region (Some v)) c in
  let c := whenDefined (post_bucket body) (fun v => set_bucket (Some (cleanBucket v))) c in
  let c := whenSecret (post_accessKey body) set_accessKey c in
  let c := whenSecret (post_secretKey body) set_secretKey c in
  let c := whenSecret (post_oscToken body) set_oscToken c in
  c.

(** A client that posts back what [GET /api/config] gave it: JSON drops the
    [undefined] fields, the others come back as they were sent. *)
Definition postBack (v : ConfigView) : ConfigPost :=
  {| post_storageType := Some (view_storageType v);
     post_endpoint := view_endpoint v;
     post_region := view_region v;
     post_bucket := view_bucket v;
     post_accessKey := Some (view_accessKey v);
     post_secretKey := Some (view_secretKey v);
     post_oscToken := Some (view_oscToken v) |}.

(** ** Jobs *)

Inductive Status : Type := Queued | Running | Completed | Failed.

#[global] Instance Status_eq_dec : EqDecision Status.
Proof. solve_decision. Defined.

Definition statusString (s : Status) : string :=
  match s with
  | Queued => "queued"
  | Running => "running"
  | Completed => "completed"
  | Failed => "failed"
  end.

Definition statusOfString (s : string) : option Status :=
  if String.eqb s "queued" then Some Queued
  else if String.eqb s "running" then Some Running
  else if String.eqb s "completed" then Some Completed
  else if String.eqb s "failed" then Some Failed
  else None.

(** The [config] field of a registry entry is a reference to the one
    [serverConfig] object, not a copy of it. *)
Inductive ConfigRef : Type := ServerConfigRef.

(** An entry of the [jobs] map. The declared type makes six fields
    mandatory, but [{ ...jobs.get(jobId)!, status }] builds an entry from
    whatever is there, so every field can be missing at run time. *)
Record JobEntry : Type := mkJobEntry {
  job_status : option Status;
  job_referenceKey : option string;
  job_distortedKey : option string;
  job_resultKey : option string;
  job_bucket : option string;
  job_config : option ConfigRef;
  job_oscJobName : option string;
  job_error : option string;
  job_referenceName : option string;
  job_distortedName : option string;
  job_createdAt : option string;
  job_completedAt : option string;
  job_description : option string
}.

Definition emptyEntry : JobEntry :=
  mkJobEntry None None None None None None None None None None None None None.

(** [{ ...o }] where [o] may be [undefined]. *)
Definition spread (o : option JobEntry) : JobEntry := default emptyEntry o.

Definition with_status (s : Status) (e : JobEntry) : JobEntry :=
  mkJobEntry (Some s) (job_referenceKey e) (job_distortedKey e) (job_resultKey e)
    (job_bucket e) (job_config e) (job_oscJobName e) (job_error e)
    (job_referenceName e) (job_distortedName e) (job_createdAt e)
    (job_completedAt e) (job_description e).
Definition with_error (msg : string) (e : JobEntry) : JobEntry :=
  mkJobEntry (job_status e) (job_referenceKey e) (job_distortedKey e) (job_resultKey e)
    (job_bucket e) (job_config e) (job_oscJobName e) (Some msg)
    (job_referenceName e) (job_distortedName e) (job_createdAt e)
    (job_completedAt e) (job_description e).
Definition with_oscJobName (name : string) (e : JobEntry) : JobEntry :=
  mkJobEntry (job_status e) (job_referenceKey e) (job_distortedKey e) (job_resultKey e)
    (job_bucket e) (job_config e) (Some name) (job_error e)
    (job_referenceName e) (job_distortedName e) (job_createdAt e)
    (job_completedAt e) (job_description e).
Definition with_completedAt (t : string) (e : JobEntry) : JobEntry :=
  mkJobEntry (job_status e) (job_referenceKey e) (job_distortedKey e) (job_resultKey e)
    (job_bucket e) (job_config e) (job_oscJobName e) (job_error e)
    (job_referenceName e) (job_distortedName e) (job_createdAt e)
    (Some t) (job_description e).

(** [interface JobMetadata], as [saveJobMetadata] receives it and as
    [loadJobMetadata] hands it out. The fields are in the order of the
    interface; a field that is [undefined] is left out by [JSON.stringify]. *)
Record JobMetadata : Type := mkJobMetadata {
  md_jobId : option string;
  md_status : option Status;
  md_referenceKey : option string;
  md_distortedKey : option string;
  md_referenceName : option string;
  md_distortedName : option string;
  md_resultKey : option string;
  md_bucket : option string;
  md_oscJobName : option string;
  md_error : option string;
  md_createdAt : option string;
  md_completedAt : option string;
  md_vmafScore : option Json.value;
  md_description : option string
}.

Definition md_with_bucket (b : option string) (m : JobMetadata) : JobMetadata :=
  mkJobMetadata (md_jobId m) (md_status m) (md_referenceKey m) (md_distortedKey m)
    (md_referenceName m) (md_distortedName m) (md_resultKey m) b
    (md_oscJobName m) (md_error m) (md_createdAt m) (md_completedAt m)
    (md_vmafScore m) (md_description m).

(** One property of an object literal under [JSON.stringify]. *)
Definition field (k : string) (v : option Json.value) : list (string * Json.value) :=
  match v with
  | Some v => [(k, v)]
  | None => []
  end.

Definition strField (k : string) (v : option string) : list (string * Json.value) :=
  field k (Json.JStr <$> v).

(** [JSON.parse(JSON.stringify(metadata))]. Handlers read a stored record by
    key only, so the order of the properties is immaterial. *)
Definition metadataToJson (m : JobMetadata) : Json.value :=
  Json.JObj
    (strField "jobId" (md_jobId m)
     ++ strField "status" (statusString <$> md_status m)
     ++ strField "referenceKey" (md_referenceKey m)
     ++ strField "distortedKey" (md_distortedKey m)
     ++ strField "referenceName" (md_referenceName m)
     ++ strField "distortedName" (md_distortedName m)
     ++ strField "resultKey" (md_resultKey m)
     ++ strField "bucket" (md_bucket m)
     ++ strField "oscJobName" (md_oscJobName m)
     ++ strField "error" (md_error m)
     ++ strField "createdAt" (md_createdAt m)
     ++ strField "completedAt" (md_completedAt m)
     ++ field "vmafScore" (md_vmafScore m)
     ++ strField "description" (md_description m)).

(** A string-typed property of a parsed object. A property whose JSON type
    is not the declared one is outside the typed model and reads as absent. *)
Definition getString (k : string) (fields : list (string * Json.value)) : option string :=
  match Json.lookup k fields with
  | Some (Json.JStr s) => Some s
  | _ => None
  end.

(** A parsed object read through [interface JobMetadata]. *)
Definition metadataOfFields (fields : list (string * Json.value)) : JobMetadata :=
  {| md_jobId := getString "jobId" fields;
     md_status := getString "status" fields ≫= statusOfString;
     md_referenceKey := getString "referenceKey" fields;
     md_distortedKey := getString "distortedKey" fields;
     md_referenceName := getString "referenceName" fields;
     md_distortedName := getString "distortedName" fields;
     md_resultKey := getString "resultKey" fields;
     md_bucket := getString "bucket" fields;
     md_oscJobName := getString "oscJobName" fields;
     md_error := getString "error" fields;
     md_createdAt := getString "createdAt" fields;
     md_completedAt := getString "completedAt" fields;
     md_vmafScore := Json.lookup "vmafScore" fields;
     md_description := getString "description" fields |}.

(** ** The process state and the Storage Gateway *)

(** What [response.Body.transformToString()] followed by [JSON.parse] makes
    of a stored object: a document, or text that does not parse (the empty
    text included). *)
Inductive Body : Type :=
| Doc (v : Json.value)
| Garbage.

Record World : Type := mkWorld {
  serverConfig : S3Config;
  (** [const jobs = new Map(...)], the in-memory Job Registry *)
  jobs : gmap string JobEntry;
  (** the objects of the Storage Gateway, by bucket and key *)
  s3 : gmap (string * string) Body;
  (** the lines written by [console.error], oldest first *)
  console : list string;
  (** ghost state: the status of every [jobs.set], oldest first *)
  statusLog : list (string * option Status)
}.

Definition set_jobs (j : gmap string JobEntry) (w : World) : World :=
  mkWorld (serverConfig w) j (s3 w) (console w) (statusLog w).
Definition set_s3 (o : gmap (string * string) Body) (w : World) : World :=
  mkWorld (serverConfig w) (jobs w) o (console w) (statusLog w).
Definition set_console (c : list string) (w : World) : World :=
  mkWorld (serverConfig w) (jobs w) (s3 w) c (statusLog w).
Definition set_statusLog (l : list (string * option Status)) (w : World) : World :=
  mkWorld (serverConfig w) (jobs w) (s3 w) (console w) l.

(** A computation on the process state that may throw. The state survives a
    throw. *)
Definition M (A : Type) : Type := World -> Exn A * World.

#[global] Instance M_ret : MRet M := fun A a w => (Ok a, w).
#[global] Instance M_bind : MBind M := fun A B f m w =>
  match m w with
  | (Ok a, w') => f a w'
  | (Throw e, w') => (Throw e, w')
  end.

Definition throw {A} (msg : string) : M A := fun w => (Throw msg, w).

Definition liftExn {A} (r : Exn A) : M A := fun w => (r, w).

(** [try { body } catch (error) { handler(error.message) }] *)
Definition tryCatch {A} (body : M A) (handler : string -> M A) : M A := fun w =>
  match body w with
  | (Ok a, w') => (Ok a, w')
  | (Throw e, w') => handler e w'
  end.

Definition consoleError (line : string) : M unit := fun w =>
  (Ok tt, set_console (console w ++ [line]) w).

Definition getConfig : M S3Config := fun w => (Ok (serverConfig w), w).

Definition jobs_get (jobId : string) : M (option JobEntry) := fun w =>
  (Ok (jobs w !! jobId), w).

Definition jobs_set (jobId : string) (e : JobEntry) : M unit := fun w =>
  (Ok tt, set_statusLog (statusLog w ++ [(jobId, job_status e)])
            (set_jobs (<[jobId := e]> (jobs w)) w)).

Definition jobs_delete (jobId : string) : M unit := fun w =>
  (Ok tt, set_jobs (delete jobId (jobs w)) w).

(** The calls of [s3Client.send]. A bucket may be [undefined]. *)
Inductive S3Call : Type :=
| GetObjectCommand (bucket : option string) (key : string)
| PutObjectCommand (bucket : option string) (key : string)
| DeleteObjectCommand (bucket : option string) (key : string)
| ListObjectsV2Command (bucket : option string) (prefix : string).

(** Which calls the gateway fails during one handler invocation. *)
Definition Faults : Type := S3Call -> bool.

Definition noFaults : Faults := fun _ => false.
Definition allFaults : Faults := fun _ => true.

Definition s3Error : string := "S3ServiceException".

(** A call the gateway serves needs a bucket name. *)
Definition served (f : Faults) (call : S3Call) (bucket : option string) : M string :=
  if f call then throw s3Error
  else match bucket with
       | Some b => mret b
       | None => throw "No value provided for input HTTP label: Bucket."
       end.

Definition getObject (f : Faults) (bucket : option string) (key : string) : M Body :=
  b ← served f (GetObjectCommand bucket key) bucket;
  ((fun w => match s3 w !! (b, key) with
             | Some body => (Ok body, w)
             | None => (Throw "NoSuchKey", w)
             end) : M Body).

Definition putObject (f : Faults) (bucket : option string) (key : string)
    (body : Body) : M unit :=
  b ← served f (PutObjectCommand bucket key) bucket;
  ((fun w => (Ok tt, set_s3 (<[(b, key) := body]> (s3 w)) w)) : M unit).

(** Deleting a key that is not there succeeds. *)
Definition deleteObject (f : Faults) (bucket : option string) (key : string) : M unit :=
  b ← served f (DeleteObjectCommand bucket key) bucket;
  ((fun w => (Ok tt, set_s3 (delete (b, key) (s3 w)) w)) : M unit).

Fixpoint insertKey (k : string) (l : list string) : list string :=
  match l with
  | [] => [k]
  | k' :: rest => if String.leb k k' then k :: l else k' :: insertKey k rest
  end.

(** The keys of a bucket under a prefix, in the gateway's (binary) order.
    [Contents] is [undefined] when there is none. *)
Definition keysUnder (bucket prefix : string) (objects : gmap (string * string) Body)
    : list string :=
  foldr insertKey []
    (omap (fun '((b, k), _) =>
             if bool_decide (b = bucket) && JsString.startsWith k prefix
             then Some k else None)
          (map_to_list objects)).

(** One [ListObjectsV2Command]. The gateway is taken at its contract,
    [listObjects(bucket, prefix) -> keys]: the reply holds every key under
    the prefix. *)
Definition listObjects (f : Faults) (bucket : option string) (prefix : string)
    : M (option (list string)) :=
  b ← served f (ListObjectsV2Command bucket prefix) bucket;
  ((fun w => match keysUnder b prefix (s3 w) with
             | [] => (Ok None, w)
             | keys => (Ok (Some keys), w)
             end) : M (option (list string))).

(** ** Result parsing *)

Record FrameData : Type := mkFrameData {
  frameNum : option Json.value;
  (** the [vmaf_*] properties attached to the frame, in attachment order *)
  frameMetrics : list (string * Json.value)
}.

(** The score fields of the [GET /api/results/:jobId] response. *)
Record ParsedResults : Type := mkParsedResults {
  vmafScore : Json.value;
  frames : list FrameData;
  vmafMetrics : list (string * Json.value);
  primaryMetric : option string
}.

(** [x || {}] *)
Definition orEmptyObject (x : option Json.value) : Json.value :=
  if Json.truthy x then default (Json.JObj []) x else Json.JObj [].

(** The callback of [vmafData.frames?.map(...)]. *)
Definition parseFrame (vmafMetricKeys : list string) (frame : Json.value) : Exn FrameData :=
  num ← Json.prop "frameNum" (Some frame);
  attached ← mapM (fun metricKey =>
                     metrics ← Json.prop "metrics" (Some frame);
                     v ← Json.prop metricKey metrics;
                     mret (field metricKey v))
                  vmafMetricKeys;
  mret (mkFrameData num (concat attached)).

(** Lines 1099-1125 of the results handler, from [vmafData] on. *)
Definition parseResults (vmafData : Json.value) : Exn ParsedResults :=
  pm ← Json.prop "pooled_metrics" (Some vmafData);
  let pooledMetrics := orEmptyObject pm in
  let vmafMetricKeys := Json.keysWithPrefix "vmaf_" pooledMetrics in
  let vmafMetrics :=
    flat_map (fun key => field key (Json.optProp key (Some pooledMetrics)))
             vmafMetricKeys in
  fr ← Json.prop "frames" (Some vmafData);
  frames ← match fr with
           | None => mret []
           | Some Json.JNull => mret []
           | Some (Json.JArr items) => mapM (parseFrame vmafMetricKeys) items
           | Some _ => Throw "TypeError: vmafData.frames?.map is not a function"
           end;
  let primaryMetric :=
    if bool_decide ("vmaf_hd" ∈ vmafMetricKeys) then Some "vmaf_hd"
    else head vmafMetricKeys in
  let mean := Json.optProp "mean"
                (Json.lookup (JsString.template primaryMetric) vmafMetrics) in
  let primaryScore := if Json.truthy mean then default (Json.JNum 0) mean
                      else Json.JNum 0 in
  mret (mkParsedResults primaryScore frames vmafMetrics primaryMetric).

(** Lines 909-917 of the polling task: the score kept in the metadata. *)
Definition scoreOf (body : Body) : Exn (option Json.value) :=
  match body with
  | Garbage => Throw "SyntaxError"
  | Doc vmafData =>
      pm ← Json.prop "pooled_metrics" (Some vmafData);
      let pooledMetrics := orEmptyObject pm in
      let hd := Json.optProp "vmaf_hd" (Some pooledMetrics) in
      let vmafHd := if Json.truthy hd then hd
                    else Json.optProp "vmaf" (Some pooledMetrics) in
      mret (Json.optProp "mean" vmafHd)
  end.

(** ** The key of the raw result document, once per code path *)

(** Polling task, lines 900-901. *)
Definition resultFileKey_poll (resultKey : string) (oscJobName : option string) : string :=
  let folder := JsString.substring resultKey 0
                  (JsString.lastIndexOf resultKey JsString.slash + 1) in
  folder +:+ JsString.template oscJobName +:+ ".json".

(** [GET /api/results/:jobId], lines 1077-1078. *)
Definition resultFileKey_results (resultKey : string) (oscJobName : option string) : string :=
  let folder := JsString.substring resultKey 0
                  (JsString.lastIndexOf resultKey JsString.slash + 1) in
  folder +:+ JsString.template oscJobName +:+ ".json".

(** [GET /api/results/:jobId/raw], lines 1196-1197. *)
Definition resultFileKey_raw (resultKey : string) (oscJobName : option string) : string :=
  let folder := JsString.substring resultKey 0
                  (JsString.lastIndexOf resultKey JsString.slash + 1) in
  folder +:+ JsString.template oscJobName +:+ ".json".

(** [DELETE /api/jobs/:jobId], lines 1283-1284. *)
Definition resultFileKey_delete (resultKey : string) (oscJobName : option string) : string :=
  let folder := JsString.substring resultKey 0
                  (JsString.lastIndexOf resultKey JsString.slash + 1) in
  folder +:+ JsString.template oscJobName +:+ ".json".

(** The wording of the specification: the prefix of [resultKey] up to and
    including its last ['/'] (empty when there is none), then the external
    job name, then [.json]. *)
Fixpoint hasSlash (s : string) : bool :=
  match s with
  | EmptyString => false
  | String a s' => Ascii.eqb a JsString.slash || hasSlash s'
  end.

Fixpoint prefixThroughLastSlash (s : string) : string :=
  match s with
  | EmptyString => EmptyString
  | String a s' => if hasSlash s then String a (prefixThroughLastSlash s')
                   else EmptyString
  end.

Definition specRawResultKey (resultKey externalJobName : string) : string :=
  prefixThroughLastSlash resultKey +:+ externalJobName +:+ ".json".

(** ** Job metadata helpers *)

Definition metadataKey (jobId : option string) : string :=
  "jobs/" +:+ JsString.template jobId +:+ ".json".

(** [saveJobMetadata] *)
Definition saveJobMetadata (f : Faults) (bucket : option string)
    (metadata : JobMetadata) : M unit :=
  let key := metadataKey (md_jobId metadata) in
  putObject f bucket key (Doc (metadataToJson metadata)).

Definition emptyMetadata : JobMetadata :=
  mkJobMetadata None None None None None None None None None None None None None None.

(** [JSON.parse(bodyString)] and the bucket rule of [loadJobMetadata]. Reading
    [.bucket] of [null] throws; so does, in a module (strict code), setting
    [.bucket] on a primitive. *)
Definition parseMetadata (bucket : option string) (body : Body) : Exn JobMetadata :=
  match body with
  | Garbage => Throw "SyntaxError"
  | Doc (Json.JObj fields) =>
      let metadata := metadataOfFields fields in
      mret (if JsString.truthyOpt (md_bucket metadata) then metadata
            else md_with_bucket bucket metadata)
  | Doc (Json.JArr _) => mret (md_with_bucket bucket emptyMetadata)
  | Doc _ => Throw Json.typeError
  end.

(** [loadJobMetadata]: every failure is [null]. *)
Definition loadJobMetadata (f : Faults) (bucket : option string) (jobId : string)
    : M (option JobMetadata) :=
  tryCatch
    (let key := metadataKey (Some jobId) in
     body ← getObject f bucket key;
     metadata ← liftExn (parseMetadata bucket body);
     mret (Some metadata))
    (fun _ => mret None).

(** [obj.Key.replace('jobs/', '').replace('.json', '')] *)
Definition jobIdOfKey (key : string) : string :=
  JsString.replace (JsString.replace key "jobs/" "") ".json" "".

(** The [for (const obj of response.Contents)] loop of [listJobMetadata]. *)
Fixpoint loadListed (f : Faults) (bucket : option string) (contents : list string)
    : M (list JobMetadata) :=
  match contents with
  | [] => mret []
  | key :: rest =>
      if JsString.truthy key && JsString.endsWith key ".json" then
        metadata ← loadJobMetadata f bucket (jobIdOfKey key);
        more ← loadListed f bucket rest;
        mret (match metadata with
              | Some m => m :: more
              | None => more
              end)
      else loadListed f bucket rest
  end.

Section Listing.

(** [new Date(x).getTime()]; [None] is [NaN]. *)
Variable getTime : option string -> option Z.

(** The comparator of [jobs.sort]: [time(b) - time(a)]. *)
Definition newestFirst (a b : JobMetadata) : option Z :=
  tb ← getTime (md_createdAt b);
  ta ← getTime (md_createdAt a);
  Some (tb - ta)%Z.

(** [a] may stay in front of [b]: the comparator is not positive. A [NaN]
    never is. *)
Definition keepsOrder (a b : JobMetadata) : bool :=
  match newestFirst a b with
  | Some d => (d <=? 0)%Z
  | None => false
  end.

Fixpoint insertJob (x : JobMetadata) (l : list JobMetadata) : list JobMetadata :=
  match l with
  | [] => [x]
  | y :: rest => if keepsOrder x y then x :: l else y :: insertJob x rest
  end.

(** [Array.prototype.sort] is stable; on a consistent comparator every
    stable sort returns this list. *)
Definition sortJobs (l : list JobMetadata) : list JobMetadata :=
  foldr insertJob [] l.

(** [listJobMetadata] *)
Definition listJobMetadata (f : Faults) (bucket : option string) : M (list JobMetadata) :=
  tryCatch
    (contents ← listObjects f bucket "jobs/";
     match contents with
     | None => mret []
     | Some contents =>
         jobs ← loadListed f bucket contents;
         mret (sortJobs jobs)
     end)
    (fun _ =>
       consoleError "Error listing job metadata:";;
       mret []).

End Listing.

(** ** Responses *)

Inductive ResBody : Type :=
(** [{ error, jobId? }] *)
| ErrorJson (error : string) (jobId : option string)
(** [{ jobId, status, referenceKey, distortedKey, resultKey }] *)
| AnalyzeJson (jobId : string) (status : Status)
              (referenceKey distortedKey resultKey : string)
(** [{ jobId, status, error }] *)
| StatusJson (jobId : string) (status : option Status) (error : option string)
(** [{ jobId, status, oscJobName, oscJobStatus, oscJobDetails }] *)
| StatusOscJson (jobId : string) (status : option Status)
                (oscJobName oscJobStatus : string)
(** [{ jobId, status: 'completed', vmafScore, frames, vmafMetrics, primaryMetric }] *)
| ResultsJson (jobId : string) (parsed : ParsedResults)
(** the raw report, sent as an attachment *)
| RawSend (filename : string) (body : Body)
(** the array of metadata records *)
| JobListJson (jobList : list JobMetadata)
(** [{ success: true, message }] *)
| SuccessJson (message : string).

Record Response : Type := mkResponse {
  res_status : Z;
  res_body : ResBody
}.

(** [res.json(body)] *)
Definition json (body : ResBody) : Response := mkResponse 200 body.

(** [createS3Client(config)] reads [config.region]: a [TypeError] when the
    entry carries no config. *)
Definition createS3Client (config : option ConfigRef) : M unit :=
  match config with
  | Some ServerConfigRef => mret tt
  | None => throw "TypeError: Cannot read properties of undefined (reading 'region')"
  end.

(** [x!.substring(...)]: the receiver must be there. *)
Definition required (what : string) (x : option string) : M string :=
  match x with
  | Some s => mret s
  | None => throw ("TypeError: Cannot read properties of undefined (reading '"
                   +:+ what +:+ "')")
  end.

(** ** [GET /api/jobs/:jobId/status] *)

(** [tokenReply] and [jobReply] are what [getServiceAccessToken] and
    [getJob] answer if they are called; the runner's job is its status
    string. *)
Definition statusHandler (jobId : string) (tokenReply jobReply : Exn string)
    : M Response :=
  tryCatch
    (job ← jobs_get jobId;
     match job with
     | None => mret (mkResponse 404 (ErrorJson "Job not found" None))
     | Some job =>
         if JsString.truthyOpt (job_oscJobName job) && bool_decide (is_Some (job_config job))
         then
           _ ← liftExn tokenReply;
           oscJobStatus ← liftExn jobReply;
           mret (json (StatusOscJson jobId (job_status job)
                         (JsString.template (job_oscJobName job)) oscJobStatus))
         else
           mret (json (StatusJson jobId (job_status job) (job_error job)))
     end)
    (fun _ =>
       consoleError "Error fetching job status:";;
       mret (mkResponse 500 (ErrorJson "Failed to fetch job status" None))).

(** ** [GET /api/results/:jobId] and [GET /api/results/:jobId/raw] *)

(** What both handlers gather first: from the registry entry, else from the
    metadata record of the bucket in the query (or the default bucket). *)
Record JobFacts : Type := mkJobFacts {
  fact_config : option ConfigRef;
  fact_bucket : option string;
  fact_resultKey : option string;
  fact_oscJobName : option string;
  fact_status : option Status
}.

Definition notFound : Response := mkResponse 404 (ErrorJson "Job not found" None).

Definition gatherFacts (f : Faults) (jobId : string) (queryBucket : option string)
    (job : option JobEntry) : M (Response + JobFacts) :=
  match job with
  | Some job =>
      mret (inr (mkJobFacts (job_config job) (job_bucket job) (job_resultKey job)
                            (job_oscJobName job) (job_status job)))
  | None =>
      tryCatch
        (config ← getConfig;
         let searchBucket := JsString.orElse queryBucket (cfg_bucket config) in
         metadata ← loadJobMetadata f searchBucket jobId;
         match metadata with
         | None => mret (inl notFound)
         | Some metadata =>
             mret (inr (mkJobFacts (Some ServerConfigRef) (md_bucket metadata)
                                   (md_resultKey metadata) (md_oscJobName metadata)
                                   (md_status metadata)))
         end)
        (fun _ =>
           consoleError "Error loading job metadata:";;
           mret (inl notFound))
  end.

Definition bodyJson (body : Body) : M Json.value :=
  match body with
  | Doc v => mret v
  | Garbage => throw "SyntaxError"
  end.

Definition resultsHandler (f : Faults) (jobId : string) (queryBucket : option string)
    : M Response :=
  tryCatch
    (job ← jobs_get jobId;
     facts ← gatherFacts f jobId queryBucket job;
     match facts with
     | inl response => mret response
     | inr facts =>
         if negb (bool_decide (fact_status facts = Some Completed)) then
           mret (json (StatusJson jobId (fact_status facts) (job ≫= job_error)))
         else
           tryCatch
             (createS3Client (fact_config facts);;
              resultKey ← required "substring" (fact_resultKey facts);
              let resultFileKey :=
                resultFileKey_results resultKey (fact_oscJobName facts) in
              body ← getObject f (fact_bucket facts) resultFileKey;
              vmafData ← bodyJson body;
              parsed ← liftExn (parseResults vmafData);
              mret (json (ResultsJson jobId parsed)))
             (fun _ =>
                consoleError "Error fetching VMAF results:";;
                mret (json (StatusJson jobId (Some Running)
                              (Some "Results not yet available"))))
     end)
    (fun _ =>
       consoleError "Error fetching results:";;
       mret (mkResponse 500 (ErrorJson "Failed to fetch results" None))).

Definition rawResultsHandler (f : Faults) (jobId : string) (queryBucket : option string)
    : M Response :=
  tryCatch
    (job ← jobs_get jobId;
     facts ← gatherFacts f jobId queryBucket job;
     match facts with
     | inl response => mret response
     | inr facts =>
         if negb (bool_decide (fact_status facts = Some Completed)) then
           mret (mkResponse 400 (ErrorJson "Job not completed" None))
         else
           createS3Client (fact_config facts);;
           resultKey ← required "substring" (fact_resultKey facts);
           let resultFileKey := resultFileKey_raw resultKey (fact_oscJobName facts) in
           body ← getObject f (fact_bucket facts) resultFileKey;
           mret (json (RawSend ("vmaf-" +:+ JsString.template (fact_oscJobName facts)
                                +:+ ".json") body))
     end)
    (fun _ =>
       consoleError "Error fetching raw results:";;
       mret (mkResponse 500 (ErrorJson "Failed to fetch raw results" None))).

(** ** [GET /api/jobs] *)

Definition isConfigured (config : S3Config) : bool :=
  if String.eqb (cfg_storageType config) "aws" then
    JsString.truthyOpt (cfg_bucket config) && JsString.truthyOpt (cfg_region config)
    && JsString.truthy (cfg_accessKey config) && JsString.truthy (cfg_secretKey config)
  else
    JsString.truthyOpt (cfg_endpoint config)
    && JsString.truthy (cfg_accessKey config) && JsString.truthy (cfg_secretKey config).

Definition listJobsHandler (getTime : option string -> option Z) (f : Faults)
    (queryBucket : option string) : M Response :=
  tryCatch
    (config ← getConfig;
     if negb (isConfigured config) then mret (json (JobListJson []))
     else
       let bucket := JsString.orElse queryBucket (cfg_bucket config) in
       jobList ← listJobMetadata getTime f bucket;
       mret (json (JobListJson jobList)))
    (fun _ =>
       consoleError "Error listing jobs:";;
       mret (mkResponse 500 (ErrorJson "Failed to list jobs" None))).

(** ** [DELETE /api/jobs/:jobId] *)

(** Lines 1257-1266: the bucket of the in-memory job, else the one of the
    query, else the default one. *)
Definition deleteTargetBucket (inMemoryJob : option JobEntry)
    (queryBucket : option string) (config : S3Config) : option string :=
  if JsString.truthyOpt (inMemoryJob ≫= job_bucket) then inMemoryJob ≫= job_bucket
  else if JsString.truthyOpt queryBucket then queryBucket
  else cfg_bucket config.

Definition deleteJobHandler (f : Faults) (jobId : string) (queryBucket : option string)
    : M Response :=
  tryCatch
    (config ← getConfig;
     inMemoryJob ← jobs_get jobId;
     let targetBucket := deleteTargetBucket inMemoryJob queryBucket config in
     found ← tryCatch
               (metadata ← loadJobMetadata f targetBucket jobId;
                mret (metadata,
                      if JsString.truthyOpt (metadata ≫= md_bucket)
                      then metadata ≫= md_bucket else targetBucket))
               (fun _ => mret (None, targetBucket));
     let metadata := fst found in
     let targetBucket := snd found in
     (if JsString.truthyOpt (metadata ≫= md_oscJobName)
         && JsString.truthyOpt (metadata ≫= md_resultKey)
      then
        tryCatch
          (resultKey ← required "substring" (metadata ≫= md_resultKey);
           let resultFileKey :=
             resultFileKey_delete resultKey (metadata ≫= md_oscJobName) in
           deleteObject f targetBucket resultFileKey)
          (fun _ => consoleError "Error deleting result file:")
      else mret tt);;
     let metadataKey := metadataKey (Some jobId) in
     tryCatch
       (deleteObject f targetBucket metadataKey)
       (fun _ => consoleError "Error deleting job metadata:");;
     jobs_delete jobId;;
     mret (json (SuccessJson "Job deleted successfully")))
    (fun _ =>
       consoleError "Error deleting job:";;
       mret (mkResponse 500 (ErrorJson "Failed to delete job" None))).

(** ** [POST /api/analyze] and its background task *)

(** The destructured request body. *)
Record AnalyzeRequest : Type := mkAnalyzeRequest {
  req_referenceKey : option string;
  req_distortedKey : option string;
  req_folder : option string;
  req_bucket : option string;
  req_description : option string
}.

(** The constants the handler binds before its first [await]; the
    background task closes over them. *)
Record Closure : Type := mkClosure {
  cl_jobId : string;
  cl_targetBucket : option string;
  cl_referenceKey : string;
  cl_distortedKey : string;
  cl_referenceName : string;
  cl_distortedName : string;
  cl_resultKey : string;
  cl_createdAt : string;
  cl_description : option string
}.

(** The pending [await]. A pending [saveJobMetadata] carries the record it
    was called with. *)
Inductive Pc : Type :=
| PcToken                                       (* line 803 *)
| PcAuthSave (pending : JobMetadata)            (* line 812 *)
| PcCreateJob                                   (* line 842 *)
| PcSubmitSave (jobName : string) (pending : JobMetadata)   (* line 861 *)
| PcTimer (jobName : string)                    (* line 878 *)
| PcGetJob (jobName : string)                   (* line 879 *)
| PcScoreGet (completedJob : JobEntry) (completedAt resultFileKey : string)
                                                (* lines 908-910 *)
| PcCompletedSave (pending : JobMetadata)       (* line 924 *)
| PcFailedSave (pending : JobMetadata)          (* line 953 *)
| PcDone.

(** What the awaited call answers. *)
Inductive Reply : Type :=
(** [getServiceAccessToken] *)
| RToken (r : Exn string)
(** [createJob]: the name of the created job *)
| RCreateJob (r : Exn string)
(** an S3 call: served by the gateway, or failed with a message *)
| RStorage (fault : option string)
(** the five-second timer *)
| RTimer
(** [getJob]: the runner's status string; [now] is the clock when the
    reply is handled ([new Date().toISOString()]) *)
| RGetJob (r : Exn string) (now : string).

Record Task : Type := mkTask {
  t_env : Closure;
  t_pc : Pc
}.

(** An S3 call settles: it throws the fault, or the gateway serves it. *)
Definition settle {A} (fault : option string) (call : M A) : M A :=
  match fault with
  | Some msg => throw msg
  | None => call
  end.

(** [key.split('/').pop() || key] *)
Definition fileName (key : string) : string :=
  let last := JsString.pop (JsString.split key JsString.slash) in
  if JsString.truthyOpt last then JsString.template last else key.

Definition isSuccess (status : string) : bool :=
  String.eqb status "SuccessCriteriaMet" || String.eqb status "Completed"
  || String.eqb status "Success".

Definition isFailure (status : string) : bool :=
  String.eqb status "Failed" || String.eqb status "Error".

Definition typeErrorReading (what : string) : string :=
  "Cannot read properties of undefined (reading '" +:+ what +:+ "')".

Definition authError : string := "Invalid OSC token or service unavailable".

(** The record of lines 812-824. *)
Definition authFailedMetadata (env : Closure) : JobMetadata :=
  {| md_jobId := Some (cl_jobId env);
     md_status := Some Failed;
     md_referenceKey := Some (cl_referenceKey env);
     md_distortedKey := Some (cl_distortedKey env);
     md_referenceName := Some (cl_referenceName env);
     md_distortedName := Some (cl_distortedName env);
     md_resultKey := Some (cl_resultKey env);
     md_bucket := cl_targetBucket env;
     md_oscJobName := None;
     md_error := Some authError;
     md_createdAt := Some (cl_createdAt env);
     md_completedAt := None;
     md_vmafScore := None;
     md_description := cl_description env |}.

(** The record of lines 861-873. *)
Definition submittedMetadata (env : Closure) (currentJob : JobEntry) (jobName : string)
    : JobMetadata :=
  {| md_jobId := Some (cl_jobId env);
     md_status := job_status currentJob;
     md_referenceKey := job_referenceKey currentJob;
     md_distortedKey := job_distortedKey currentJob;
     md_referenceName := job_referenceName currentJob;
     md_distortedName := job_distortedName currentJob;
     md_resultKey := job_resultKey currentJob;
     md_bucket := cl_targetBucket env;
     md_oscJobName := Some jobName;
     md_error := None;
     md_createdAt := job_createdAt currentJob;
     md_completedAt := None;
     md_vmafScore := None;
     md_description := job_description currentJob |}.

(** The record of lines 924-938. *)
Definition completedMetadata (env : Closure) (completedJob : JobEntry)
    (completedAt : string) (vmafScore : option Json.value) : JobMetadata :=
  {| md_jobId := Some (cl_jobId env);
     md_status := Some Completed;
     md_referenceKey := job_referenceKey completedJob;
     md_distortedKey := job_distortedKey completedJob;
     md_referenceName := job_referenceName completedJob;
     md_distortedName := job_distortedName completedJob;
     md_resultKey := job_resultKey completedJob;
     md_bucket := cl_targetBucket env;
     md_oscJobName := job_oscJobName completedJob;
     md_error := None;
     md_createdAt := job_createdAt completedJob;
     md_completedAt := Some completedAt;
     md_vmafScore := vmafScore;
     md_description := job_description completedJob |}.

(** The record of lines 953-966. *)
Definition failedMetadata (env : Closure) (failedJob : JobEntry) (message : string)
    : JobMetadata :=
  {| md_jobId := Some (cl_jobId env);
     md_status := Some Failed;
     md_referenceKey := job_referenceKey failedJob;
     md_distortedKey := job_distortedKey failedJob;
     md_referenceName := job_referenceName failedJob;
     md_distortedName := job_distortedName failedJob;
     md_resultKey := job_resultKey failedJob;
     md_bucket := cl_targetBucket env;
     md_oscJobName := job_oscJobName failedJob;
     md_error := Some message;
     md_createdAt := job_createdAt failedJob;
     md_completedAt := None;
     md_vmafScore := None;
     md_description := job_description failedJob |}.

Section Analyze.

(** Whether [new URL(s)] accepts [s]; it throws a [TypeError] otherwise. *)
Variable urlParses : string -> bool.

Definition newURL (s : string) : M unit :=
  if urlParses s then mret tt else throw "TypeError: Invalid URL".

(** The handler up to its first [await] (lines 758-803). [nowMs] is
    [Date.now()] and [nowIso] is [new Date().toISOString()]. *)
Definition analyzeHandler (req : AnalyzeRequest) (nowMs : N) (nowIso : string)
    : M (Task + Response) :=
  tryCatch
    (config ← getConfig;
     let targetBucket := JsString.orElse (req_bucket req) (cfg_bucket config) in
     let jobId := "job" +:+ pretty nowMs in
     let createdAt := nowIso in
     let resultKey :=
       if JsString.truthyOpt (req_folder req)
       then JsString.template (req_folder req) +:+ "/results/" +:+ jobId +:+ ".json"
       else "results/" +:+ jobId +:+ ".json" in
     referenceKey ← required "split" (req_referenceKey req);
     let referenceName := fileName referenceKey in
     distortedKey ← required "split" (req_distortedKey req);
     let distortedName := fileName distortedKey in
     jobs_set jobId
       {| job_status := Some Queued;
          job_referenceKey := Some referenceKey;
          job_distortedKey := Some distortedKey;
          job_resultKey := Some resultKey;
          job_bucket := targetBucket;
          job_config := Some ServerConfigRef;
          job_oscJobName := None;
          job_error := None;
          job_referenceName := Some referenceName;
          job_distortedName := Some distortedName;
          job_createdAt := Some createdAt;
          job_completedAt := None;
          job_description := req_description req |};;
     newURL ("s3://" +:+ JsString.template targetBucket +:+ "/" +:+ referenceKey);;
     newURL ("s3://" +:+ JsString.template targetBucket +:+ "/" +:+ distortedKey);;
     newURL ("s3://" +:+ JsString.template targetBucket +:+ "/"
             +:+ (if JsString.truthyOpt (req_folder req)
                  then JsString.template (req_folder req) +:+ "/results"
                  else "results"));;
     current ← jobs_get jobId;
     jobs_set jobId (with_status Running (spread current));;
     mret (inl (mkTask (mkClosure jobId targetBucket referenceKey distortedKey
                          referenceName distortedName resultKey createdAt
                          (req_description req))
                       PcToken)))
    (fun _ =>
       consoleError "Error triggering analysis:";;
       mret (inr (mkResponse 500 (ErrorJson "Failed to trigger analysis" None)))).

(** The [catch] block of the background task (lines 943-970), entered with
    [err.message]. It ends at the pending save of the failed record, or at
    once when building that record throws inside the inner [try]. *)
Definition catchBlock (env : Closure) (message : string) : M Pc :=
  failedJob ← jobs_get (cl_jobId env);
  jobs_set (cl_jobId env) (with_error message (with_status Failed (spread failedJob)));;
  consoleError ("Job " +:+ cl_jobId env +:+ " failed:");;
  consoleError "Full error:";;
  match failedJob with
  | None =>
      consoleError "Failed to save error job metadata:";;
      mret PcDone
  | Some failedJob => mret (PcFailedSave (failedMetadata env failedJob message))
  end.

(** One turn of the request handler after its first [await]
    (lines 803-833 and 973-979): the reply of the token call, then the
    reply of the save of the failed record. *)
Definition handlerTurn (env : Closure) (pc : Pc) (reply : Reply)
    : M (Pc * option Response) :=
  tryCatch
    (match pc, reply with
     | PcToken, RToken (Throw _) =>
         consoleError "Failed to get OSC service access token:";;
         current ← jobs_get (cl_jobId env);
         jobs_set (cl_jobId env)
           (with_error authError (with_status Failed (spread current)));;
         mret (PcAuthSave (authFailedMetadata env), None)
     | PcToken, RToken (Ok _) =>
         (* the task starts: [createJob] is called and awaited; the handler
            goes on and answers *)
         mret (PcCreateJob,
               Some (json (AnalyzeJson (cl_jobId env) Queued (cl_referenceKey env)
                             (cl_distortedKey env) (cl_resultKey env))))
     | PcAuthSave pending, RStorage fault =>
         tryCatch
           (settle fault (saveJobMetadata noFaults (cl_targetBucket env) pending))
           (fun _ => consoleError "Failed to save error job metadata:");;
         mret (PcDone,
               Some (mkResponse 400
                       (ErrorJson "Failed to authenticate with OSC. Please check your OSC token in settings."
                                  (Some (cl_jobId env)))))
     | _, _ => mret (pc, None)
     end)
    (fun _ =>
       consoleError "Error triggering analysis:";;
       mret (PcDone, Some (mkResponse 500 (ErrorJson "Failed to trigger analysis" None)))).

(** One turn of the [try] block of the background task (lines 841-942). *)
Definition taskBody (env : Closure) (pc : Pc) (reply : Reply) : M Pc :=
  let jobId := cl_jobId env in
  let targetBucket := cl_targetBucket env in
  match pc, reply with
  | PcCreateJob, RCreateJob r =>
      jobName ← liftExn r;
      currentJob ← jobs_get jobId;
      jobs_set jobId (with_oscJobName jobName (spread currentJob));;
      match currentJob with
      | None => throw (typeErrorReading "status")
      | Some currentJob =>
          mret (PcSubmitSave jobName (submittedMetadata env currentJob jobName))
      end
  | PcSubmitSave jobName pending, RStorage fault =>
      settle fault (saveJobMetadata noFaults targetBucket pending);;
      mret (PcTimer jobName)
  | PcTimer jobName, RTimer => mret (PcGetJob jobName)
  | PcGetJob jobName, RGetJob r now =>
      status ← liftExn r;
      (if String.eqb status "Running" then
         runningJob ← jobs_get jobId;
         match runningJob with
         | Some runningJob =>
             if bool_decide (job_status runningJob = Some Queued)
             then jobs_set jobId (with_status Running runningJob)
             else mret tt
         | None => mret tt
         end
       else mret tt);;
      if isSuccess status then
        completedJob ← jobs_get jobId;
        let completedAt := now in
        jobs_set jobId
          (with_completedAt completedAt (with_status Completed (spread completedJob)));;
        match completedJob with
        | None =>
            (* [completedJob.resultKey] throws inside the inner [try];
               [completedJob.referenceKey] then throws outside it *)
            consoleError "Failed to fetch VMAF score for metadata:";;
            throw (typeErrorReading "referenceKey")
        | Some completedJob =>
            match job_resultKey completedJob with
            | None =>
                consoleError "Failed to fetch VMAF score for metadata:";;
                mret (PcCompletedSave
                        (completedMetadata env completedJob completedAt None))
            | Some resultKey =>
                mret (PcScoreGet completedJob completedAt
                        (resultFileKey_poll resultKey (job_oscJobName completedJob)))
            end
        end
      else if isFailure status then
        throw ("Job failed with status: " +:+ status)
      else mret (PcTimer jobName)
  | PcScoreGet completedJob completedAt resultFileKey, RStorage fault =>
      vmafScore ← tryCatch
                    (body ← settle fault (getObject noFaults targetBucket resultFileKey);
                     liftExn (scoreOf body))
                    (fun _ =>
                       consoleError "Failed to fetch VMAF score for metadata:";;
                       mret None);
      mret (PcCompletedSave (completedMetadata env completedJob completedAt vmafScore))
  | PcCompletedSave pending, RStorage fault =>
      settle fault (saveJobMetadata noFaults targetBucket pending);;
      mret PcDone
  | _, _ => mret pc
  end.

(** One turn of the task or of the handler: the reply of the pending
    [await] arrives and the code runs to its next [await]. A reply that
    does not answer the pending call changes nothing. *)
Definition step (t : Task) (reply : Reply) : M (Task * option Response) :=
  let env := t_env t in
  match t_pc t with
  | PcToken | PcAuthSave _ =>
      turn ← handlerTurn env (t_pc t) reply;
      mret (mkTask env (fst turn), snd turn)
  | PcFailedSave pending =>
      match reply with
      | RStorage fault =>
          tryCatch
            (settle fault (saveJobMetadata noFaults (cl_targetBucket env) pending))
            (fun _ => consoleError "Failed to save error job metadata:");;
          mret (mkTask env PcDone, None)
      | _ => mret (t, None)
      end
  | PcDone => mret (t, None)
  | pc =>
      pc' ← tryCatch (taskBody env pc reply) (catchBlock env);
      mret (mkTask env pc', None)
  end.

(** The task fed a sequence of replies; the responses sent on the way. *)
Fixpoint run (t : Task) (replies : list Reply) : M (Task * list Response) :=
  match replies with
  | [] => mret (t, [])
  | reply :: rest =>
      turn ← step t reply;
      more ← run (fst turn) rest;
      mret (fst more, from_option (fun r => [r]) [] (snd turn) ++ snd more)
  end.

End Analyze.

(** The statuses a log holds for one job, oldest first. *)
Definition historyIn (jobId : string) (log : list (string * option Status))
    : list (option Status) :=
  omap (fun entry => if String.eqb (fst entry) jobId then Some (snd entry) else None)
       log.

(** The statuses written to the registry for one job, oldest first. *)
Definition statusHistory (jobId : string) (w : World) : list (option Status) :=
  historyIn jobId (statusLog w).

(** The status a reader of the registry sees. *)
Definition registryStatus (jobId : string) (w : World) : option Status :=
  jobs w !! jobId ≫= job_status.

(** The lifecycle of the specification: with repeated writes of one status
    merged, the history is a subsequence of queued, running, completed or of
    queued, running, failed. *)
Fixpoint mergeRepeats (l : list (option Status)) : list (option Status) :=
  match l with
  | [] => []
  | x :: rest =>
      match rest with
      | y :: _ => if bool_decide (x = y) then mergeRepeats rest
                  else x :: mergeRepeats rest
      | [] => [x]
      end
  end.

Fixpoint isSubsequence (l pattern : list (option Status)) : bool :=
  match l, pattern with
  | [], _ => true
  | _ :: _, [] => false
  | x :: l', p :: pattern' =>
      if bool_decide (x = p) then isSubsequence l' pattern'
      else isSubsequence l pattern'
  end.

Definition forwardOnly (history : list (option Status)) : bool :=
  let h := mergeRepeats history in
  isSubsequence h [Some Queued; Some Running; Some Completed]
  || isSubsequence h [Some Queued; Some Running; Some Failed].

Definition emptyWorld (config : S3Config) : World :=
  mkWorld config ∅ ∅ [] [].

(** ** Vocabulary of the properties *)

(** What the configuration endpoint lets a client tell apart: the public
    fields, and for each secret only whether it is empty. *)
Definition sameDisclosure (c1 c2 : S3Config) : Prop :=
  cfg_storageType c1 = cfg_storageType c2
  /\ cfg_endpoint c1 = cfg_endpoint c2
  /\ cfg_region c1 = cfg_region c2
  /\ cfg_bucket c1 = cfg_bucket c2
  /\ JsString.truthy (cfg_accessKey c1) = JsString.truthy (cfg_accessKey c2)
  /\ JsString.truthy (cfg_secretKey c1) = JsString.truthy (cfg_secretKey c2)
  /\ JsString.truthy (cfg_oscToken c1) = JsString.truthy (cfg_oscToken c2).

Definition secretsOf (c : S3Config) : string * string * string :=
  (cfg_accessKey c, cfg_secretKey c, cfg_oscToken c).

(** The record [loadJobMetadata] hands out for a job identifier, [None] when
    it gives [null]. *)
Definition loadsAs (f : Faults) (bucket : option string) (w : World) (jobId : string)
    : option JobMetadata :=
  match fst (loadJobMetadata f bucket jobId w) with
  | Ok r => r
  | Throw _ => None
  end.

(** The properties of a parsed object; a value that is no object has none. *)
Definition fieldsOf (v : Json.value) : list (string * Json.value) :=
  match v with
  | Json.JObj fields => fields
  | _ => []
  end.

(** The records behind a listing: of the listed keys that end in [.json],
    those whose record loads, in listing order. *)
Definition listedRecords (f : Faults) (bucket : option string) (w : World)
    (contents : list string) : list JobMetadata :=
  omap (fun key => loadsAs f bucket w (jobIdOfKey key))
       (List.filter (fun key => JsString.endsWith key ".json") contents).



(** The raw result key the delete handler goes for, given the metadata it
    found. *)
Definition rawKeyOf (m : JobMetadata) : option string :=
  if JsString.truthyOpt (md_oscJobName m) && JsString.truthyOpt (md_resultKey m)
  then (fun resultKey => resultFileKey_delete resultKey (md_oscJobName m))
         <$> md_resultKey m
  else None.

(** The store once the gateway has served, or failed, the deletion of a key. *)
Definition removed (f : Faults) (bucket key : option string)
    (objects : gmap (string * string) Body) : gmap (string * string) Body :=
  match bucket, key with
  | Some b, Some k =>
      if f (DeleteObjectCommand bucket k) then objects else delete (b, k) objects
  | _, _ => objects
  end.

Definition deleted : Response := json (SuccessJson "Job deleted successfully").

(** The job status a response carries, if it carries one. *)
Definition reportedStatus (body : ResBody) : option (option Status) :=
  match body with
  | AnalyzeJson _ status _ _ _ => Some (Some status)
  | StatusJson _ status _ => Some status
  | StatusOscJson _ status _ _ => Some status
  | _ => None
  end.

(** The status handler asks the runner: the entry has an external job name
    and a config. *)
Definition asksRunner (job : JobEntry) : bool :=
  JsString.truthyOpt (job_oscJobName job) && bool_decide (is_Some (job_config job)).

Definition threw {A} (r : Exn A) : bool :=
  match r with
  | Ok _ => false
  | Throw _ => true
  end.

(** The reply fails the pending save of a completed record. *)
Definition failsCompletedSave (pc : Pc) (reply : Reply) : bool :=
  match pc, reply with
  | PcCompletedSave _, RStorage (Some _) => true
  | _, _ => false
  end.

(** No reply of the run fails the save of a completed record. *)
Fixpoint completedSavesServed (t : Task) (replies : list Reply) (w : World) : bool :=
  match replies with
  | [] => true
  | reply :: rest =>
      negb (failsCompletedSave (t_pc t) reply)
      && match step t reply w with
         | (Ok turn, w') => completedSavesServed (fst turn) rest w'
         | (Throw _, _) => true
         end
  end.

(** The history, repeats merged, that each pending [await] of the task goes
    with; past the submission the bucket is known to be there. *)
Definition phaseOk (pc : Pc) (merged : list (option Status)) (bucket : option string)
    : Prop :=
  match pc with
  | PcToken | PcCreateJob | PcSubmitSave _ _ => merged = [Some Queued; Some Running]
  | PcTimer _ | PcGetJob _ => merged = [Some Queued; Some Running] /\ is_Some bucket
  | PcScoreGet _ _ _ | PcCompletedSave _ =>
      merged = [Some Queued; Some Running; Some Completed] /\ is_Some bucket
  | PcAuthSave _ | PcFailedSave _ => merged = [Some Queued; Some Running; Some Failed]
  | PcDone => merged = [Some Queued; Some Running; Some Completed]
              \/ merged = [Some Queued; Some Running; Some Failed]
  end.

(** The invariant of the task: the job has its registry entry, the entry
    holds the status written last, and the history fits the phase. *)
Definition onTrack (t : Task) (w : World) : Prop :=
  let jobId := cl_jobId (t_env t) in
  exists e,
    jobs w !! jobId = Some e
    /\ last (statusHistory jobId w) = Some (job_status e)
    /\ phaseOk (t_pc t) (mergeRepeats (statusHistory jobId w)) (cl_targetBucket (t_env t)).

(** [{ jobId, status: 'running', error: 'Results not yet available' }] *)
Definition unavailable (jobId : string) : Response :=
  json (StatusJson jobId (Some Running) (Some "Results not yet available")).

Definition rawFailed : Response :=
  mkResponse 500 (ErrorJson "Failed to fetch raw results" None).

(** A completed job of the registry, with the fields the results handlers
    read. *)
Definition completedInRegistry (jobId : string) (w : World) (job : JobEntry)
    (resultKey : string) : Prop :=
  jobs w !! jobId = Some job
  /\ job_status job = Some Completed
  /\ job_config job = Some ServerConfigRef
  /\ job_resultKey job = Some resultKey.

(** *** Example data *)

Definition pooled (mean min max harmonic : Q) : Json.value :=
  Json.JObj [("mean", Json.JNum mean); ("min", Json.JNum min);
             ("max", Json.JNum max); ("harmonic_mean", Json.JNum harmonic)].

Definition exampleFrame (num hd plain : Json.value) : Json.value :=
  Json.JObj [("frameNum", num);
             ("metrics", Json.JObj [("vmaf_hd", hd); ("vmaf", plain)])].

(** The report of the parsing example: pooled [vmaf_hd] and [vmaf], and two
    frames that carry both. *)
Definition exampleReport (num0 hd0 plain0 num1 hd1 plain1 : Json.value) : Json.value :=
  Json.JObj
    [("frames", Json.JArr [exampleFrame num0 hd0 plain0; exampleFrame num1 hd1 plain1]);
     ("pooled_metrics",
      Json.JObj [("vmaf_hd", pooled 91.2 80 98 90.5);
                 ("vmaf", pooled 88.0 75 96 87.1)])].

(** Two configurations that differ in their secrets only, and a post that
    carries the mask for each secret. *)
Definition witnessConfig1 : S3Config :=
  mkS3Config "aws" None "AKIA-ONE" "first-secret" (Some "videos") (Some "eu-north-1") "".

Definition witnessConfig2 : S3Config :=
  mkS3Config "aws" None "AKIA-TWO" "another-secret" (Some "videos") (Some "eu-north-1") "".

Definition witnessPost : ConfigPost :=
  mkConfigPost None None (Some "eu-west-1") None (Some "****") (Some "****") (Some "****").

Definition demoConfig : S3Config :=
  mkS3Config "s3-compatible" (Some "https://minio.example") "AKIA" "s3cr3t" None None "pat".

Definition demoRequest : AnalyzeRequest :=
  mkAnalyzeRequest (Some "a.mp4") (Some "b.mp4") None (Some "demo") None.

Definition anyUrl (_ : string) : bool := true.

Definition demoClock : N := 1700000000000.
Definition demoIso : string := "2023-11-14T22:13:20.000Z".
Definition demoJobId : string := "job1700000000000".

(** The demo job right after the synchronous part of the create handler. *)
Definition demoStarted : Exn (Task + Response) * World :=
  analyzeHandler anyUrl demoRequest demoClock demoIso (emptyWorld demoConfig).

Definition demoEnv : Closure :=
  mkClosure demoJobId (Some "demo") "a.mp4" "b.mp4" "a.mp4" "b.mp4"
            "results/job1700000000000.json" demoIso None.

(** The runner completes the demo job, the report is not there yet, and the
    gateway fails the save of the completed record. *)
Definition completedThenSaveFails : list Reply :=
  [RToken (Ok "service-token"); RCreateJob (Ok "k3x9q"); RStorage None; RTimer;
   RGetJob (Ok "Completed") "2023-11-14T22:20:00.000Z";
   RStorage None; RStorage (Some "ServiceUnavailable"); RStorage None].

Definition demoTask : Task := mkTask demoEnv PcToken.

(** The Job Runner refuses the credential; the gateway serves the save of
    the failed record. *)
Definition tokenRefused : list Reply :=
  [RToken (Throw "Unauthorized"); RStorage None].

(** The responses a run has sent. *)
Definition responsesOf (r : Exn (Task * list Response) * World) : list Response :=
  match fst r with
  | Ok (_, responses) => responses
  | Throw _ => []
  end.

(** The run in which all goes well: the runner reports running, then
    success; the report is not there yet; both saves are served. *)
Definition completedRun : list Reply :=
  [RToken (Ok "service-token"); RCreateJob (Ok "k3x9q"); RStorage None;
   RTimer; RGetJob (Ok "Running") demoIso; RTimer;
   RGetJob (Ok "SuccessCriteriaMet") "2023-11-14T22:20:00.000Z";
   RStorage None; RStorage None].

(** The registry entry of the demo job right after create. *)
Definition demoRunningEntry : JobEntry :=
  {| job_status := Some Running;
     job_referenceKey := Some "a.mp4";
     job_distortedKey := Some "b.mp4";
     job_resultKey := Some "results/job1700000000000.json";
     job_bucket := Some "demo";
     job_config := Some ServerConfigRef;
     job_oscJobName := None;
     job_error := None;
     job_referenceName := Some "a.mp4";
     job_distortedName := Some "b.mp4";
     job_createdAt := Some demoIso;
     job_completedAt := None;
     job_description := None |}.

Definition demoReport : Json.value :=
  exampleReport (Json.JNum 0) (Json.JNum 90.1) (Json.JNum 87.5)
                (Json.JNum 1) (Json.JNum 92.3) (Json.JNum 88.5).

(** The demo job once the runner has written its report and the polling
    task has seen it complete. *)
Definition demoCompleted : World :=
  snd (run demoTask completedRun
         (set_s3 (<[("demo", "results/k3x9q.json") := Doc demoReport]>
                    (s3 (snd demoStarted)))
                 (snd demoStarted))).

Definition demoEntry : JobEntry :=
  {| job_status := Some Completed;
     job_referenceKey := Some "a.mp4";
     job_distortedKey := Some "b.mp4";
     job_resultKey := Some "results/job1700000000000.json";
     job_bucket := Some "demo";
     job_config := Some ServerConfigRef;
     job_oscJobName := Some "k3x9q";
     job_error := None;
     job_referenceName := Some "a.mp4";
     job_distortedName := Some "b.mp4";
     job_createdAt := Some demoIso;
     job_completedAt := Some "2023-11-14T22:20:00.000Z";
     job_description := None |}.

(** A record of a finished job, as a restarted server finds it in storage. *)
Definition storedRecord : JobMetadata :=
  {| md_jobId := Some "job1"; md_status := Some Completed;
     md_referenceKey := Some "a.mp4"; md_distortedKey := Some "b.mp4";
     md_referenceName := Some "a.mp4"; md_distortedName := Some "b.mp4";
     md_resultKey := Some "results/job1.json"; md_bucket := Some "demo";
     md_oscJobName := Some "k3x9q"; md_error := None;
     md_createdAt := Some "2024-01-01T00:00:00.000Z";
     md_completedAt := Some "2024-01-01T00:10:00.000Z";
     md_vmafScore := Some (Json.JNum 91.2); md_description := None |}.

Definition newerRecord : JobMetadata :=
  {| md_jobId := Some "job2"; md_status := Some Running;
     md_referenceKey := Some "a.mp4"; md_distortedKey := Some "c.mp4";
     md_referenceName := Some "a.mp4"; md_distortedName := Some "c.mp4";
     md_resultKey := Some "results/job2.json"; md_bucket := Some "demo";
     md_oscJobName := Some "p7w2m"; md_error := None;
     md_createdAt := Some "2024-02-01T00:00:00.000Z";
     md_completedAt := None; md_vmafScore := None; md_description := None |}.

(** After a restart: nothing in the registry, one record in storage. *)
Definition restartedWorld : World :=
  mkWorld demoConfig ∅
          {[ ("demo", "jobs/job1.json") := Doc (metadataToJson storedRecord) ]}
          [] [].

(** A bucket with two records and one object that does not parse. *)
Definition listingWorld : World :=
  mkWorld demoConfig ∅
          (<[ ("demo", "jobs/job1.json") := Doc (metadataToJson storedRecord) ]>
           (<[ ("demo", "jobs/job2.json") := Doc (metadataToJson newerRecord) ]>
            {[ ("demo", "jobs/job3.json") := Garbage ]}))
          [] [].

Definition demoTime (createdAt : option string) : option Z :=
  match createdAt with
  | Some s =>
      if String.eqb s "2024-01-01T00:00:00.000Z" then Some 1704067200000%Z
      else if String.eqb s "2024-02-01T00:00:00.000Z" then Some 1706745600000%Z
      else None
  | None => None
  end.

(** ** More JavaScript text primitives *)

Module JsText.

(** [s.includes(sub)] *)
Fixpoint includes (s sub : string) : bool :=
  String.prefix sub s
  || match s with
     | EmptyString => false
     | String _ s' => includes s' sub
     end.

(** [parts.join(sep)] *)
Fixpoint join (parts : list string) (sep : string) : string :=
  match parts with
  | [] => EmptyString
  | [p] => p
  | p :: rest => p +:+ sep +:+ join rest sep
  end.

(** [s.replace(/\/$/, '')]: one trailing slash goes. *)
Fixpoint dropTrailingSlash (s : string) : string :=
  match s with
  | EmptyString => EmptyString
  | String a EmptyString => if Ascii.eqb a JsString.slash then EmptyString else s
  | String a s' => String a (dropTrailingSlash s')
  end.

End JsText.

(** ** Regular expressions, anchored at both ends *)

Module JsRegExp.

Inductive pattern : Type :=
| Void
| Eps
| Chars (accepts : ascii -> bool)
| Alt (p q : pattern)
| Then (p q : pattern)
| Many (p : pattern).

Fixpoint nullable (p : pattern) : bool :=
  match p with
  | Void => false
  | Eps => true
  | Chars _ => false
  | Alt p q => nullable p || nullable q
  | Then p q => nullable p && nullable q
  | Many _ => true
  end.

(** What is left of the pattern once [c] has been read. *)
Fixpoint after (c : ascii) (p : pattern) : pattern :=
  match p with
  | Void => Void
  | Eps => Void
  | Chars accepts => if accepts c then Eps else Void
  | Alt p q => Alt (after c p) (after c q)
  | Then p q =>
      if nullable p then Alt (Then (after c p) q) (after c q)
      else Then (after c p) q
  | Many p => Then (after c p) (Many p)
  end.

(** [/^p$/.test(s)] *)
Fixpoint test (p : pattern) (s : string) : bool :=
  match s with
  | EmptyString => nullable p
  | String c s' => test (after c p) s'
  end.

(** The strings a pattern stands for. *)
Inductive lang : pattern -> string -> Prop :=
| lang_eps : lang Eps EmptyString
| lang_chars accepts c : accepts c = true -> lang (Chars accepts) (String c EmptyString)
| lang_alt_l p q s : lang p s -> lang (Alt p q) s
| lang_alt_r p q s : lang q s -> lang (Alt p q) s
| lang_then p q s t : lang p s -> lang q t -> lang (Then p q) (s +:+ t)
| lang_many_nil p : lang (Many p) EmptyString
| lang_many_more p s t : lang p s -> lang (Many p) t -> lang (Many p) (s +:+ t).

Definition between (lo hi c : ascii) : bool :=
  (nat_of_ascii lo <=? nat_of_ascii c)%nat && (nat_of_ascii c <=? nat_of_ascii hi)%nat.

(** [[a-z0-9]] *)
Definition lowerOrDigit (c : ascii) : bool :=
  between "a" "z" c || between "0" "9" c.

(** [[a-z0-9-]] *)
Definition lowerDigitOrHyphen (c : ascii) : bool :=
  lowerOrDigit c || Ascii.eqb c "-".

End JsRegExp.

(** ** Buckets, files and folders *)

(** An error of the gateway as a [catch] block reads it. *)
Record S3Failure : Type := mkS3Failure {
  err_name : string;
  err_message : string
}.

(** What a call answers if it is sent. *)
Inductive Answer (A : Type) : Type :=
| Served (a : A)
| Faulted (e : S3Failure).
Arguments Served {A} a.
Arguments Faulted {A} e.

Definition noBucket : S3Failure :=
  mkS3Failure "Error" "No value provided for input HTTP label: Bucket.".

(** [s3Client.send(command)] for a command on a bucket: without a bucket
    name the client fails before anything is sent. *)
Definition send {A} (bucket : option string) (answer : Answer A) : Answer A :=
  match bucket with
  | Some _ => answer
  | None => Faulted noBucket
  end.

(** [await] of a call whose error is only passed on. *)
Definition await {A} (answer : Answer A) : M A :=
  match answer with
  | Served a => mret a
  | Faulted e => throw (err_message e)
  end.

(** [console.warn]: not part of the recorded [console.error] lines. *)
Definition consoleWarn (line : string) : M unit := mret tt.

Record FolderItem : Type := mkFolderItem {
  folder_key : string;
  folder_name : string
}.

Record FileItem : Type := mkFileItem {
  file_key : string;
  file_name : option string;
  file_size : option N;
  file_lastModified : option string
}.

Inductive StorageBody : Type :=
(** [{ error }] *)
| StorageError (error : string)
(** [{ url, key }] *)
| UploadUrlJson (url key : string)
(** [{ buckets }] *)
| BucketsJson (buckets : list string)
(** [{ success: true, bucket }] *)
| BucketCreatedJson (bucket : string)
(** [{ success: true, message }] *)
| CorsJson (message : string)
(** [{ folders, files }] *)
| FilesJson (folders : list FolderItem) (files : list FileItem)
(** [{ success: true, folder }] *)
| FolderCreatedJson (folder : string)
(** [{ success: true }] *)
| DoneJson.

Record StorageResponse : Type := mkStorageResponse {
  sres_status : Z;
  sres_body : StorageBody
}.

Definition storageJson (body : StorageBody) : StorageResponse :=
  mkStorageResponse 200 body.

Definition storageError (status : Z) (error : string) : StorageResponse :=
  mkStorageResponse status (StorageError error).

(** [ensureBucketExists]; [head] is what [HeadBucketCommand] answers. *)
Definition ensureBucketExists (head : Answer unit) (bucket : option string) : M unit :=
  match send bucket head with
  | Served _ => mret tt
  | Faulted err =>
      if String.eqb (err_name err) "NotFound" || String.eqb (err_name err) "NoSuchBucket"
      then throw ("Bucket '" +:+ JsString.template bucket
                  +:+ "' does not exist. Please create it first.")
      else throw (err_message err)
  end.

(** [app.post('/api/upload-url')]; [nowMs] is [Date.now()] and [signed] is
    what [getSignedUrl] answers. *)
Definition uploadUrlHandler (filename contentType folder bucket : option string)
    (nowMs : N) (head : Answer unit) (signed : Answer string) : M StorageResponse :=
  tryCatch
    (config ← getConfig;
     let targetBucket := JsString.orElse bucket (cfg_bucket config) in
     ensureBucketExists head targetBucket;;
     let key :=
       if JsString.truthyOpt folder
       then JsString.template folder +:+ "/" +:+ JsString.template filename
       else pretty nowMs +:+ "-" +:+ JsString.template filename in
     url ← await signed;
     mret (storageJson (UploadUrlJson url key)))
    (fun _ =>
       consoleError "Error generating upload URL:";;
       mret (storageError 500 "Failed to generate upload URL")).

(** [config.region || 'us-east-1'] *)
Definition regionOrDefault (config : S3Config) : string :=
  JsString.template (JsString.orElse (cfg_region config) (Some "us-east-1")).

(** [response.Buckets?.map(b => b.Name!).filter(Boolean) || []] *)
Definition bucketNames (buckets : option (list (option string))) : list string :=
  match buckets with
  | Some buckets =>
      omap (fun name => if JsString.truthyOpt name then name else None) buckets
  | None => []
  end.

(** [app.get('/api/buckets')]; [head] and [listed] are what
    [HeadBucketCommand] and [ListBucketsCommand] answer. *)
Definition bucketsHandler (head : Answer unit)
    (listed : Answer (option (list (option string)))) : M StorageResponse :=
  tryCatch
    (config ← getConfig;
     if negb (JsString.truthy (cfg_accessKey config))
        || negb (JsString.truthy (cfg_secretKey config))
     then mret (storageJson (BucketsJson []))
     else if String.eqb (cfg_storageType config) "aws"
             && JsString.truthyOpt (cfg_bucket config)
     then
       match send (cfg_bucket config) head with
       | Served _ =>
           mret (storageJson (BucketsJson [JsString.template (cfg_bucket config)]))
       | Faulted _ =>
           consoleError ("Configured AWS S3 bucket '"
                         +:+ JsString.template (cfg_bucket config)
                         +:+ "' in region '" +:+ regionOrDefault config
                         +:+ "' does not exist or is not accessible:");;
           mret (storageError 400
                   ("Configured bucket '" +:+ JsString.template (cfg_bucket config)
                    +:+ "' is not accessible in region '" +:+ regionOrDefault config
                    +:+ "'"))
       end
     else
       response ← await listed;
       mret (storageJson (BucketsJson (bucketNames response))))
    (fun _ =>
       consoleError "Error listing buckets:";;
       mret (storageError 500 "Failed to list buckets")).

(** [/^[a-z0-9][a-z0-9-]*[a-z0-9]$/] *)
Definition bucketNamePattern : JsRegExp.pattern :=
  JsRegExp.Then (JsRegExp.Chars JsRegExp.lowerOrDigit)
    (JsRegExp.Then (JsRegExp.Many (JsRegExp.Chars JsRegExp.lowerDigitOrHyphen))
                   (JsRegExp.Chars JsRegExp.lowerOrDigit)).

Definition awsWithBucket (config : S3Config) : bool :=
  String.eqb (cfg_storageType config) "aws" && JsString.truthyOpt (cfg_bucket config).

(** [app.post('/api/buckets')]; [created] and [cors] are what
    [CreateBucketCommand] and [PutBucketCorsCommand] answer. The one
    statement of the outer [try] that throws is the [CreateBucketCommand];
    the [catch] reads the name of its error. *)
Definition createBucketHandler (bucketName : option string)
    (created cors : Answer unit) : M StorageResponse :=
  config ← getConfig;
  if awsWithBucket config then
    mret (storageError 400
            "Cannot create buckets when using AWS S3 with a configured bucket. Please use the configured bucket or update your settings.")
  else if negb (JsString.truthyOpt bucketName)
          || negb (JsRegExp.test bucketNamePattern (JsString.template bucketName))
  then
    mret (storageError 400
            "Invalid bucket name. Must contain only lowercase letters, numbers, and hyphens.")
  else
    match send bucketName created with
    | Faulted error =>
        consoleError "Error creating bucket:";;
        if String.eqb (err_name error) "BucketAlreadyExists"
           || String.eqb (err_name error) "BucketAlreadyOwnedByYou"
        then mret (storageError 409 "Bucket already exists")
        else mret (storageError 500 "Failed to create bucket")
    | Served _ =>
        match send bucketName cors with
        | Served _ => mret tt
        | Faulted _ =>
            consoleWarn ("Failed to set CORS on bucket "
                         +:+ JsString.template bucketName +:+ ":")
        end;;
        mret (storageJson (BucketCreatedJson (JsString.template bucketName)))
    end.

(** [app.post('/api/buckets/:bucketName/cors')] *)
Definition corsHandler (bucketName : string) (cors : Answer unit) : M StorageResponse :=
  tryCatch
    (await (send (Some bucketName) cors);;
     mret (storageJson (CorsJson ("CORS configured for " +:+ bucketName))))
    (fun _ =>
       consoleError "Error setting CORS:";;
       mret (storageError 500 "Failed to set CORS configuration")).

(** One entry of [response.Contents]. *)
Record ObjectInfo : Type := mkObjectInfo {
  obj_Key : option string;
  obj_Size : option N;
  obj_LastModified : option string
}.

(** The reply to a [ListObjectsV2Command] with a delimiter. *)
Record Listing : Type := mkListing {
  CommonPrefixes : option (list (option string));
  Contents : option (list ObjectInfo)
}.

(** [folder ? `${folder}/` : ''] *)
Definition folderPrefix (folder : string) : string :=
  if JsString.truthy folder then folder +:+ "/" else "".

(** The callback of [response.CommonPrefixes?.map]. *)
Definition folderItem (folder : string) (commonPrefix : option string) : Exn FolderItem :=
  match commonPrefix with
  | Some p =>
      Ok (mkFolderItem p
            (JsString.replace (JsString.replace p (folderPrefix folder) "") "/" ""))
  | None => Throw "TypeError: Cannot read properties of undefined (reading 'replace')"
  end.

(** The callback of [response.Contents?.filter(...).map]. *)
Definition fileItem (obj : ObjectInfo) : Exn FileItem :=
  match obj_Key obj with
  | Some key =>
      Ok (mkFileItem key (JsString.pop (JsString.split key JsString.slash))
            (obj_Size obj) (obj_LastModified obj))
  | None => Throw "TypeError: Cannot read properties of undefined (reading 'split')"
  end.

(** [app.get('/api/files')]; [head] and [listed] are what
    [HeadBucketCommand] and [ListObjectsV2Command] answer. *)
Definition filesHandler (queryFolder queryBucket : option string)
    (head : Answer unit) (listed : Answer Listing) : M StorageResponse :=
  tryCatch
    (config ← getConfig;
     let folder := JsString.template (JsString.orElse queryFolder (Some "")) in
     let bucket := JsString.orElse queryBucket (cfg_bucket config) in
     let prefix := folderPrefix folder in
     ensureBucketExists head bucket;;
     response ← await (send bucket listed);
     folders ← liftExn (mapM (folderItem folder)
                          (default [] (CommonPrefixes response)));
     files ← liftExn (mapM fileItem
                        (List.filter (fun obj => negb (bool_decide (obj_Key obj = Some prefix)))
                           (default [] (Contents response))));
     mret (storageJson (FilesJson folders files)))
    (fun _ =>
       consoleError "Error listing files:";;
       mret (storageError 500 "Failed to list files")).

(** [parentFolder ? `${parentFolder}/${folderName}` : folderName] *)
Definition folderPath (parentFolder folderName : option string) : string :=
  if JsString.truthyOpt parentFolder
  then JsString.template parentFolder +:+ "/" +:+ JsString.template folderName
  else JsString.template folderName.

(** [app.post('/api/folders')]: the folder is an empty [.keep] object. *)
Definition createFolderHandler (f : Faults) (folderName parentFolder bucket : option string)
    (head : Answer unit) : M StorageResponse :=
  tryCatch
    (config ← getConfig;
     let targetBucket := JsString.orElse bucket (cfg_bucket config) in
     if negb (JsString.truthyOpt folderName)
        || JsText.includes (JsString.template folderName) "/"
     then mret (storageError 400 "Invalid folder name")
     else
       ensureBucketExists head targetBucket;;
       let folderPath := folderPath parentFolder folderName in
       putObject f targetBucket (folderPath +:+ "/.keep") Garbage;;
       mret (storageJson (FolderCreatedJson folderPath)))
    (fun _ =>
       consoleError "Error creating folder:";;
       mret (storageError 500 "Failed to create folder")).

(** The default page size of [ListObjectsV2Command]. *)
Definition maxKeys : nat := 1000.

(** One [ListObjectsV2Command] without a delimiter: the first page of the
    keys under the prefix. *)
Definition listObjectsPage (f : Faults) (bucket : option string) (prefix : string)
    : M (option (list string)) :=
  b ← served f (ListObjectsV2Command bucket prefix) bucket;
  ((fun w => match take maxKeys (keysUnder b prefix (s3 w)) with
             | [] => (Ok None, w)
             | keys => (Ok (Some keys), w)
             end) : M (option (list string))).

(** What a [DeleteObjectsCommand] that is served leaves of the store: the
    gateway removes the keys it does not report under [Errors]. *)
Definition withoutKeys (rejected : string -> bool) (b : string) (keys : list string)
    (objects : gmap (string * string) Body) : gmap (string * string) Body :=
  foldr (fun k objs => if rejected k then objs else delete (b, k) objs) objects keys.

(** One [DeleteObjectsCommand]. *)
Definition deleteObjects (fault : option string) (rejected : string -> bool)
    (bucket : option string) (keys : list string) : M unit :=
  settle fault
    (match bucket with
     | Some b => fun w => (Ok tt, set_s3 (withoutKeys rejected b keys (s3 w)) w)
     | None => throw (err_message noBucket)
     end).

Section FileRoutes.

(** [decodeURIComponent]: a [URIError] on a malformed escape. *)
Variable decodeURIComponent : string -> Exn string.

(** [app.delete(/^\/api\/files\/(.+)$/)]; [param] is [req.params[0]]. *)
Definition deleteFileHandler (f : Faults) (param : string) : M StorageResponse :=
  tryCatch
    (config ← getConfig;
     key ← liftExn (decodeURIComponent param);
     deleteObject f (cfg_bucket config) key;;
     mret (storageJson DoneJson))
    (fun _ =>
       consoleError "Error deleting file:";;
       mret (storageError 500 "Failed to delete file")).

(** [app.delete(/^\/api\/folders\/(.+)$/)]; [fault] and [rejected] are how
    the gateway takes the [DeleteObjectsCommand]. *)
Definition deleteFolderHandler (f : Faults) (fault : option string)
    (rejected : string -> bool) (param : string) : M StorageResponse :=
  tryCatch
    (config ← getConfig;
     folder ← liftExn (decodeURIComponent param);
     contents ← listObjectsPage f (cfg_bucket config) (folder +:+ "/");
     match contents with
     | None | Some [] => mret (storageJson DoneJson)
     | Some keys =>
         deleteObjects fault rejected (cfg_bucket config) keys;;
         mret (storageJson DoneJson)
     end)
    (fun _ =>
       consoleError "Error deleting folder:";;
       mret (storageError 500 "Failed to delete folder")).

End FileRoutes.

(** *** Vocabulary: buckets, files and folders *)

(** A lowercase letter or digit, then lowercase letters, digits and hyphens,
    then a lowercase letter or digit: at least two characters. *)
Definition wellFormedBucketName (s : string) : Prop :=
  exists first middle last,
    s = String first (middle +:+ String last EmptyString)
    /\ JsRegExp.lowerOrDigit first = true
    /\ JsRegExp.lowerOrDigit last = true
    /\ Forall (fun c => JsRegExp.lowerDigitOrHyphen c = true) (String.list_ascii_of_string middle).

Definition alreadyExists (e : S3Failure) : bool :=
  String.eqb (err_name e) "BucketAlreadyExists"
  || String.eqb (err_name e) "BucketAlreadyOwnedByYou".

(** Both storage credentials are set. *)
Definition hasCredentials (config : S3Config) : bool :=
  JsString.truthy (cfg_accessKey config) && JsString.truthy (cfg_secretKey config).

Definition bucketRefused : string :=
  "Cannot create buckets when using AWS S3 with a configured bucket. Please use the configured bucket or update your settings.".

Definition invalidBucketName : string :=
  "Invalid bucket name. Must contain only lowercase letters, numbers, and hyphens.".

(** The name of a listed file is what follows the last slash of its key. *)
Definition namedAfterLastSlash (file : FileItem) : Prop :=
  exists base,
    file_name file = Some base
    /\ file_key file = prefixThroughLastSlash (file_key file) +:+ base
    /\ hasSlash base = false.

(** The reply of the gateway to a listing under [prefix] with delimiter
    [/]: one common prefix per name, and the objects. *)
Definition listingOf (prefix : string) (names : list string) (objs : list ObjectInfo)
    : Listing :=
  mkListing (Some (List.map (fun n => Some (prefix +:+ n +:+ "/")) names)) (Some objs).

(** ** The client *)

(** *** [Settings.tsx]: the settings form *)

Definition with_view_bucket (bucket : option string) (v : ConfigView) : ConfigView :=
  mkConfigView (view_storageType v) (view_endpoint v) (view_region v) bucket
               (view_accessKey v) (view_secretKey v) (view_oscToken v).

Definition with_view_endpoint (endpoint : option string) (v : ConfigView) : ConfigView :=
  mkConfigView (view_storageType v) endpoint (view_region v) (view_bucket v)
               (view_accessKey v) (view_secretKey v) (view_oscToken v).

(** The effect that runs when the modal opens: the form state becomes the
    answer of [GET /api/config], with [s3://] put before an AWS bucket name
    that lacks it. *)
Definition settingsOpened (data : ConfigView) : ConfigView :=
  if String.eqb (view_storageType data) "aws"
     && JsString.truthyOpt (view_bucket data)
     && negb (JsString.startsWith (JsString.template (view_bucket data)) "s3://")
  then with_view_bucket (Some ("s3://" +:+ JsString.template (view_bucket data))) data
  else data.

Inductive FormField : Type :=
| FieldStorageType | FieldEndpoint | FieldRegion | FieldBucket
| FieldAccessKey | FieldSecretKey | FieldOscToken.

(** [handleChange]: [{ ...prev, [field]: value }] *)
Definition handleChange (field : FormField) (value : string) (prev : ConfigView)
    : ConfigView :=
  match field with
  | FieldStorageType =>
      mkConfigView value (view_endpoint prev) (view_region prev) (view_bucket prev)
                   (view_accessKey prev) (view_secretKey prev) (view_oscToken prev)
  | FieldEndpoint => with_view_endpoint (Some value) prev
  | FieldRegion =>
      mkConfigView (view_storageType prev) (view_endpoint prev) (Some value)
                   (view_bucket prev) (view_accessKey prev) (view_secretKey prev)
                   (view_oscToken prev)
  | FieldBucket => with_view_bucket (Some value) prev
  | FieldAccessKey =>
      mkConfigView (view_storageType prev) (view_endpoint prev) (view_region prev)
                   (view_bucket prev) value (view_secretKey prev) (view_oscToken prev)
  | FieldSecretKey =>
      mkConfigView (view_storageType prev) (view_endpoint prev) (view_region prev)
                   (view_bucket prev) (view_accessKey prev) value (view_oscToken prev)
  | FieldOscToken =>
      mkConfigView (view_storageType prev) (view_endpoint prev) (view_region prev)
                   (view_bucket prev) (view_accessKey prev) (view_secretKey prev) value
  end.

(** [handleSubmit], up to the request: the copy of the form state that is
    posted. *)
Definition submitData (formData : ConfigView) : ConfigView :=
  let submitData := formData in
  let submitData :=
    if String.eqb (view_storageType submitData) "s3-compatible"
    then with_view_bucket (Some "") submitData
    else if String.eqb (view_storageType submitData) "aws"
    then with_view_endpoint (Some "") submitData
    else submitData in
  if JsString.truthyOpt (view_bucket submitData) then
    let bucket := JsString.template (view_bucket submitData) in
    let bucket := if JsString.startsWith bucket "s3://"
                  then JsString.substringFrom bucket 5 else bucket in
    let bucket := JsString.stripTrailingSlashes bucket in
    with_view_bucket (Some bucket) submitData
  else submitData.

(** Opening the settings and submitting them, the form edited by [edit] in
    between: what the server configuration becomes once [handleSubmit] runs
    (the browser runs it when the [required] inputs hold some text). *)
Definition saveSettings (edit : ConfigView -> ConfigView) (serverConfig : S3Config)
    : S3Config :=
  let formData := edit (settingsOpened (getConfigHandler serverConfig)) in
  postConfigHandler (postBack (submitData formData)) serverConfig.

(** *** [App.tsx]: is the backend configured? *)

(** [checkConfiguration], on the answer of [GET /api/config]. *)
Definition checkConfiguration (config : ConfigView) : bool :=
  if String.eqb (view_storageType config) "aws" then
    JsString.truthyOpt (view_bucket config) && JsString.truthyOpt (view_region config)
    && JsString.truthy (view_accessKey config) && JsString.truthy (view_secretKey config)
    && JsString.truthy (view_oscToken config)
  else
    JsString.truthyOpt (view_endpoint config)
    && JsString.truthy (view_accessKey config) && JsString.truthy (view_secretKey config)
    && JsString.truthy (view_oscToken config).

(** *** [VmafScoreCircle.tsx] *)

Module VmafScoreCircle.

(** A score is a finite number; the subtractions below are exact on the
    doubles for which their result is kept. *)
Definition getColor (score : Q) : string :=
  if Qle_bool 95 score then "#4ade80"
  else if Qle_bool 70 score then "#facc15"
  else if Qle_bool 55 score then "#fb923c"
  else "#f87171".

(** How much of each zone is lit, in hundredths of the circumference. *)
Definition redFilled (score : Q) : Q := Qmin score 55.
Definition orangeFilled (score : Q) : Q := Qmax 0 (Qmin (score - 55) 15).
Definition yellowFilled (score : Q) : Q := Qmax 0 (Qmin (score - 70) 25).
Definition greenFilled (score : Q) : Q := Qmax 0 (Qmin (score - 95) 5).

(** [filled > 0 && <circle ... />] *)
Definition drawn (filled : Q) : bool := negb (Qle_bool filled 0).

End VmafScoreCircle.

(** *** [FileList.tsx]: moving between folders *)

(** [navigateUp]: the folder the Back button goes to. *)
Definition navigateUp (currentFolder : string) : string :=
  let parts := JsString.split currentFolder JsString.slash in
  let parts := removelast parts in
  JsText.join parts "/".

(** The folder a click on a listed folder goes to:
    [folder.key.replace(/\/$/, '')]. *)
Definition enterFolder (folder : FolderItem) : string :=
  JsText.dropTrailingSlash (folder_key folder).

(** *** Vocabulary: the client *)

(** A bucket name as [POST /api/config] stores it: cleaning it changes
    nothing. *)
Definition cleanName (bucket : option string) : Prop :=
  forall b, bucket = Some b -> cleanBucket b = b.

(** A configuration as the environment of a deployment may set it: the
    compatible storage with a bucket named. *)
Definition deployedConfig : S3Config :=
  mkS3Config "s3-compatible" (Some "https://minio.example") "AKIA" "s3cr3t"
             (Some "vmaf-files") (Some "eu-north-1") "pat".

(** *** Vocabulary: jobs and results *)

(** The folder of a job's results: [results/] under the folder of the
    request. *)
Definition resultsFolder (folder : option string) : string :=
  if JsString.truthyOpt folder then JsString.template folder +:+ "/results/"
  else "results/".

(** The pooled metrics of a report, when they are an object. *)
Definition pooledOf (vmafData : Json.value) : option Json.value :=
  Json.optProp "pooled_metrics" (Some vmafData).

(** The mean of a pooled metric of a report. *)
Definition pooledMean (metric : string) (vmafData : Json.value) : option Json.value :=
  Json.optProp "mean" (Json.optProp metric (pooledOf vmafData)).


(** The frames of a report, when it has an array of them. *)
Definition framesOf (vmafData : Json.value) : list Json.value :=
  match Json.optProp "frames" (Some vmafData) with
  | Some (Json.JArr items) => items
  | _ => []
  end.

(** After a restart, with the report of the finished job in storage. *)
Definition restartedWithReport : World :=
  set_s3 (<[("demo", "results/k3x9q.json") := Doc demoReport]> (s3 restartedWorld))
         restartedWorld.

(** What the results handlers answer for a job that the registry does not
    hold, from the record [loadJobMetadata] gives for it. *)
Definition resultsFromRecord (f : Faults) (jobId : string) (w : World)
    (record : option JobMetadata) : Response :=
  match record with
  | None => notFound
  | Some m =>
      if bool_decide (md_status m = Some Completed) then
        match md_resultKey m with
        | None => unavailable jobId
        | Some resultKey =>
            match fst (getObject f (md_bucket m)
                         (specRawResultKey resultKey (JsString.template (md_oscJobName m)))
                         w) with
            | Ok (Doc vmafData) =>
                match parseResults vmafData with
                | Ok parsed => json (ResultsJson jobId parsed)
                | Throw _ => unavailable jobId
                end
            | _ => unavailable jobId
            end
        end
      else json (StatusJson jobId (md_status m) None)
  end.

Definition rawFromRecord (f : Faults) (w : World) (record : option JobMetadata)
    : Response :=
  match record with
  | None => notFound
  | Some m =>
      if bool_decide (md_status m = Some Completed) then
        match md_resultKey m with
        | None => rawFailed
        | Some resultKey =>
            match fst (getObject f (md_bucket m)
                         (specRawResultKey resultKey (JsString.template (md_oscJobName m)))
                         w) with
            | Ok body =>
                json (RawSend ("vmaf-" +:+ JsString.template (md_oscJobName m) +:+ ".json")
                              body)
            | Throw _ => rawFailed
            end
        end
      else mkResponse 400 (ErrorJson "Job not completed" None)
  end.

(** *** [FileList.tsx] and [App.tsx]: deleting a listed folder *)

(** [handleDelete] on a folder of the list, then [handleDeleteFolder]: the
    key that goes, encoded, into the path of the [DELETE /api/folders]
    request. *)
Definition deleteFolderKey (folder : FolderItem) : string := folder_key folder.

(** A bucket with a clip in a folder and the marker of the folder. *)
Definition clipsWorld : World :=
  set_s3 (<[("vmaf-files", "clips/raw/a.mp4") := Garbage]>
            (<[("vmaf-files", "clips/raw/.keep") := Garbage]> ∅))
         (emptyWorld deployedConfig).

(** * Properties *)

Ltac unfold_M :=
  unfold mbind, M_bind, mret, M_ret, tryCatch, throw, liftExn, consoleError,
         jobs_get, jobs_set, jobs_delete, getConfig in *.

(** Runs a turn of the task on a state given by its fields. *)
Ltac exec :=
  cbv beta iota zeta delta
    [run step handlerTurn taskBody catchBlock settle saveJobMetadata putObject
     getObject served noFaults mbind M_bind mret M_ret tryCatch throw liftExn
     consoleError jobs_get jobs_set jobs_delete getConfig fst snd t_pc t_env
     from_option registryStatus set_jobs set_s3 set_console set_statusLog
     jobs s3 console statusLog serverConfig].

(** ** The key of the raw result document *)

Lemma prefixThroughLastSlash_none (s : string) :
  hasSlash s = false -> prefixThroughLastSlash s = EmptyString.
Proof. destruct s as [|a s]; simpl; [done|]. by intros ->. Qed.

Lemma substring_zero (s : string) : String.substring 0 0 s = EmptyString.
Proof. by destruct s. Qed.

Lemma hasSlash_app (p q : string) : hasSlash (p +:+ q) = hasSlash p || hasSlash q.
Proof.
  induction p as [|a p IH]; simpl; [done|]. by rewrite IH, orb_assoc.
Qed.


(** The scan of [lastIndexOf]: with a slash in [s] it ends on the index of
    the last one, and the characters up to it are the prefix of the
    specification; without one it keeps what it started with. *)
Lemma lastIndexOfFrom_spec (s : string) : forall i acc : Z,
  let r := JsString.lastIndexOfFrom JsString.slash s i acc in
  if hasSlash s
  then (i <= r < i + Z.of_nat (String.length s))%Z
       /\ String.substring 0 (Z.to_nat (r - i + 1)) s = prefixThroughLastSlash s
  else r = acc.
Proof.
  induction s as [|a s IH]; intros i acc; simpl; [done|].
  specialize (IH (i + 1)%Z (if Ascii.eqb a JsString.slash then i else acc)).
  simpl in IH.
  destruct (hasSlash s) eqn:Hs.
  - rewrite orb_true_r. destruct IH as [Hr Hsub]. split; [lia|].
    set (r := JsString.lastIndexOfFrom _ _ _ _) in *.
    replace (Z.to_nat (r - i + 1)) with (S (Z.to_nat (r - (i + 1) + 1))) by lia.
    simpl. by rewrite Hsub.
  - rewrite orb_false_r. rewrite IH.
    destruct (Ascii.eqb a JsString.slash) eqn:Ha; simpl; [|done].
    split; [lia|]. replace (i - i + 1)%Z with 1%Z by lia. simpl.
    rewrite substring_zero. by rewrite prefixThroughLastSlash_none.
Qed.

Lemma folder_is_prefix (s : string) :
  JsString.substring s 0 (JsString.lastIndexOf s JsString.slash + 1)
  = prefixThroughLastSlash s.
Proof.
  unfold JsString.substring, JsString.lastIndexOf, JsString.clamp.
  pose proof (lastIndexOfFrom_spec s 0 (-1)) as H. simpl in H.
  set (r := JsString.lastIndexOfFrom _ _ _ _) in *.
  destruct (hasSlash s) eqn:Hs.
  - destruct H as [Hr Hsub]. rewrite <- Hsub. f_equal; lia.
  - rewrite H. rewrite prefixThroughLastSlash_none by done.
    replace (Z.to_nat _) with 0%nat by lia.
    replace (Z.to_nat _) with 0%nat by lia. apply substring_zero.
Qed.

Example resultFileKey_nested :
  resultFileKey_poll "uploads/results/job17.json" (Some "k3x9q")
  = "uploads/results/k3x9q.json".
Proof. reflexivity. Qed.

Example resultFileKey_flat :
  resultFileKey_raw "job17.json" (Some "k3x9q") = "k3x9q.json".
Proof. reflexivity. Qed.

Lemma resultFileKey_poll_spec (resultKey : string) (oscJobName : option string) :
  resultFileKey_poll resultKey oscJobName
  = specRawResultKey resultKey (JsString.template oscJobName).
Proof.
  unfold resultFileKey_poll, specRawResultKey. cbv zeta. by rewrite folder_is_prefix.
Qed.

Lemma resultFileKey_results_spec (resultKey : string) (oscJobName : option string) :
  resultFileKey_results resultKey oscJobName
  = specRawResultKey resultKey (JsString.template oscJobName).
Proof.
  unfold resultFileKey_results, specRawResultKey. cbv zeta. by rewrite folder_is_prefix.
Qed.

Lemma resultFileKey_raw_spec (resultKey : string) (oscJobName : option string) :
  resultFileKey_raw resultKey oscJobName
  = specRawResultKey resultKey (JsString.template oscJobName).
Proof.
  unfold resultFileKey_raw, specRawResultKey. cbv zeta. by rewrite folder_is_prefix.
Qed.

Lemma resultFileKey_delete_spec (resultKey : string) (oscJobName : option string) :
  resultFileKey_delete resultKey oscJobName
  = specRawResultKey resultKey (JsString.template oscJobName).
Proof.
  unfold resultFileKey_delete, specRawResultKey. cbv zeta. by rewrite folder_is_prefix.
Qed.

(** The parsed-results endpoint answers from the object at the raw result
    key of a completed job. *)
Lemma resultsHandler_reads_raw_key (f : Faults) (jobId : string)
    (queryBucket : option string) (w : World) (job : JobEntry) (resultKey : string) :
  completedInRegistry jobId w job resultKey ->
  fst (resultsHandler f jobId queryBucket w)
  = match fst (getObject f (job_bucket job)
                 (specRawResultKey resultKey (JsString.template (job_oscJobName job)))
                 w) with
    | Ok (Doc vmafData) =>
        match parseResults vmafData with
        | Ok parsed => Ok (json (ResultsJson jobId parsed))
        | Throw _ => Ok (unavailable jobId)
        end
    | _ => Ok (unavailable jobId)
    end.
Proof.
  intros (Hjob & Hstatus & Hconfig & Hkey).
  rewrite <- resultFileKey_results_spec.
  unfold resultsHandler, gatherFacts, createS3Client, required, bodyJson. unfold_M.
  rewrite Hjob. cbn [fst snd fact_status fact_config fact_resultKey fact_bucket
                     fact_oscJobName].
  rewrite Hstatus, Hconfig, Hkey, bool_decide_eq_true_2 by done. cbn [negb].
  destruct (getObject f (job_bucket job) _ w) as [[[v|]|e] w']; cbn [fst snd]; try done.
  destruct (parseResults v); done.
Qed.

(** The raw-download endpoint sends the object at the raw result key of a
    completed job. *)
Lemma rawResultsHandler_reads_raw_key (f : Faults) (jobId : string)
    (queryBucket : option string) (w : World) (job : JobEntry) (resultKey : string) :
  completedInRegistry jobId w job resultKey ->
  fst (rawResultsHandler f jobId queryBucket w)
  = match fst (getObject f (job_bucket job)
                 (specRawResultKey resultKey (JsString.template (job_oscJobName job)))
                 w) with
    | Ok body =>
        Ok (json (RawSend ("vmaf-" +:+ JsString.template (job_oscJobName job)
                           +:+ ".json") body))
    | Throw _ => Ok rawFailed
    end.
Proof.
  intros (Hjob & Hstatus & Hconfig & Hkey).
  rewrite <- resultFileKey_raw_spec.
  unfold rawResultsHandler, gatherFacts, createS3Client, required. unfold_M.
  rewrite Hjob. cbn [fst snd fact_status fact_config fact_resultKey fact_bucket
                     fact_oscJobName].
  rewrite Hstatus, Hconfig, Hkey, bool_decide_eq_true_2 by done. cbn [negb].
  destruct (getObject f (job_bucket job) _ w) as [[body|e] w']; done.
Qed.

Lemma isSuccess_not_running (status : string) :
  isSuccess status = true -> String.eqb status "Running" = false.
Proof.
  unfold isSuccess. intros H.
  apply orb_true_iff in H as [H|H]; [apply orb_true_iff in H as [H|H]|];
    apply String.eqb_eq in H; by subst.
Qed.

(** On a success status the polling task goes for the object at the raw
    result key of the job. *)
Lemma poll_reads_raw_key (env : Closure) (jobName status now : string) (w : World)
    (job : JobEntry) (resultKey : string) :
  jobs w !! cl_jobId env = Some job ->
  job_resultKey job = Some resultKey ->
  isSuccess status = true ->
  fst (step (mkTask env (PcGetJob jobName)) (RGetJob (Ok status) now) w)
  = Ok (mkTask env
          (PcScoreGet job now
             (specRawResultKey resultKey (JsString.template (job_oscJobName job)))),
        None).
Proof.
  intros Hjob Hkey Hok. destruct w as [cfg js objs con log]. cbn [jobs] in Hjob.
  rewrite <- resultFileKey_poll_spec.
  exec. rewrite (isSuccess_not_running _ Hok). exec. rewrite Hok. exec.
  rewrite Hjob. exec. rewrite Hkey. reflexivity.
Qed.

(** C6. The key of the raw result document is a function of the job's
    [resultKey] and external job name alone: the prefix of [resultKey] up to
    and including its last ['/'], then the name, then [.json]. The polling
    task, the parsed-results endpoint, the raw-download endpoint (and the
    delete endpoint) all compute this key, and it is the object at this key
    that the polling task fetches for the score and that the two results
    endpoints read for a completed job. A missing name is rendered as
    [undefined] by every one of them. *)
Theorem C6_raw_result_key_is_one_function (resultKey : string) (job : JobEntry)
    (f : Faults) (jobId : string) (queryBucket : option string) (w : World)
    (env : Closure) (jobName status now : string) :
  let oscJobName := job_oscJobName job in
  let key := specRawResultKey resultKey (JsString.template oscJobName) in
  (resultFileKey_poll resultKey oscJobName = key
   /\ resultFileKey_results resultKey oscJobName = key
   /\ resultFileKey_raw resultKey oscJobName = key
   /\ resultFileKey_delete resultKey oscJobName = key)
  /\ (jobs w !! cl_jobId env = Some job ->
      job_resultKey job = Some resultKey ->
      isSuccess status = true ->
      fst (step (mkTask env (PcGetJob jobName)) (RGetJob (Ok status) now) w)
      = Ok (mkTask env (PcScoreGet job now key), None))
  /\ (completedInRegistry jobId w job resultKey ->
      fst (resultsHandler f jobId queryBucket w)
      = match fst (getObject f (job_bucket job) key w) with
        | Ok (Doc vmafData) =>
            match parseResults vmafData with
            | Ok parsed => Ok (json (ResultsJson jobId parsed))
            | Throw _ => Ok (unavailable jobId)
            end
        | _ => Ok (unavailable jobId)
        end)
  /\ (completedInRegistry jobId w job resultKey ->
      fst (rawResultsHandler f jobId queryBucket w)
      = match fst (getObject f (job_bucket job) key w) with
        | Ok body =>
            Ok (json (RawSend ("vmaf-" +:+ JsString.template oscJobName +:+ ".json")
                              body))
        | Throw _ => Ok rawFailed
        end).
Proof.
  intros oscJobName key. subst oscJobName key.
  split; [|split; [|split]].
  - split; [apply resultFileKey_poll_spec|].
    split; [apply resultFileKey_results_spec|].
    split; [apply resultFileKey_raw_spec|apply resultFileKey_delete_spec].
  - apply poll_reads_raw_key.
  - apply resultsHandler_reads_raw_key.
  - apply rawResultsHandler_reads_raw_key.
Qed.

(** The demo job, completed with its report in place: both results
    endpoints serve the report stored beside the result key under the
    external job name. *)
Lemma C6_witness :
  fst (resultsHandler noFaults demoJobId None demoCompleted)
  = Ok (json (ResultsJson demoJobId
                {| vmafScore := Json.JNum 91.2;
                   frames := [mkFrameData (Some (Json.JNum 0)) [("vmaf_hd", Json.JNum 90.1)];
                              mkFrameData (Some (Json.JNum 1)) [("vmaf_hd", Json.JNum 92.3)]];
                   vmafMetrics := [("vmaf_hd", pooled 91.2 80 98 90.5)];
                   primaryMetric := Some "vmaf_hd" |}))
  /\ fst (rawResultsHandler noFaults demoJobId None demoCompleted)
     = Ok (json (RawSend "vmaf-k3x9q.json" (Doc demoReport))).
Proof.
  assert (Hjob : completedInRegistry demoJobId demoCompleted demoEntry
                   "results/job1700000000000.json")
    by (repeat split; vm_compute; reflexivity).
  destruct (C6_raw_result_key_is_one_function "results/job1700000000000.json"
              demoEntry noFaults demoJobId None demoCompleted demoEnv
              "k3x9q" "Completed" demoIso)
    as (_ & _ & Hresults & Hraw).
  split.
  - rewrite (Hresults Hjob). vm_compute. reflexivity.
  - rewrite (Hraw Hjob). vm_compute. reflexivity.
Defined.

(** End to end: the job is created, the runner completes it, the score of
    the report lands in the stored record. *)
Example end_to_end_score :
  registryStatus demoJobId demoCompleted = Some Completed
  /\ loadsAs noFaults (Some "demo") demoCompleted demoJobId ≫= md_vmafScore
     = Some (Json.JNum 91.2).
Proof. vm_compute. done. Qed.

(** ** The configuration endpoint *)

Ltac post_cases body :=
  destruct body as [st ep rg bk ak sk tk];
  destruct st, ep, rg, bk, ak, sk, tk;
  unfold postConfigHandler, whenDefined, whenSecret; simpl;
  repeat case_match; reflexivity.

(** What a post does to each stored secret. *)
Lemma postConfigHandler_accessKey (body : ConfigPost) (c : S3Config) :
  cfg_accessKey (postConfigHandler body c)
  = match post_accessKey body with
    | Some v => if String.eqb v mask then cfg_accessKey c else v
    | None => cfg_accessKey c
    end.
Proof. post_cases body. Qed.

Lemma postConfigHandler_secretKey (body : ConfigPost) (c : S3Config) :
  cfg_secretKey (postConfigHandler body c)
  = match post_secretKey body with
    | Some v => if String.eqb v mask then cfg_secretKey c else v
    | None => cfg_secretKey c
    end.
Proof. post_cases body. Qed.

Lemma postConfigHandler_oscToken (body : ConfigPost) (c : S3Config) :
  cfg_oscToken (postConfigHandler body c)
  = match post_oscToken body with
    | Some v => if String.eqb v mask then cfg_oscToken c else v
    | None => cfg_oscToken c
    end.
Proof. post_cases body. Qed.

(** A masked secret posted back is the mask, or the empty secret itself. *)
Lemma masked_posted_back (secret : string) :
  (if String.eqb (masked secret) mask then secret else masked secret) = secret.
Proof. by destruct secret. Qed.

(** C10. The configuration endpoint never discloses a stored secret: two
    configurations that agree on the public fields and on which secrets are
    empty get the same [GET /api/config] response, in which a secret shows
    as ['****'] or as ['']; a [POST /api/config] whose [accessKey],
    [secretKey] or [oscToken] is ['****'] leaves that stored secret as it
    was; and posting back a fetched response leaves all three as they were. *)
Theorem C10_config_endpoint_keeps_secrets (c1 c2 : S3Config) (body : ConfigPost) :
  sameDisclosure c1 c2 ->
  getConfigHandler c1 = getConfigHandler c2
  /\ view_accessKey (getConfigHandler c1)
     = (if String.eqb (cfg_accessKey c1) "" then "" else "****")
  /\ view_secretKey (getConfigHandler c1)
     = (if String.eqb (cfg_secretKey c1) "" then "" else "****")
  /\ view_oscToken (getConfigHandler c1)
     = (if String.eqb (cfg_oscToken c1) "" then "" else "****")
  /\ (post_accessKey body = Some "****" ->
      cfg_accessKey (postConfigHandler body c1) = cfg_accessKey c1)
  /\ (post_secretKey body = Some "****" ->
      cfg_secretKey (postConfigHandler body c1) = cfg_secretKey c1)
  /\ (post_oscToken body = Some "****" ->
      cfg_oscToken (postConfigHandler body c1) = cfg_oscToken c1)
  /\ secretsOf (postConfigHandler (postBack (getConfigHandler c1)) c1) = secretsOf c1.
Proof.
  intros (Hst & Hep & Hrg & Hbk & Hak & Hsk & Htk).
  split; [|split; [|split; [|split; [|split; [|split; [|split]]]]]].
  - unfold getConfigHandler, masked. by rewrite Hst, Hep, Hrg, Hbk, Hak, Hsk, Htk.
  - unfold getConfigHandler, masked, JsString.truthy; simpl.
    by destruct (String.eqb _ _).
  - unfold getConfigHandler, masked, JsString.truthy; simpl.
    by destruct (String.eqb _ _).
  - unfold getConfigHandler, masked, JsString.truthy; simpl.
    by destruct (String.eqb _ _).
  - intros Hm. by rewrite postConfigHandler_accessKey, Hm.
  - intros Hm. by rewrite postConfigHandler_secretKey, Hm.
  - intros Hm. by rewrite postConfigHandler_oscToken, Hm.
  - unfold secretsOf.
    rewrite postConfigHandler_accessKey, postConfigHandler_secretKey,
      postConfigHandler_oscToken.
    cbn [postBack post_accessKey post_secretKey post_oscToken getConfigHandler
         view_accessKey view_secretKey view_oscToken].
    by rewrite !masked_posted_back.
Qed.

Lemma C10_witness :
  sameDisclosure witnessConfig1 witnessConfig2
  /\ getConfigHandler witnessConfig1 = getConfigHandler witnessConfig2
  /\ secretsOf (postConfigHandler witnessPost witnessConfig1) = secretsOf witnessConfig1.
Proof.
  assert (H : sameDisclosure witnessConfig1 witnessConfig2)
    by (repeat split; reflexivity).
  split; [exact H|].
  destruct (C10_config_endpoint_keeps_secrets witnessConfig1 witnessConfig2 witnessPost H)
    as (Hget & _ & _ & _ & Hak & Hsk & Htk & _).
  split; [exact Hget|].
  unfold secretsOf.
  rewrite (Hak eq_refl), (Hsk eq_refl), (Htk eq_refl). reflexivity.
Defined.

(** ** The result parser *)

Example parse_without_metrics :
  parseResults (Json.JObj [("frames", Json.JArr [Json.JObj [("frameNum", Json.JNum 0)]])])
  = Ok (mkParsedResults (Json.JNum 0) [mkFrameData (Some (Json.JNum 0)) []] [] None).
Proof. reflexivity. Qed.



(** ** Job metadata: loading and listing *)

(** [loadJobMetadata] never throws and leaves the process state alone. *)
Lemma loadJobMetadata_run (f : Faults) (bucket : option string) (jobId : string)
    (w : World) :
  loadJobMetadata f bucket jobId w = (Ok (loadsAs f bucket w jobId), w).
Proof.
  unfold loadsAs, loadJobMetadata, getObject, served. unfold_M.
  destruct (f _); simpl; [done|].
  destruct bucket as [b|]; simpl; [|done].
  destruct (s3 w !! _) as [body|]; simpl; [|done].
  destruct (parseMetadata _ _); done.
Qed.

Lemma lookup_app (k : string) (l1 l2 : list (string * Json.value)) :
  Json.lookup k (l1 ++ l2)
  = match Json.lookup k l1 with
    | Some v => Some v
    | None => Json.lookup k l2
    end.
Proof.
  induction l1 as [|[k' v] l1 IH]; [done|].
  cbn. by destruct (String.eqb k k').
Qed.

Lemma lookup_field (k k' : string) (v : option Json.value) :
  Json.lookup k (field k' v) = if String.eqb k k' then v else None.
Proof. destruct v; cbn; by destruct (String.eqb k k'). Qed.

(** Reading a stored record through the interface gives back the record
    that was serialized. *)
Lemma metadataOfFields_metadataToJson (m : JobMetadata) :
  metadataOfFields (fieldsOf (metadataToJson m)) = m.
Proof.
  destruct m as [jobId status referenceKey distortedKey referenceName distortedName
                   resultKey bucket oscJobName error createdAt completedAt
                   vmafScore description].
  unfold metadataOfFields, metadataToJson, fieldsOf, getString, strField.
  cbn [md_jobId md_status md_referenceKey md_distortedKey md_referenceName
       md_distortedName md_resultKey md_bucket md_oscJobName md_error md_createdAt
       md_completedAt md_vmafScore md_description].
  f_equal; rewrite !lookup_app, !lookup_field; cbn [String.eqb Ascii.eqb Bool.eqb];
    match goal with
    | |- _ = ?x => destruct x as [y|]; [try destruct y|]; reflexivity
    end.
Qed.

(** X2. Save, then Load. A record saved under its identifier loads as it was
    saved; a record saved without a bucket loads with the bucket it is
    loaded from. *)
Theorem save_then_load (bucket jobId : string) (m : JobMetadata) (w : World) :
  md_jobId m = Some jobId ->
  let saved := saveJobMetadata noFaults (Some bucket) m w in
  fst saved = Ok tt
  /\ loadsAs noFaults (Some bucket) (snd saved) jobId
     = Some (if JsString.truthyOpt (md_bucket m) then m
             else md_with_bucket (Some bucket) m).
Proof.
  intros Hid saved. subst saved.
  unfold loadsAs, loadJobMetadata, saveJobMetadata, getObject, putObject, served,
         noFaults.
  rewrite Hid. unfold mbind, M_bind, mret, M_ret, tryCatch, throw, liftExn.
  cbn [fst snd s3 set_s3]. rewrite lookup_insert_eq.
  split; [done|].
  unfold parseMetadata.
  change (metadataToJson m) with (Json.JObj (fieldsOf (metadataToJson m))).
  cbn [fst]. rewrite metadataOfFields_metadataToJson. done.
Qed.

Lemma save_then_load_witness :
  loadsAs noFaults (Some "demo")
          (snd (saveJobMetadata noFaults (Some "demo") storedRecord
                  (emptyWorld demoConfig)))
          "job1"
  = Some storedRecord.
Proof.
  exact (proj2 (save_then_load "demo" "job1" storedRecord (emptyWorld demoConfig)
                  eq_refl)).
Defined.

Lemma endsWith_truthy (key : string) :
  JsString.endsWith key ".json" = true -> JsString.truthy key = true.
Proof. destruct key; done. Qed.

(** The loop loads the listed keys in order and skips, without a word, what
    does not load. *)
Lemma loadListed_run (f : Faults) (bucket : option string) (contents : list string)
    (w : World) :
  loadListed f bucket contents w = (Ok (listedRecords f bucket w contents), w).
Proof.
  unfold listedRecords.
  induction contents as [|key rest IH]; simpl; [done|].
  destruct (JsString.endsWith key ".json") eqn:He.
  - rewrite (endsWith_truthy _ He). simpl. unfold_M.
    rewrite loadJobMetadata_run. rewrite IH.
    destruct (loadsAs _ _ _ _); done.
  - by rewrite andb_false_r.
Qed.

Section SortingFacts.

Variable getTime : option string -> option Z.








End SortingFacts.

Lemma insertKey_perm (k : string) (l : list string) : insertKey k l ≡ₚ k :: l.
Proof.
  induction l as [|k' l IH]; simpl; [done|].
  destruct (String.leb k k'); [done|]. rewrite IH. apply Permutation_swap.
Qed.

(** The gateway lists exactly the keys of the bucket under the prefix. *)
Lemma keysUnder_spec (bucket prefix : string)
    (objects : gmap (string * string) Body) (key : string) :
  key ∈ keysUnder bucket prefix objects
  <-> is_Some (objects !! (bucket, key)) /\ JsString.startsWith key prefix = true.
Proof.
  unfold keysUnder.
  set (pick := fun _ : string * string * Body => _).
  assert (Hperm : forall l : list string, foldr insertKey [] l ≡ₚ l).
  { induction l as [|x l IH]; simpl; [done|]. rewrite insertKey_perm. by rewrite IH. }
  rewrite Hperm. rewrite list_elem_of_omap. split.
  - intros ([[b k] body] & Hin & Hpick). apply elem_of_map_to_list in Hin.
    unfold pick in Hpick. simpl in Hpick.
    destruct (bool_decide (b = bucket)) eqn:Hb; simpl in Hpick; [|done].
    destruct (JsString.startsWith k prefix) eqn:Hp; [|done].
    apply bool_decide_eq_true in Hb. simplify_eq. split; [by eexists|done].
  - intros [[body Hbody] Hp]. exists ((bucket, key), body). split.
    + by apply elem_of_map_to_list.
    + unfold pick. simpl. rewrite bool_decide_eq_true_2 by done. simpl. by rewrite Hp.
Qed.

Example jobIdOfKey_plain : jobIdOfKey "jobs/job1700000000000.json" = "job1700000000000".
Proof. reflexivity. Qed.



Example listing_newest_first :
  fst (listJobMetadata demoTime noFaults (Some "demo") listingWorld)
  = Ok [newerRecord; storedRecord].
Proof. vm_compute. reflexivity. Qed.

Example listing_on_enumeration_error :
  fst (listJobMetadata demoTime allFaults (Some "demo") listingWorld) = Ok [].
Proof. vm_compute. reflexivity. Qed.

(** ** Deleting a job *)

(** What one delete request does: it always answers success, the registry
    entry is gone, and the store lost at most the raw result object and the
    metadata object, each only if the gateway served its deletion. *)
Lemma deleteJobHandler_effect (f : Faults) (jobId : string)
    (queryBucket : option string) (w : World) :
  let target := deleteTargetBucket (jobs w !! jobId) queryBucket (serverConfig w) in
  let metadata := loadsAs f target w jobId in
  let bucket := if JsString.truthyOpt (metadata ≫= md_bucket)
                then metadata ≫= md_bucket else target in
  let result := deleteJobHandler f jobId queryBucket w in
  fst result = Ok deleted
  /\ jobs (snd result) = delete jobId (jobs w)
  /\ s3 (snd result)
     = removed f bucket (Some (metadataKey (Some jobId)))
         (removed f bucket (metadata ≫= rawKeyOf) (s3 w))
  /\ serverConfig (snd result) = serverConfig w
  /\ statusLog (snd result) = statusLog w.
Proof.
  intros target metadata bucket result. subst result.
  unfold deleteJobHandler. unfold_M.
  rewrite loadJobMetadata_run. fold target. fold metadata. cbn [fst snd]. fold bucket.
  unfold removed, rawKeyOf.
  generalize bucket as b. intros b.
  destruct metadata as [m|]; cbn [mbind option_bind].
  - destruct (JsString.truthyOpt (md_oscJobName m)); cbn [andb].
    + destruct (md_resultKey m) as [rk|];
        cbn [JsString.truthyOpt fmap option_fmap option_map required].
      * unfold_M. unfold deleteObject, served. unfold_M.
        destruct (JsString.truthy rk); cbn [fst snd];
          destruct b as [b|]; cbn [fst snd];
          repeat (destruct (f _); cbn [fst snd]); done.
      * unfold deleteObject, served. unfold_M.
        destruct b as [b|]; cbn [fst snd];
          repeat (destruct (f _); cbn [fst snd]); done.
    + unfold deleteObject, served. unfold_M.
      destruct b as [b|]; cbn [fst snd];
        repeat (destruct (f _); cbn [fst snd]); done.
  - unfold deleteObject, served. unfold_M.
    destruct b as [b|]; cbn [fst snd];
      repeat (destruct (f _); cbn [fst snd]); done.
Qed.

Lemma removed_lookup (f : Faults) (bucket key : option string)
    (objects : gmap (string * string) Body) (b k : string) :
  removed f bucket key objects !! (b, k) = objects !! (b, k)
  \/ (removed f bucket key objects !! (b, k) = None
      /\ bucket = Some b /\ key = Some k
      /\ f (DeleteObjectCommand bucket k) = false).
Proof.
  unfold removed. destruct bucket as [b'|], key as [k'|]; try by left.
  destruct (f _) eqn:Hf; [by left|].
  destruct (decide ((b', k') = (b, k))) as [Heq|Hne].
  - simplify_eq. right. by rewrite lookup_delete_eq.
  - left. by rewrite lookup_delete_ne.
Qed.

(** C9. Delete-job is best-effort and idempotent. Whatever the gateway
    fails, a delete request answers success and the registry entry is gone;
    so does a second request for the same identifier, the metadata being
    gone or not. The store then is the old one less the raw result object,
    which is gone only if metadata with an external job name and a result
    key was found and the gateway served that deletion, and less the
    metadata object, which is gone only if the gateway served that one. *)
Theorem C9_delete_job_best_effort_idempotent (f1 f2 : Faults) (jobId : string)
    (query1 query2 : option string) (w : World) :
  let first := deleteJobHandler f1 jobId query1 w in
  let second := deleteJobHandler f2 jobId query2 (snd first) in
  let target := deleteTargetBucket (jobs w !! jobId) query1 (serverConfig w) in
  let metadata := loadsAs f1 target w jobId in
  let bucket := if JsString.truthyOpt (metadata ≫= md_bucket)
                then metadata ≫= md_bucket else target in
  fst first = Ok deleted
  /\ fst second = Ok deleted
  /\ jobs (snd first) = delete jobId (jobs w)
  /\ jobs (snd second) = delete jobId (jobs w)
  /\ s3 (snd first)
     = removed f1 bucket (Some (metadataKey (Some jobId)))
         (removed f1 bucket (metadata ≫= rawKeyOf) (s3 w))
  /\ (forall b key,
        s3 (snd first) !! (b, key) = s3 w !! (b, key)
        \/ (s3 (snd first) !! (b, key) = None /\ bucket = Some b
            /\ (key = metadataKey (Some jobId) \/ metadata ≫= rawKeyOf = Some key))).
Proof.
  intros first second target metadata bucket.
  destruct (deleteJobHandler_effect f1 jobId query1 w)
    as (Hr1 & Hj1 & Hs1 & _ & _).
  destruct (deleteJobHandler_effect f2 jobId query2 (snd first))
    as (Hr2 & Hj2 & _ & _ & _).
  fold first in Hr1, Hj1, Hs1. fold target metadata bucket in Hs1.
  fold second in Hr2, Hj2.
  split; [done|]. split; [done|]. split; [done|].
  split; [by rewrite Hj2, Hj1, delete_delete_eq|].
  split; [done|].
  intros b key. rewrite Hs1.
  destruct (removed_lookup f1 bucket (Some (metadataKey (Some jobId)))
              (removed f1 bucket (metadata ≫= rawKeyOf) (s3 w)) b key)
    as [Hsame|(Hnone & Hb & Hk & _)].
  - rewrite Hsame.
    destruct (removed_lookup f1 bucket (metadata ≫= rawKeyOf) (s3 w) b key)
      as [Hsame'|(Hnone & Hb & Hk & _)]; [by left|].
    right. by repeat split; [| |right].
  - right. simplify_eq. by repeat split; [| |left].
Qed.

Example second_delete_succeeds :
  let first := deleteJobHandler noFaults "job1" (Some "demo") restartedWorld in
  s3 (snd first) = ∅
  /\ fst (deleteJobHandler noFaults "job1" (Some "demo") (snd first)) = Ok deleted
  /\ fst (deleteJobHandler allFaults "job1" (Some "demo") (snd first)) = Ok deleted.
Proof. vm_compute. done. Qed.

(** ** Reading the status of a job *)

(** With nothing in the registry the status handler answers 404, although
    the record of the job is in the Metadata Store and loads. And for a job
    that is in the registry with its external job name, the handler answers
    500, not the status, when the credential call at the Job Runner fails. *)
Lemma C2_stored_job_is_not_found :
  jobs restartedWorld !! "job1" = None
  /\ loadsAs noFaults (Some "demo") restartedWorld "job1" = Some storedRecord
  /\ fst (statusHandler "job1" (Ok "service-token") (Ok "Completed") restartedWorld)
     = Ok notFound
  /\ registryStatus demoJobId demoCompleted = Some Completed
  /\ fst (statusHandler demoJobId (Throw "Unauthorized") (Ok "Completed") demoCompleted)
     = Ok (mkResponse 500 (ErrorJson "Failed to fetch job status" None)).
Proof. vm_compute. done. Qed.

(** C2 (as the code has it). A get-job-status request reads the in-memory Job Registry
    and nothing else: the Metadata Store has no part in the answer. The
    answer is 404 exactly when the identifier is not in the Registry. For an
    identifier in the Registry the answer carries the Registry's status,
    unless the entry has an external job name and the lookup at the Job
    Runner fails, which gives a 500. *)
Theorem C2_status_reads_registry_only (jobId : string)
    (tokenReply jobReply : Exn string) (w : World) :
  exists response,
    fst (statusHandler jobId tokenReply jobReply w) = Ok response
    /\ (res_status response = 404%Z <-> jobs w !! jobId = None)
    /\ (forall objects,
          fst (statusHandler jobId tokenReply jobReply (set_s3 objects w))
          = Ok response)
    /\ (forall job, jobs w !! jobId = Some job ->
          if asksRunner job && (threw tokenReply || threw jobReply)
          then res_status response = 500%Z
          else res_status response = 200%Z
               /\ reportedStatus (res_body response) = Some (job_status job)).
Proof.
  unfold statusHandler. unfold_M. cbn [set_s3 jobs].
  destruct (jobs w !! jobId) as [job|] eqn:Hjob; cbn [fst].
  - unfold asksRunner.
    destruct (JsString.truthyOpt (job_oscJobName job)
              && bool_decide (is_Some (job_config job))) eqn:Hask; cbn [andb fst].
    + destruct tokenReply as [tok|e]; [destruct jobReply as [st|e]|];
        cbn [fst threw orb];
        (eexists; split; [reflexivity|]; cbn; split; [split; done|];
         split; [done|]; intros ? [= <-]; rewrite Hask; done).
    + eexists; split; [reflexivity|]. cbn. split; [split; done|].
      split; [done|]. intros ? [= <-]. rewrite Hask. done.
  - eexists; split; [reflexivity|]. cbn. split; [done|]. split; [done|]. done.
Qed.

(** The demo job right after create: it is in the registry, and the status
    handler answers 200 with the registry's status. *)
Lemma C2_witness :
  exists response,
    fst (statusHandler demoJobId (Ok "service-token") (Ok "Running") (snd demoStarted))
    = Ok response
    /\ res_status response = 200%Z
    /\ reportedStatus (res_body response) = Some (Some Running).
Proof.
  destruct (C2_status_reads_registry_only demoJobId (Ok "service-token")
              (Ok "Running") (snd demoStarted))
    as (response & Hrun & _ & _ & Hpresent).
  exists response. split; [exact Hrun|].
  assert (Hjob : jobs (snd demoStarted) !! demoJobId = Some demoRunningEntry)
    by (vm_compute; reflexivity).
  exact (Hpresent demoRunningEntry Hjob).
Defined.

(** ** Creating a job *)

(** The create handler either hands over a task waiting for the credential,
    with the job registered and already set to running, or answers 500. *)
Lemma analyzeHandler_accepts (urlParses : string -> bool) (req : AnalyzeRequest)
    (nowMs : N) (nowIso : string) (w : World) (t : Task) (w1 : World) :
  analyzeHandler urlParses req nowMs nowIso w = (Ok (inl t), w1) ->
  t_pc t = PcToken
  /\ cl_jobId (t_env t) = "job" +:+ pretty nowMs
  /\ (exists entry,
        jobs w1 = <[cl_jobId (t_env t) := with_status Running entry]>
                    (<[cl_jobId (t_env t) := entry]> (jobs w))
        /\ job_status entry = Some Queued
        /\ job_oscJobName entry = None
        /\ job_error entry = None)
  /\ statusLog w1 = statusLog w ++ [(cl_jobId (t_env t), Some Queued);
                                    (cl_jobId (t_env t), Some Running)]
  /\ s3 w1 = s3 w.
Proof.
  unfold analyzeHandler, required, newURL. unfold_M.
  destruct (req_referenceKey req) as [referenceKey|]; cbn [fst snd]; [|done].
  destruct (req_distortedKey req) as [distortedKey|]; cbn [fst snd]; [|done].
  repeat (destruct (urlParses _); cbn [fst snd]; [|done]).
  intros [= <- <-]. cbn.
  rewrite lookup_insert_eq. cbn.
  split; [done|]. split; [done|]. split.
  - eexists. split; [reflexivity|]. done.
  - split; [|done]. by rewrite <- app_assoc.
Qed.

(** When the create handler answers, the job it reports as queued is
    running in the registry, and a status query sent right then says so.
    And a request without a reference key registers nothing and is answered
    500. *)
Lemma C3_registry_is_running_when_create_answers :
  let answered := step demoTask (RToken (Ok "service-token")) (snd demoStarted) in
  let refused := analyzeHandler anyUrl
                   (mkAnalyzeRequest None (Some "b.mp4") None (Some "demo") None)
                   demoClock demoIso (emptyWorld demoConfig) in
  fst demoStarted = Ok (inl demoTask)
  /\ fst answered
     = Ok (mkTask demoEnv PcCreateJob,
           Some (json (AnalyzeJson demoJobId Queued "a.mp4" "b.mp4"
                         "results/job1700000000000.json")))
  /\ registryStatus demoJobId (snd answered) = Some Running
  /\ fst (statusHandler demoJobId (Ok "service-token") (Ok "Running") (snd answered))
     = Ok (json (StatusJson demoJobId (Some Running) None))
  /\ fst refused
     = Ok (inr (mkResponse 500 (ErrorJson "Failed to trigger analysis" None)))
  /\ jobs (snd refused) = ∅.
Proof. vm_compute. done. Qed.

(** C3 (as the code has it). For every create-job request the handler accepts, the job
    is registered at status queued and set to running in the same
    synchronous stretch, before the handler first awaits; the response,
    sent once the credential has arrived, reports status queued; the
    Registry shows running from before the response on, so a status query
    issued right after create returns running. *)
Theorem C3_create_reports_queued_registry_running (urlParses : string -> bool)
    (req : AnalyzeRequest) (nowMs : N) (nowIso : string) (w : World)
    (t : Task) (w1 : World) (token : string) (tokenReply jobReply : Exn string) :
  analyzeHandler urlParses req nowMs nowIso w = (Ok (inl t), w1) ->
  let jobId := cl_jobId (t_env t) in
  statusLog w1 = statusLog w ++ [(jobId, Some Queued); (jobId, Some Running)]
  /\ registryStatus jobId w1 = Some Running
  /\ step t (RToken (Ok token)) w1
     = (Ok (mkTask (t_env t) PcCreateJob,
            Some (json (AnalyzeJson jobId Queued (cl_referenceKey (t_env t))
                          (cl_distortedKey (t_env t)) (cl_resultKey (t_env t))))),
        w1)
  /\ fst (statusHandler jobId tokenReply jobReply w1)
     = Ok (json (StatusJson jobId (Some Running) None)).
Proof.
  intros Hstart jobId.
  destruct (analyzeHandler_accepts _ _ _ _ _ _ _ Hstart)
    as (Hpc & _ & (entry & Hjobs & Hq & Hname & Herr) & Hlog & _).
  fold jobId in Hjobs, Hlog.
  split; [done|]. split.
  { unfold registryStatus. rewrite Hjobs, lookup_insert_eq. done. }
  split.
  { destruct t as [env pc]. cbn in Hpc. subst pc. reflexivity. }
  unfold statusHandler. unfold_M. rewrite Hjobs, lookup_insert_eq. cbn [fst].
  destruct entry; cbn in *. subst. done.
Qed.

Lemma C3_witness :
  registryStatus demoJobId (snd demoStarted) = Some Running
  /\ step demoTask (RToken (Ok "service-token")) (snd demoStarted)
     = (Ok (mkTask demoEnv PcCreateJob,
            Some (json (AnalyzeJson demoJobId Queued "a.mp4" "b.mp4"
                          "results/job1700000000000.json"))),
        snd demoStarted).
Proof.
  assert (Hstart : analyzeHandler anyUrl demoRequest demoClock demoIso
                     (emptyWorld demoConfig)
                   = (Ok (inl demoTask), snd demoStarted))
    by (vm_compute; reflexivity).
  destruct (C3_create_reports_queued_registry_running anyUrl demoRequest demoClock
              demoIso (emptyWorld demoConfig) demoTask (snd demoStarted)
              "service-token" (Ok "service-token") (Ok "Running") Hstart)
    as (_ & Hrunning & Hstep & _).
  split; [exact Hrunning|exact Hstep].
Defined.

(** A request without a reference key is answered 500 and registers nothing. *)
Example create_without_reference_key :
  let r := analyzeHandler anyUrl (mkAnalyzeRequest None (Some "b.mp4") None None None)
             demoClock demoIso (emptyWorld demoConfig) in
  fst r = Ok (inr (mkResponse 500 (ErrorJson "Failed to trigger analysis" None)))
  /\ jobs (snd r) = ∅.
Proof. vm_compute. done. Qed.

(** ** Credential failure *)

(** A finished task ignores every reply. *)
Lemma run_done (env : Closure) (replies : list Reply) (w : World) :
  run (mkTask env PcDone) replies w = (Ok (mkTask env PcDone, []), w).
Proof.
  induction replies as [|reply rest IH]; [done|].
  cbn [run]. unfold step at 1. cbn [t_pc]. unfold_M. cbn [fst snd].
  rewrite IH. done.
Qed.

(** When the credential is refused the create request is answered 400; and
    when the gateway then fails the save of the failed record, nothing is
    persisted and the answer is the same. *)
Lemma C4_credential_failure_is_answered_400 :
  let unsaved := run demoTask [RToken (Throw "Unauthorized");
                               RStorage (Some "ServiceUnavailable")]
                     (snd demoStarted) in
  List.map res_status (responsesOf (run demoTask tokenRefused (snd demoStarted)))
  = [400%Z]
  /\ fst (run demoTask tokenRefused (snd demoStarted))
     = Ok (mkTask demoEnv PcDone,
           [mkResponse 400
              (ErrorJson "Failed to authenticate with OSC. Please check your OSC token in settings."
                         (Some demoJobId))])
  /\ List.map res_status (responsesOf unsaved) = [400%Z]
  /\ s3 (snd unsaved) = ∅
  /\ registryStatus demoJobId (snd unsaved) = Some Failed.
Proof. vm_compute. done. Qed.

(** C4 (as the code has it). When credential acquisition from the Job Runner Client
    fails, the job's status is set to failed with the error message
    ['Invalid OSC token or service unavailable'], a Save of the failed
    record is attempted (stored when the gateway serves it; a failure of the
    Save is only logged), no task submission or polling follows, and the
    create request is answered with a 400 status code. *)
Theorem C4_credential_failure_fails_job_answers_400 (env : Closure) (msg : string)
    (fault : option string) (w : World) :
  let result := run (mkTask env PcToken) [RToken (Throw msg); RStorage fault] w in
  fst result
  = Ok (mkTask env PcDone,
        [mkResponse 400
           (ErrorJson "Failed to authenticate with OSC. Please check your OSC token in settings."
                      (Some (cl_jobId env)))])
  /\ registryStatus (cl_jobId env) (snd result) = Some Failed
  /\ (jobs (snd result) !! cl_jobId env ≫= job_error) = Some authError
  /\ statusLog (snd result) = statusLog w ++ [(cl_jobId env, Some Failed)]
  /\ match fault, cl_targetBucket env with
     | None, Some b =>
         s3 (snd result)
         = <[(b, metadataKey (Some (cl_jobId env)))
              := Doc (metadataToJson (authFailedMetadata env))]> (s3 w)
         /\ md_status (authFailedMetadata env) = Some Failed
     | _, _ =>
         s3 (snd result) = s3 w
         /\ last (console (snd result)) = Some "Failed to save error job metadata:"
     end
  /\ (forall replies,
        run (mkTask env PcDone) replies (snd result)
        = (Ok (mkTask env PcDone, []), snd result)).
Proof.
  intros result.
  split; [|split; [|split; [|split; [|split]]]]; try (intros; apply run_done);
    subst result; destruct w as [cfg js objs con log];
    (destruct fault as [e|]; [|destruct (cl_targetBucket env) as [b|] eqn:Hb]);
    exec; rewrite ?Hb; exec; rewrite ?lookup_insert_eq;
    cbn [mbind option_bind with_error with_status job_status job_error];
    rewrite ?last_snoc; repeat split.
Qed.

(** ** The status over the life of a job *)

Example lifecycle_completed :
  forwardOnly [Some Queued; Some Running; Some Running; Some Completed] = true.
Proof. reflexivity. Qed.

Example lifecycle_regression :
  forwardOnly [Some Queued; Some Running; Some Completed; Some Running] = false.
Proof. reflexivity. Qed.

(** The run in which all goes well: the history is the forward one and the
    completed record is stored. *)
Example completed_run_is_forward_only :
  let w := snd (run demoTask completedRun (snd demoStarted)) in
  statusHistory demoJobId w
  = [Some Queued; Some Running; Some Running; Some Completed]
  /\ forwardOnly (statusHistory demoJobId w) = true
  /\ loadsAs noFaults (Some "demo") w demoJobId ≫= md_status = Some Completed.
Proof. vm_compute. done. Qed.

Lemma mergeRepeats_snoc (h : list (option Status)) (x : option Status) :
  mergeRepeats (h ++ [x])
  = if bool_decide (last h = Some x) then mergeRepeats h else mergeRepeats h ++ [x].
Proof.
  induction h as [|a h IH]; [done|].
  destruct h as [|b h].
  - cbn. destruct (bool_decide (a = x)) eqn:Hax.
    + apply bool_decide_eq_true in Hax. subst. by rewrite bool_decide_eq_true_2.
    + apply bool_decide_eq_false in Hax.
      rewrite bool_decide_eq_false_2; [done|congruence].
  - change (mergeRepeats ((a :: b :: h) ++ [x]))
      with (if bool_decide (a = b) then mergeRepeats ((b :: h) ++ [x])
            else a :: mergeRepeats ((b :: h) ++ [x])).
    change (mergeRepeats (a :: b :: h))
      with (if bool_decide (a = b) then mergeRepeats (b :: h)
            else a :: mergeRepeats (b :: h)).
    rewrite IH. change (last (a :: b :: h)) with (last (b :: h)).
    destruct (bool_decide (a = b)), (bool_decide (last (b :: h) = Some x)); done.
Qed.

Lemma mergeRepeats_cons_nonempty (a : option Status) (h : list (option Status)) :
  mergeRepeats (a :: h) <> [].
Proof.
  revert a. induction h as [|b h IH]; intros a; [done|].
  change (mergeRepeats (a :: b :: h))
    with (if bool_decide (a = b) then mergeRepeats (b :: h)
          else a :: mergeRepeats (b :: h)).
  destruct (bool_decide (a = b)); [apply IH|done].
Qed.

Lemma last_mergeRepeats (h : list (option Status)) : last (mergeRepeats h) = last h.
Proof.
  induction h as [|a h IH]; [done|].
  destruct h as [|b h]; [done|].
  change (mergeRepeats (a :: b :: h))
    with (if bool_decide (a = b) then mergeRepeats (b :: h)
          else a :: mergeRepeats (b :: h)).
  change (last (a :: b :: h)) with (last (b :: h)). rewrite <- IH.
  destruct (bool_decide (a = b)); [done|].
  pose proof (mergeRepeats_cons_nonempty b h) as Hne.
  by destruct (mergeRepeats (b :: h)).
Qed.

Lemma historyIn_snoc (jobId : string) (log : list (string * option Status))
    (s : option Status) :
  historyIn jobId (log ++ [(jobId, s)]) = historyIn jobId log ++ [s].
Proof.
  unfold historyIn. rewrite omap_app. cbn. by rewrite String.eqb_refl.
Qed.

(** A write of a status keeps the job on track when the phase after it
    allows the history it gives. *)
Lemma onTrack_write (env : Closure) (pc : Pc) (cfg : S3Config)
    (js : gmap string JobEntry) (objs : gmap (string * string) Body)
    (con : list string) (log : list (string * option Status))
    (e' : JobEntry) (h : list (option Status)) (old : option Status) :
  historyIn (cl_jobId env) log = h ->
  last h = Some old ->
  phaseOk pc (if bool_decide (old = job_status e') then mergeRepeats h
              else mergeRepeats h ++ [job_status e'])
          (cl_targetBucket env) ->
  onTrack (mkTask env pc)
          (mkWorld cfg (<[cl_jobId env := e']> js) objs con
                   (log ++ [(cl_jobId env, job_status e')])).
Proof.
  intros Hh Hlast Hphase. exists e'. unfold statusHistory.
  cbn [t_env t_pc jobs statusLog].
  rewrite historyIn_snoc, Hh, lookup_insert_eq, last_snoc.
  split; [done|]. split; [done|].
  rewrite mergeRepeats_snoc, Hlast.
  destruct (bool_decide (old = job_status e')) eqn:Hd.
  - apply bool_decide_eq_true in Hd. subst. by rewrite bool_decide_eq_true_2.
  - apply bool_decide_eq_false in Hd.
    rewrite bool_decide_eq_false_2; [done|congruence].
Qed.

(** A turn that writes no status keeps the job on track when the new phase
    allows the history as it is. *)
Lemma onTrack_keep (env : Closure) (pc : Pc) (js : gmap string JobEntry)
    (log : list (string * option Status)) (cfg' : S3Config)
    (objs' : gmap (string * string) Body) (con' : list string) (e : JobEntry) :
  js !! cl_jobId env = Some e ->
  last (historyIn (cl_jobId env) log) = Some (job_status e) ->
  phaseOk pc (mergeRepeats (historyIn (cl_jobId env) log)) (cl_targetBucket env) ->
  onTrack (mkTask env pc) (mkWorld cfg' js objs' con' log).
Proof. intros ? ? ?. by exists e. Qed.

Ltac keep_track :=
  solve [do 2 eexists; split; [reflexivity|]; eapply onTrack_keep;
         [eassumption|eassumption|cbn; naive_solver]].

Ltac write_track :=
  do 2 eexists; split; [reflexivity|]; eapply onTrack_write;
  [reflexivity|eassumption|].

(** Every turn of the task that does not fail the save of a completed
    record returns and keeps the job on track. *)
Lemma step_onTrack (t : Task) (reply : Reply) (w : World) :
  onTrack t w ->
  failsCompletedSave (t_pc t) reply = false ->
  exists turn w', step t reply w = (Ok turn, w') /\ onTrack (fst turn) w'.
Proof.
  destruct t as [env pc], w as [cfg js objs con log].
  intros (e & Hjobs & Hlast & Hphase) Hserved. unfold statusHistory in *.
  cbn [t_env t_pc jobs statusLog] in *.
  assert (Hm : last (mergeRepeats (historyIn (cl_jobId env) log)) = Some (job_status e))
    by by rewrite last_mergeRepeats.
  destruct pc; cbn [phaseOk] in Hphase;
    repeat match goal with H : _ /\ _ |- _ => destruct H as [H ?] end;
    try (rewrite Hphase in Hm; cbn in Hm; apply (inj Some) in Hm; rename Hm into Hst).
  - (* PcToken *)
    destruct reply as [[tok|msg]| | | |]; exec; try keep_track.
    rewrite Hjobs. exec. write_track. rewrite Hphase; cbn; rewrite <- ?Hst; done.
  - (* PcAuthSave *)
    destruct reply as [|?|[e0|]| |]; exec; try keep_track.
    destruct (cl_targetBucket env); exec; keep_track.
  - (* PcCreateJob *)
    destruct reply as [|[name|msg]| | |]; exec; try keep_track;
      rewrite Hjobs; exec;
      write_track; rewrite Hphase; cbn; rewrite <- ?Hst; done.
  - (* PcSubmitSave *)
    destruct reply as [|?|[e0|]| |]; exec; try keep_track.
    + rewrite Hjobs. exec. write_track. rewrite Hphase; cbn; rewrite <- ?Hst; done.
    + destruct (cl_targetBucket env) eqn:Hb; exec.
      * keep_track.
      * rewrite Hjobs. exec. write_track. rewrite Hphase; cbn; rewrite <- ?Hst; done.
  - (* PcTimer *)
    destruct reply; exec; keep_track.
  - (* PcGetJob *)
    destruct reply as [|?| | |[status|msg] now]; exec; try keep_track.
    + destruct (String.eqb status "Running") eqn:Hrun; exec.
      * rewrite Hjobs. exec. rewrite <- Hst.
        rewrite bool_decide_eq_false_2 by done. exec.
        apply String.eqb_eq in Hrun. subst status. cbn. keep_track.
      * destruct (isSuccess status); exec.
        -- rewrite Hjobs. exec.
           destruct (job_resultKey e); exec;
             write_track; rewrite Hphase; cbn; rewrite <- ?Hst; done.
        -- destruct (isFailure status); exec.
           ++ rewrite Hjobs. exec. write_track.
              rewrite Hphase; cbn; rewrite <- ?Hst; done.
           ++ keep_track.
    + rewrite Hjobs. exec. write_track. rewrite Hphase; cbn; rewrite <- ?Hst; done.
  - (* PcScoreGet *)
    destruct reply as [|?|[e0|]| |]; exec; try keep_track.
    pose proof H as [b Hb]. rewrite Hb. exec.
    destruct (objs !! _); exec; [|keep_track].
    destruct (scoreOf _); exec; keep_track.
  - (* PcCompletedSave *)
    destruct reply as [|?|[e0|]| |]; try done; exec; try keep_track.
    pose proof H as [b Hb]. rewrite Hb. exec. keep_track.
  - (* PcFailedSave *)
    destruct reply as [|?|[e0|]| |]; exec; try keep_track.
    destruct (cl_targetBucket env); exec; keep_track.
  - (* PcDone *)
    exec. keep_track.
Qed.

(** A turn keeps the closure of the task. *)
Lemma step_env (t : Task) (reply : Reply) (w : World)
    (turn : Task * option Response) (w' : World) :
  step t reply w = (Ok turn, w') -> t_env (fst turn) = t_env t.
Proof.
  unfold step. destruct (t_pc t); unfold_M; intros;
    repeat case_match; simplify_eq; done.
Qed.

Lemma run_onTrack (replies : list Reply) : forall (t : Task) (w : World),
  onTrack t w ->
  completedSavesServed t replies w = true ->
  exists t' responses w',
    run t replies w = (Ok (t', responses), w')
    /\ onTrack t' w' /\ t_env t' = t_env t.
Proof.
  induction replies as [|reply rest IH]; intros t w Htrack Hserved.
  - by exists t, [], w.
  - cbn [completedSavesServed] in Hserved.
    apply andb_true_iff in Hserved as [Hreply Hrest].
    apply negb_true_iff in Hreply.
    destruct (step_onTrack t reply w Htrack Hreply) as (turn & w1 & Hstep & Htrack1).
    rewrite Hstep in Hrest.
    destruct (IH (fst turn) w1 Htrack1 Hrest)
      as (t' & responses & w' & Hrun & Htrack' & Henv).
    exists t', (from_option (fun r => [r]) [] (snd turn) ++ responses), w'.
    split; [|split; [done|]].
    + cbn [run]. unfold mbind, M_bind. rewrite Hstep. rewrite Hrun. done.
    + rewrite Henv. by eapply step_env.
Qed.

Lemma onTrack_forwardOnly (t : Task) (w : World) :
  onTrack t w -> forwardOnly (statusHistory (cl_jobId (t_env t)) w) = true.
Proof.
  intros (e & _ & _ & Hphase). unfold forwardOnly.
  destruct (t_pc t); cbn [phaseOk] in Hphase;
    repeat match goal with H : _ /\ _ |- _ => destruct H as [H ?] end;
    try destruct Hphase as [Hphase|Hphase]; rewrite Hphase; reflexivity.
Qed.

(** X1. The lifecycle holds on every other run. For a job created under a fresh
    identifier, as long as no save of its completed record fails, every
    turn of the task returns and the statuses recorded for the job form,
    repeats merged, a subsequence of queued, running, completed or of
    queued, running, failed. *)
Theorem lifecycle_forward_unless_completed_save_fails (urlParses : string -> bool)
    (req : AnalyzeRequest) (nowMs : N) (nowIso : string) (w : World)
    (t : Task) (w1 : World) (replies : list Reply) :
  analyzeHandler urlParses req nowMs nowIso w = (Ok (inl t), w1) ->
  statusHistory (cl_jobId (t_env t)) w = [] ->
  completedSavesServed t replies w1 = true ->
  exists t' responses w',
    run t replies w1 = (Ok (t', responses), w')
    /\ forwardOnly (statusHistory (cl_jobId (t_env t)) w') = true.
Proof.
  intros Hstart Hfresh Hserved.
  destruct (analyzeHandler_accepts _ _ _ _ _ _ _ Hstart)
    as (Hpc & _ & (entry & Hjobs & Hq & _ & _) & Hlog & _).
  assert (Htrack : onTrack t w1).
  { exists (with_status Running entry). unfold statusHistory in *.
    rewrite Hjobs, Hlog, lookup_insert_eq, Hpc.
    unfold historyIn in *. rewrite omap_app, Hfresh. cbn.
    rewrite String.eqb_refl. done. }
  destruct (run_onTrack replies t w1 Htrack Hserved)
    as (t' & responses & w' & Hrun & Htrack' & Henv).
  exists t', responses, w'. split; [done|].
  rewrite <- Henv. by apply onTrack_forwardOnly.
Qed.

Lemma lifecycle_witness :
  exists t' responses w',
    run demoTask completedRun (snd demoStarted) = (Ok (t', responses), w')
    /\ forwardOnly (statusHistory demoJobId w') = true.
Proof.
  assert (Hstart : analyzeHandler anyUrl demoRequest demoClock demoIso
                     (emptyWorld demoConfig)
                   = (Ok (inl demoTask), snd demoStarted))
    by (vm_compute; reflexivity).
  assert (Hserved : completedSavesServed demoTask completedRun (snd demoStarted) = true)
    by (vm_compute; reflexivity).
  exact (lifecycle_forward_unless_completed_save_fails anyUrl demoRequest demoClock
           demoIso (emptyWorld demoConfig) demoTask (snd demoStarted) completedRun
           Hstart eq_refl Hserved).
Defined.

(** C1 (the run that breaks it). The runner reports the demo job as completed
    and the gateway fails the save of the completed record: the registry
    goes from completed to failed, so the recorded statuses are queued,
    running, completed, failed, which is no subsequence of either
    lifecycle. *)
Theorem C1_completed_job_is_marked_failed :
  let w := snd (run demoTask completedThenSaveFails (snd demoStarted)) in
  fst demoStarted = Ok (inl demoTask)
  /\ statusHistory demoJobId w
     = [Some Queued; Some Running; Some Running; Some Completed; Some Failed]
  /\ forwardOnly (statusHistory demoJobId w) = false
  /\ registryStatus demoJobId w = Some Failed.
Proof. vm_compute. done. Qed.

(** ** A save that fails *)

(** The saves of a failed record are guarded: when one fails, a line is
    logged and the registry keeps what it had. *)
Lemma failed_save_failure_only_logs (env : Closure) (pending : JobMetadata)
    (msg : string) (w : World) :
  step (mkTask env (PcFailedSave pending)) (RStorage (Some msg)) w
  = (Ok (mkTask env PcDone, None),
     set_console (console w ++ ["Failed to save error job metadata:"]) w).
Proof. reflexivity. Qed.

(** C5 (the save that breaks it). The save of the completed record is not
    guarded: when it fails, whatever the registry held for the job (the
    status completed, in the polling task) is overwritten with status
    failed and the message of the storage error; nothing is stored. In the
    demo run the registry holds completed right before that reply and
    failed right after it. *)
Theorem C5_failed_save_of_completed_record_fails_job (env : Closure)
    (pending : JobMetadata) (msg : string) (w : World) :
  let result := step (mkTask env (PcCompletedSave pending)) (RStorage (Some msg)) w in
  registryStatus (cl_jobId env) (snd result) = Some Failed
  /\ (jobs (snd result) !! cl_jobId env ≫= job_error) = Some msg
  /\ statusLog (snd result) = statusLog w ++ [(cl_jobId env, Some Failed)]
  /\ s3 (snd result) = s3 w
  /\ registryStatus demoJobId
       (snd (run demoTask (take 6 completedThenSaveFails) (snd demoStarted)))
     = Some Completed
  /\ registryStatus demoJobId
       (snd (run demoTask (take 7 completedThenSaveFails) (snd demoStarted)))
     = Some Failed.
Proof.
  intros result. subst result.
  split; [|split; [|split; [|split; [|split; vm_compute; reflexivity]]]];
    destruct w as [cfg js objs con log]; exec;
    destruct (js !! cl_jobId env) as [job|]; exec;
    rewrite ?lookup_insert_eq; reflexivity.
Qed.

(** ** Regular expressions *)

Lemma append_cons (a : ascii) (s t : string) : String a s +:+ t = String a (s +:+ t).
Proof. done. Qed.

Lemma append_nil_r (s : string) : s +:+ "" = s.
Proof. induction s as [|a s IH]; [done|]. by rewrite append_cons, IH. Qed.

Lemma append_assoc (s t u : string) : (s +:+ t) +:+ u = s +:+ t +:+ u.
Proof. induction s as [|a s IH]; [done|]. by rewrite !append_cons, IH. Qed.

Lemma append_eq_nil (s t : string) : s +:+ t = "" -> s = "" /\ t = "".
Proof. destruct s; [done|]. by rewrite append_cons. Qed.

Lemma then_inv (p q : JsRegExp.pattern) (s : string) :
  JsRegExp.lang (JsRegExp.Then p q) s ->
  exists s1 s2, s = s1 +:+ s2 /\ JsRegExp.lang p s1 /\ JsRegExp.lang q s2.
Proof. inversion 1; subst. eauto. Qed.

Lemma alt_inv (p q : JsRegExp.pattern) (s : string) :
  JsRegExp.lang (JsRegExp.Alt p q) s -> JsRegExp.lang p s \/ JsRegExp.lang q s.
Proof. inversion 1; subst; auto. Qed.

Lemma chars_inv (accepts : ascii -> bool) (s : string) :
  JsRegExp.lang (JsRegExp.Chars accepts) s ->
  exists c, s = String c "" /\ accepts c = true.
Proof. inversion 1; subst. eauto. Qed.

Lemma nullable_lang (p : JsRegExp.pattern) :
  JsRegExp.nullable p = true <-> JsRegExp.lang p "".
Proof.
  induction p as [| |f|p IHp q IHq|p IHp q IHq|p IHp]; simpl.
  - split; [done|]. inversion 1.
  - split; [constructor|done].
  - split; [done|]. intros (c & ? & _)%chars_inv. done.
  - rewrite orb_true_iff, IHp, IHq. split.
    + intros [?|?]; [by apply JsRegExp.lang_alt_l|by apply JsRegExp.lang_alt_r].
    + apply alt_inv.
  - rewrite andb_true_iff, IHp, IHq. split.
    + intros [? ?]. by apply (JsRegExp.lang_then p q "" "").
    + intros (s1 & s2 & Heq & ? & ?)%then_inv.
      symmetry in Heq. apply append_eq_nil in Heq as [-> ->]. done.
  - split; [constructor|done].
Qed.

Lemma many_cons_gen (p r : JsRegExp.pattern) (cs : string) :
  JsRegExp.lang r cs ->
  forall (ch : ascii) (rest : string),
    r = JsRegExp.Many p -> cs = String ch rest ->
    exists s1 s2, rest = s1 +:+ s2 /\ JsRegExp.lang p (String ch s1)
                  /\ JsRegExp.lang (JsRegExp.Many p) s2.
Proof.
  induction 1 as [| | | | | |p' s1 s2 H1 _ H2 IH2]; intros ch rest Hr Hcs; try done.
  injection Hr as ->. destruct s1 as [|a s1].
  - change ("" +:+ s2) with s2 in Hcs. by apply IH2.
  - rewrite append_cons in Hcs. injection Hcs as -> <-. by exists s1, s2.
Qed.

Lemma many_cons (p : JsRegExp.pattern) (c : ascii) (s : string) :
  JsRegExp.lang (JsRegExp.Many p) (String c s) ->
  exists s1 s2, s = s1 +:+ s2 /\ JsRegExp.lang p (String c s1)
                /\ JsRegExp.lang (JsRegExp.Many p) s2.
Proof. intros H. by eapply many_cons_gen. Qed.

Lemma after_lang (p : JsRegExp.pattern) : forall (c : ascii) (s : string),
  JsRegExp.lang (JsRegExp.after c p) s <-> JsRegExp.lang p (String c s).
Proof.
  induction p as [| |f|p IHp q IHq|p IHp q IHq|p IHp]; intros c s; simpl.
  - split; inversion 1.
  - split; inversion 1.
  - destruct (f c) eqn:Hf.
    + split.
      * inversion 1; subst. by constructor.
      * intros (c' & [= <- ->] & _)%chars_inv. constructor.
    + split; [inversion 1|]. intros (c' & [= <- ->] & ?)%chars_inv. congruence.
  - split.
    + intros [?|?]%alt_inv;
        [apply JsRegExp.lang_alt_l; by apply IHp|apply JsRegExp.lang_alt_r; by apply IHq].
    + intros [?|?]%alt_inv;
        [apply JsRegExp.lang_alt_l; by apply IHp|apply JsRegExp.lang_alt_r; by apply IHq].
  - assert (Hthen : forall s, JsRegExp.lang (JsRegExp.Then (JsRegExp.after c p) q) s
                              -> JsRegExp.lang (JsRegExp.Then p q) (String c s)).
    { intros s' (s1 & s2 & -> & H1 & H2)%then_inv.
      rewrite <- append_cons. constructor; [by apply IHp|done]. }
    assert (Hback : forall s, JsRegExp.lang (JsRegExp.Then p q) (String c s)
                              -> JsRegExp.lang (JsRegExp.Then (JsRegExp.after c p) q) s
                                 \/ (JsRegExp.lang p "" /\ JsRegExp.lang q (String c s))).
    { intros s' (s1 & s2 & Heq & H1 & H2)%then_inv.
      destruct s1 as [|a s1].
      - change ("" +:+ s2) with s2 in Heq. right. by subst.
      - rewrite append_cons in Heq. injection Heq as <- ->. left.
        constructor; [by apply IHp|done]. }
    destruct (JsRegExp.nullable p) eqn:Hn.
    + split.
      * intros [?|?]%alt_inv; [by apply Hthen|].
        apply (JsRegExp.lang_then p q "" (String c s)); [by apply nullable_lang|by apply IHq].
      * intros H. destruct (Hback _ H) as [?|[_ ?]];
          [by apply JsRegExp.lang_alt_l|apply JsRegExp.lang_alt_r; by apply IHq].
    + split; [apply Hthen|].
      intros H. destruct (Hback _ H) as [?|[Hp _]]; [done|].
      apply nullable_lang in Hp. congruence.
  - split.
    + intros (s1 & s2 & -> & H1 & H2)%then_inv.
      rewrite <- append_cons. apply JsRegExp.lang_many_more; [by apply IHp|done].
    + intros H. apply many_cons in H as (s1 & s2 & -> & H1 & H2).
      constructor; [by apply IHp|done].
Qed.

(** The matcher decides the language of the pattern. *)
Lemma test_lang (s : string) : forall p : JsRegExp.pattern,
  JsRegExp.test p s = true <-> JsRegExp.lang p s.
Proof.
  induction s as [|c s IH]; intros p; simpl.
  - apply nullable_lang.
  - rewrite IH. apply after_lang.
Qed.

Lemma many_chars_gen (accepts : ascii -> bool) (r : JsRegExp.pattern) (m : string) :
  JsRegExp.lang r m ->
  r = JsRegExp.Many (JsRegExp.Chars accepts) ->
  Forall (fun c => accepts c = true) (String.list_ascii_of_string m).
Proof.
  induction 1 as [| | | | | |p s t Hs _ Ht IH]; intros Hr; try done.
  injection Hr as ->. apply chars_inv in Hs as (c & -> & Hc).
  rewrite append_cons. change ("" +:+ t) with t. simpl. constructor; [done|].
  by apply IH.
Qed.

Lemma many_chars (accepts : ascii -> bool) (m : string) :
  JsRegExp.lang (JsRegExp.Many (JsRegExp.Chars accepts)) m
  <-> Forall (fun c => accepts c = true) (String.list_ascii_of_string m).
Proof.
  split; [intros H; by eapply many_chars_gen|].
  induction m as [|c m IH]; simpl; [constructor|].
  intros [Hc Hm]%Forall_cons. change (String c m) with (String c "" +:+ m).
  constructor; [by constructor|by apply IH].
Qed.

Lemma bucketNamePattern_lang (s : string) :
  JsRegExp.test bucketNamePattern s = true <-> wellFormedBucketName s.
Proof.
  rewrite test_lang. unfold bucketNamePattern, wellFormedBucketName. split.
  - intros (s1 & s2 & -> & (first & -> & Hfirst)%chars_inv & H2)%then_inv.
    apply then_inv in H2 as (m & z & -> & Hm%many_chars & (last & -> & Hlast)%chars_inv).
    by exists first, m, last.
  - intros (first & m & last & -> & Hfirst & Hlast & Hm).
    change (String first (m +:+ String last ""))
      with (String first "" +:+ m +:+ String last "").
    constructor; [by constructor|].
    constructor; [by apply many_chars|by constructor].
Qed.

(** X3. The name check of [POST /api/buckets], [/^[a-z0-9][a-z0-9-]*[a-z0-9]$/],
    accepts exactly the names that start and end with a lowercase letter or
    a digit and hold only lowercase letters, digits and hyphens in between;
    so a name of one character is refused. *)
Theorem bucket_name_pattern_accepts (s : string) :
  (JsRegExp.test bucketNamePattern s = true <-> wellFormedBucketName s)
  /\ (JsRegExp.test bucketNamePattern s = true -> (2 <= String.length s)%nat).
Proof.
  pose proof (bucketNamePattern_lang s) as Hiff.
  split; [done|].
  intros (first & m & last & -> & _)%Hiff. simpl.
  clear. induction m as [|c m IH]; simpl; lia.
Qed.

Example bucket_names :
  JsRegExp.test bucketNamePattern "vmaf-files" = true
  /\ JsRegExp.test bucketNamePattern "a" = false
  /\ JsRegExp.test bucketNamePattern "My-Bucket" = false
  /\ JsRegExp.test bucketNamePattern "videos-" = false
  /\ JsRegExp.test bucketNamePattern "s3://videos" = false.
Proof. vm_compute. done. Qed.

(** ** Buckets, files and folders *)

Lemma ensureBucketExists_fails (head : Answer unit) (bucket : option string)
    (e : S3Failure) (w : World) :
  send bucket head = Faulted e ->
  exists msg, ensureBucketExists head bucket w = (Throw msg, w).
Proof.
  intros He. unfold ensureBucketExists. rewrite He.
  destruct (_ || _); by eexists.
Qed.

(** X4. When the bucket check fails, whatever the reason, the caller answers 500
    with its own fixed message; the sentence [Bucket '...' does not exist.
    Please create it first.] that [ensureBucketExists] builds is never sent.
    Nothing is stored and no upload URL is signed. *)
Theorem bucket_check_failure_is_a_plain_500 (f : Faults) (head : Answer unit)
    (e : S3Failure) (bucket filename contentType folder folderName parentFolder
     : option string) (nowMs : N) (signed : Answer string) (listed : Answer Listing)
    (w : World) :
  send (JsString.orElse bucket (cfg_bucket (serverConfig w))) head = Faulted e ->
  uploadUrlHandler filename contentType folder bucket nowMs head signed w
  = (Ok (storageError 500 "Failed to generate upload URL"),
     set_console (console w ++ ["Error generating upload URL:"]) w)
  /\ filesHandler folder bucket head listed w
     = (Ok (storageError 500 "Failed to list files"),
        set_console (console w ++ ["Error listing files:"]) w)
  /\ (JsString.truthyOpt folderName = true ->
      JsText.includes (JsString.template folderName) "/" = false ->
      createFolderHandler f folderName parentFolder bucket head w
      = (Ok (storageError 500 "Failed to create folder"),
         set_console (console w ++ ["Error creating folder:"]) w)).
Proof.
  intros He.
  destruct (ensureBucketExists_fails _ _ _ w He) as [msg Hmsg].
  unfold uploadUrlHandler, filesHandler, createFolderHandler. unfold_M.
  rewrite Hmsg. split; [done|]. split; [done|].
  intros -> ->. simpl. by rewrite Hmsg.
Qed.

Lemma bucket_check_failure_witness :
  uploadUrlHandler (Some "a.mp4") (Some "video/mp4") None (Some "gone") 17
    (Faulted (mkS3Failure "NotFound" "Not Found")) (Served "https://signed")
    (emptyWorld demoConfig)
  = (Ok (storageError 500 "Failed to generate upload URL"),
     set_console ["Error generating upload URL:"] (emptyWorld demoConfig)).
Proof.
  apply (bucket_check_failure_is_a_plain_500 noFaults
           (Faulted (mkS3Failure "NotFound" "Not Found"))
           (mkS3Failure "NotFound" "Not Found") (Some "gone") (Some "a.mp4")
           (Some "video/mp4") None None None 17 (Served "https://signed")
           (Served (mkListing None None)) (emptyWorld demoConfig)).
  reflexivity.
Defined.

Lemma bucketNames_nonempty (buckets : option (list (option string))) :
  Forall (fun n => n <> "") (bucketNames buckets).
Proof.
  destruct buckets as [l|]; simpl; [|constructor].
  induction l as [|[n|] l IH]; simpl; [constructor| |done].
  destruct (JsString.truthy n) eqn:Hn; simpl; [|done].
  constructor; [|done]. intros ->. done.
Qed.

(** X5. [GET /api/buckets]. Without both storage credentials the answer is the
    empty list and the gateway is not asked. With AWS and a configured
    bucket the answer is that one bucket or a 400, whatever a listing of
    the buckets would give. Otherwise it is the listing, less the entries
    without a name, or a 500. No name in an answer is empty, and neither the
    stored objects nor the registry change. *)
Theorem buckets_route_answers (head : Answer unit)
    (listed listed' : Answer (option (list (option string)))) (w : World) :
  let config := serverConfig w in
  let r := bucketsHandler head listed w in
  jobs (snd r) = jobs w /\ s3 (snd r) = s3 w
  /\ (forall names, fst r = Ok (storageJson (BucketsJson names)) ->
                    Forall (fun n => n <> "") names)
  /\ (hasCredentials config = false ->
      forall head', bucketsHandler head' listed' w = (Ok (storageJson (BucketsJson [])), w))
  /\ (hasCredentials config = true -> awsWithBucket config = true ->
      fst r = fst (bucketsHandler head listed' w)
      /\ match head with
         | Served _ => r = (Ok (storageJson (BucketsJson [JsString.template (cfg_bucket config)])), w)
         | Faulted _ => exists msg, fst r = Ok (storageError 400 msg)
         end)
  /\ (hasCredentials config = true -> awsWithBucket config = false ->
      fst r = match listed with
              | Served buckets => Ok (storageJson (BucketsJson (bucketNames buckets)))
              | Faulted _ => Ok (storageError 500 "Failed to list buckets")
              end).
Proof.
  intros config r. subst r config.
  unfold bucketsHandler, hasCredentials, awsWithBucket, await. unfold_M.
  destruct w as [cfg js objs con log]. cbn [serverConfig jobs s3 fst snd].
  destruct (JsString.truthy (cfg_accessKey cfg)) eqn:Ha;
    destruct (JsString.truthy (cfg_secretKey cfg)) eqn:Hs; cbn [negb orb andb fst snd];
    try (repeat split; try done; intros names [= <-]; constructor).
  destruct (String.eqb (cfg_storageType cfg) "aws" && JsString.truthyOpt (cfg_bucket cfg))
    eqn:Haws; cbn [fst snd].
  - destruct (cfg_bucket cfg) as [b|] eqn:Hb;
      [|by rewrite andb_false_r in Haws].
    cbn [send]. destruct head as [[]|e]; cbn [fst snd].
    + repeat split; try done.
      intros names [= <-]. constructor; [|constructor].
      intros ->. by rewrite andb_false_r in Haws.
    + repeat split; try done. by eexists.
  - destruct listed as [buckets|e]; cbn [fst snd].
    + repeat split; try done. intros names [= <-]. apply bucketNames_nonempty.
    + repeat split; done.
Qed.

(** X6. [POST /api/buckets]. With AWS and a configured bucket, or with a name
    that is not well formed, the answer is a 400 and nothing else happens,
    whatever the gateway would answer. For a well-formed name the answer
    follows the [CreateBucketCommand] alone: success, 409 when the bucket
    exists already, 500 on any other error. A failure of the CORS call that
    follows is not reported, while the CORS route answers 500 for it. *)
Theorem create_bucket_outcomes (bucketName : option string) (created cors : Answer unit)
    (w : World) :
  let config := serverConfig w in
  let r := createBucketHandler bucketName created cors w in
  let refused msg := r = (Ok (storageError 400 msg), w) in
  jobs (snd r) = jobs w /\ s3 (snd r) = s3 w
  /\ (awsWithBucket config = true -> refused bucketRefused)
  /\ (awsWithBucket config = false ->
      (forall name, bucketName = Some name -> ~ wellFormedBucketName name) ->
      refused invalidBucketName)
  /\ (awsWithBucket config = false ->
      forall name, bucketName = Some name -> wellFormedBucketName name ->
      fst r = Ok (match created with
                  | Served _ => storageJson (BucketCreatedJson name)
                  | Faulted e => if alreadyExists e
                                then storageError 409 "Bucket already exists"
                                else storageError 500 "Failed to create bucket"
                  end))
  /\ (forall e name, cors = Faulted e ->
      fst (corsHandler name cors w) = Ok (storageError 500 "Failed to set CORS configuration")).
Proof.
  intros config r refused. subst r refused config.
  unfold createBucketHandler, corsHandler, await, consoleWarn, alreadyExists. unfold_M.
  destruct w as [cfg js objs con log]. cbn [serverConfig jobs s3 fst snd].
  assert (Hcheck : forall name,
            negb (JsString.truthy name) || negb (JsRegExp.test bucketNamePattern name)
            = false <-> wellFormedBucketName name).
  { intros name. rewrite <- bucketNamePattern_lang.
    destruct (JsString.truthy name) eqn:Hname; simpl.
    - by destruct (JsRegExp.test _ _).
    - destruct name; [|done]. split; [done|]. by vm_compute. }
  split_and!.
  - destruct (awsWithBucket cfg); [done|]. destruct (_ || _); [done|].
    destruct (send bucketName created); [|by destruct (_ || _)].
    by destruct (send bucketName cors).
  - destruct (awsWithBucket cfg); [done|]. destruct (_ || _); [done|].
    destruct (send bucketName created); [|by destruct (_ || _)].
    by destruct (send bucketName cors).
  - by intros ->.
  - intros -> Hno. destruct bucketName as [name|]; [|done].
    cbn [JsString.truthyOpt JsString.template].
    destruct (_ || _) eqn:Hc; [done|].
    apply Hcheck in Hc. by destruct (Hno name).
  - intros -> name -> Hname. cbn [JsString.truthyOpt JsString.template send].
    apply Hcheck in Hname as ->.
    destruct created as [[]|e]; [by destruct cors|].
    by destruct (_ || _).
  - by intros e name ->.
Qed.

(** *** Names in a listing *)

Lemma prefix_app (p s : string) : String.prefix p (p +:+ s) = true.
Proof.
  induction p as [|a p IH]; [by destruct s|].
  rewrite append_cons. simpl. destruct (ascii_dec a a); [done|congruence].
Qed.

Lemma dropChars_app (p s : string) : JsString.dropChars (String.length p) (p +:+ s) = s.
Proof. induction p as [|a p IH]; [done|]. by rewrite append_cons. Qed.

Lemma replace_unfold (s pat rep : string) :
  JsString.replace s pat rep
  = if String.prefix pat s then rep +:+ JsString.dropChars (String.length pat) s
    else match s with
         | EmptyString => EmptyString
         | String a s' => String a (JsString.replace s' pat rep)
         end.
Proof. by destruct s. Qed.

(** Replacing a leading occurrence removes it. *)
Lemma replace_leading (p s : string) : JsString.replace (p +:+ s) p "" = s.
Proof. by rewrite replace_unfold, prefix_app, dropChars_app. Qed.

Lemma replace_first_slash (n : string) :
  hasSlash n = false -> JsString.replace (n +:+ "/") "/" "" = n.
Proof.
  induction n as [|a n IH]; [done|]. cbn [hasSlash]. intros [Ha Hn]%orb_false_iff.
  rewrite append_cons, replace_unfold.
  assert (String.prefix "/" (String a (n +:+ "/")) = false) as ->.
  { cbn [String.prefix]. by destruct (ascii_dec "/" a) as [<-|_]. }
  by rewrite IH.
Qed.

Lemma folderItem_named (folder n : string) :
  hasSlash n = false ->
  folderItem folder (Some (folderPrefix folder +:+ n +:+ "/"))
  = Ok (mkFolderItem (folderPrefix folder +:+ n +:+ "/") n).
Proof.
  intros Hn. unfold folderItem. by rewrite replace_leading, replace_first_slash.
Qed.

Lemma split_nonempty (s : string) : exists h t, JsString.split s JsString.slash = h :: t.
Proof.
  induction s as [|a s (h & t & IH)]; simpl; [by eexists _, _|].
  destruct (Ascii.eqb a JsString.slash); [by eexists _, _|]. rewrite IH. by eexists _, _.
Qed.

Lemma split_no_slash (s : string) :
  hasSlash s = false -> JsString.split s JsString.slash = [s].
Proof.
  induction s as [|a s IH]; [done|]. simpl. intros [-> Hs]%orb_false_iff.
  by rewrite IH.
Qed.

Lemma split_two (s : string) :
  hasSlash s = true -> exists h x t, JsString.split s JsString.slash = h :: x :: t.
Proof.
  induction s as [|a s IH]; [done|]. simpl.
  destruct (Ascii.eqb a JsString.slash); simpl.
  - intros _. destruct (split_nonempty s) as (h & t & ->). by eexists _, _, _.
  - intros (h & x & t & ->)%IH. by eexists _, _, _.
Qed.

(** [key.split('/').pop()] is what follows the last slash of the key. *)
Lemma pop_split (s : string) :
  exists base,
    JsString.pop (JsString.split s JsString.slash) = Some base
    /\ s = prefixThroughLastSlash s +:+ base
    /\ hasSlash base = false.
Proof.
  unfold JsString.pop.
  induction s as [|a s (base & Hlast & Hs & Hbase)]; [by exists ""|].
  destruct (hasSlash (String a s)) eqn:Hslash.
  - exists base. cbn [prefixThroughLastSlash]. rewrite Hslash, append_cons, <- Hs.
    split; [|done]. simpl in *.
    destruct (Ascii.eqb a JsString.slash) eqn:Ha.
    + destruct (split_nonempty s) as (h & t & Hsplit). by rewrite Hsplit in *.
    + destruct (split_two s Hslash) as (h & x & t & Hsplit). by rewrite Hsplit in *.
  - exists (String a s). rewrite split_no_slash by done.
    cbn [prefixThroughLastSlash]. by rewrite Hslash.
Qed.

Lemma fileItem_named (obj : ObjectInfo) (key : string) :
  obj_Key obj = Some key ->
  exists file,
    fileItem obj = Ok file /\ file_key file = key /\ namedAfterLastSlash file
    /\ file_size file = obj_Size obj /\ file_lastModified file = obj_LastModified obj.
Proof.
  intros Hkey. unfold fileItem. rewrite Hkey.
  destruct (pop_split key) as (base & Hpop & Hsplit & Hbase).
  eexists. split; [done|]. split; [done|]. split; [|done].
  exists base. by rewrite Hpop.
Qed.

Lemma mapM_folderItem (folder : string) (names : list string) :
  Forall (fun n => hasSlash n = false) names ->
  mapM (folderItem folder)
       (List.map (fun n => Some (folderPrefix folder +:+ n +:+ "/")) names)
  = Ok (List.map (fun n => mkFolderItem (folderPrefix folder +:+ n +:+ "/") n) names).
Proof.
  induction 1 as [|n names Hn _ IH]; [done|].
  cbn [List.map mapM]. rewrite folderItem_named by done.
  cbn [mbind Exn_bind]. by rewrite IH.
Qed.

Lemma mapM_fileItem (objs : list ObjectInfo) :
  Forall (fun obj => is_Some (obj_Key obj)) objs ->
  exists files,
    mapM fileItem objs = Ok files
    /\ List.map file_key files = omap obj_Key objs
    /\ Forall namedAfterLastSlash files
    /\ List.map file_size files = List.map obj_Size objs.
Proof.
  induction 1 as [|obj objs [key Hkey] _ (files & Hrun & Hkeys & Hnames & Hsizes)].
  - by exists [].
  - destruct (fileItem_named obj key Hkey) as (file & Hfile & Hk & Hn & Hsz & _).
    exists (file :: files). cbn [mapM]. rewrite Hfile. cbn [mbind Exn_bind].
    rewrite Hrun. cbn [mbind Exn_bind List.map].
    split; [done|]. split; [|split; [by constructor|by rewrite Hsz, Hsizes]].
    change (omap obj_Key (obj :: objs))
      with (match obj_Key obj with
            | Some k => k :: omap obj_Key objs
            | None => omap obj_Key objs
            end).
    by rewrite Hkey, Hk, Hkeys.
Qed.

(** X7. [GET /api/files]. The reply of the gateway holds the common prefixes
    [<prefix><name>/] and the objects under the prefix. Each common prefix
    is listed as a folder under its name, with the prefix as key. The
    objects are listed as files, in order, less the one whose key is the
    prefix itself; the name of a file is what follows the last slash of its
    key, and its size is passed on. *)
Theorem files_route_names (queryFolder queryBucket : option string) (head : Answer unit)
    (names : list string) (objs : list ObjectInfo) (w : World) :
  let folder := JsString.template (JsString.orElse queryFolder (Some "")) in
  let prefix := folderPrefix folder in
  let shown := List.filter (fun obj => negb (bool_decide (obj_Key obj = Some prefix))) objs in
  send (JsString.orElse queryBucket (cfg_bucket (serverConfig w))) head = Served tt ->
  Forall (fun n => hasSlash n = false) names ->
  Forall (fun obj => is_Some (obj_Key obj)) objs ->
  exists files,
    filesHandler queryFolder queryBucket head (Served (listingOf prefix names objs)) w
    = (Ok (storageJson
             (FilesJson (List.map (fun n => mkFolderItem (prefix +:+ n +:+ "/") n) names)
                        files)), w)
    /\ List.map file_key files = omap obj_Key shown
    /\ Forall namedAfterLastSlash files
    /\ List.map file_size files = List.map obj_Size shown
    /\ Forall (fun file => file_key file <> prefix) files.
Proof.
  intros folder prefix shown Hhead Hnames Hobjs.
  assert (Hshown : Forall (fun obj => is_Some (obj_Key obj)) shown).
  { apply Forall_forall. intros obj [Hin _]%list_elem_of_In%filter_In.
    apply list_elem_of_In in Hin. by eapply Forall_forall in Hobjs. }
  destruct (mapM_fileItem shown Hshown) as (files & Hrun & Hkeys & Hnamed & Hsizes).
  exists files.
  unfold filesHandler, ensureBucketExists, await, listingOf. unfold_M.
  cbn [serverConfig fst snd]. rewrite Hhead.
  destruct (JsString.orElse queryBucket (cfg_bucket (serverConfig w))) as [b|] eqn:Hb;
    [|done].
  cbn [send CommonPrefixes Contents default id].
  fold folder. fold prefix. fold shown. subst prefix.
  rewrite mapM_folderItem by done. rewrite Hrun.
  split; [done|]. split; [done|]. split; [done|]. split; [done|].
  assert (Hne : Forall (fun k => k <> folderPrefix folder) (omap obj_Key shown)).
  { apply Forall_forall. intros k (obj & Hin & Hk)%list_elem_of_omap.
    apply list_elem_of_In in Hin. apply filter_In in Hin as [_ Hf].
    intros ->. rewrite Hk in Hf. by rewrite bool_decide_eq_true_2 in Hf. }
  rewrite <- Hkeys, Forall_map in Hne. exact Hne.
Qed.

Lemma files_route_witness :
  exists files,
    filesHandler (Some "clips") (Some "demo") (Served tt)
      (Served (listingOf "clips/" ["raw"]
                 [mkObjectInfo (Some "clips/") (Some 0%N) None;
                  mkObjectInfo (Some "clips/a.mp4") (Some 1024%N) None]))
      (emptyWorld demoConfig)
    = (Ok (storageJson (FilesJson [mkFolderItem "clips/raw/" "raw"] files)),
       emptyWorld demoConfig)
    /\ List.map file_key files = ["clips/a.mp4"].
Proof.
  destruct (files_route_names (Some "clips") (Some "demo") (Served tt) ["raw"]
              [mkObjectInfo (Some "clips/") (Some 0%N) None;
               mkObjectInfo (Some "clips/a.mp4") (Some 1024%N) None]
              (emptyWorld demoConfig))
    as (files & Hrun & Hkeys & _).
  - reflexivity.
  - by repeat constructor.
  - repeat constructor; by eexists.
  - exists files. split; [exact Hrun|exact Hkeys].
Defined.

(** *** Folders *)

Lemma includes_slash (s : string) : JsText.includes s "/" = hasSlash s.
Proof.
  induction s as [|a s IH]; [done|].
  cbn [JsText.includes hasSlash]. rewrite IH. f_equal.
  cbn [String.prefix]. destruct (ascii_dec "/" a) as [<-|Hne]; [by destruct s|].
  symmetry. apply Ascii.eqb_neq. intros ->. by destruct Hne.
Qed.

(** The last segment of [p/q] is [q]. *)
Lemma pop_split_app (p q : string) :
  hasSlash q = false ->
  JsString.pop (JsString.split (p +:+ String JsString.slash q) JsString.slash) = Some q.
Proof.
  intros Hq. unfold JsString.pop. induction p as [|a p IH].
  - change ("" +:+ ?x) with x. cbn [JsString.split].
    replace (Ascii.eqb JsString.slash JsString.slash) with true by done.
    by rewrite split_no_slash.
  - rewrite append_cons. cbn [JsString.split].
    assert (Hs : hasSlash (p +:+ String JsString.slash q) = true).
    { rewrite hasSlash_app. cbn [hasSlash].
      replace (Ascii.eqb JsString.slash JsString.slash) with true by done.
      by rewrite orb_true_r. }
    destruct (split_two _ Hs) as (h & x & t & Hsplit). rewrite Hsplit in *.
    by destruct (Ascii.eqb a JsString.slash).
Qed.

Lemma ensureBucketExists_served (bucket : option string) (w : World) :
  is_Some bucket -> ensureBucketExists (Served tt) bucket w = (Ok tt, w).
Proof. by intros [b ->]. Qed.

Lemma createFolderHandler_run (f : Faults) (folderName parentFolder bucket : option string)
    (head : Answer unit) (w : World) :
  let target := JsString.orElse bucket (cfg_bucket (serverConfig w)) in
  let marker := folderPath parentFolder folderName +:+ "/.keep" in
  let failed := (Ok (storageError 500 "Failed to create folder"),
                 set_console (console w ++ ["Error creating folder:"]) w) in
  createFolderHandler f folderName parentFolder bucket head w
  = if negb (JsString.truthyOpt folderName) || hasSlash (JsString.template folderName)
    then (Ok (storageError 400 "Invalid folder name"), w)
    else match target, head with
         | Some b, Served _ =>
             if f (PutObjectCommand (Some b) marker) then failed
             else (Ok (storageJson (FolderCreatedJson (folderPath parentFolder folderName))),
                   set_s3 (<[(b, marker) := Garbage]> (s3 w)) w)
         | _, _ => failed
         end.
Proof.
  intros target marker failed. subst failed.
  unfold createFolderHandler. unfold_M. cbn [fst snd]. fold target.
  rewrite includes_slash. destruct (_ || _); [done|].
  unfold ensureBucketExists, putObject, served. unfold_M.
  destruct target as [b|]; cbn [send]; [|done].
  destruct head as [[]|e]; [|by destruct (_ || _)].
  fold marker. by destruct (f _).
Qed.

(** X8. [POST /api/folders]. A folder name that is missing, empty or holds a
    slash is refused with a 400 and nothing happens, whatever the gateway
    would answer. For a valid name in an existing bucket the one effect is
    an empty object at [<path>/.keep], where [<path>] is the name under the
    parent folder. A listing of the new folder shows that object as a file
    named [.keep]: its key is not the prefix the files route leaves out.
    The registry is never touched, and no other object changes. *)
Theorem create_folder_effect (f : Faults) (folderName parentFolder bucket : option string)
    (head : Answer unit) (w : World) :
  let target := JsString.orElse bucket (cfg_bucket (serverConfig w)) in
  let r := createFolderHandler f folderName parentFolder bucket head w in
  let path := folderPath parentFolder folderName in
  let marker := path +:+ "/.keep" in
  jobs (snd r) = jobs w
  /\ (forall b k, s3 (snd r) !! (b, k) = s3 w !! (b, k)
                  \/ (target = Some b /\ k = marker
                      /\ s3 (snd r) !! (b, k) = Some Garbage))
  /\ ((forall n, folderName = Some n -> n = "" \/ hasSlash n = true) ->
      forall f' head',
        createFolderHandler f' folderName parentFolder bucket head' w
        = (Ok (storageError 400 "Invalid folder name"), w))
  /\ (forall n b, folderName = Some n -> n <> "" -> hasSlash n = false ->
      target = Some b -> head = Served tt ->
      f (PutObjectCommand (Some b) marker) = false ->
      r = (Ok (storageJson (FolderCreatedJson path)),
           set_s3 (<[(b, marker) := Garbage]> (s3 w)) w)
      /\ marker <> folderPrefix path
      /\ forall size modified,
           fileItem (mkObjectInfo (Some marker) size modified)
           = Ok (mkFileItem marker (Some ".keep") size modified)).
Proof.
  intros target r path marker. subst r.
  assert (Hrun := createFolderHandler_run f folderName parentFolder bucket head w).
  cbv zeta in Hrun. fold target path marker in Hrun.
  split_and!.
  - rewrite Hrun. destruct (_ || _); [done|].
    destruct target as [b|]; [|done]. destruct head; [|done]. by destruct (f _).
  - intros b' k. rewrite Hrun. destruct (_ || _); [by left|].
    destruct target as [b|]; [|by left]. destruct head; [|by left].
    destruct (f _); [by left|]. cbn [snd s3 set_s3].
    destruct (decide ((b', k) = (b, marker))) as [[= -> ->]|Hne].
    + right. by rewrite lookup_insert_eq.
    + left. by rewrite lookup_insert_ne.
  - intros Hbad f' head'. rewrite createFolderHandler_run.
    destruct folderName as [n|]; [|done]. cbn [JsString.truthyOpt JsString.template].
    destruct (Hbad n eq_refl) as [Hn|Hn]; rewrite Hn; [done|by rewrite orb_true_r].
  - intros n b -> Hn Hslash Htarget -> Hput. rewrite Hrun, Htarget, Hput.
    cbn [JsString.truthyOpt JsString.template]. rewrite Hslash.
    assert (JsString.truthy n = true) as -> by by destruct n.
    cbn [negb orb]. split; [done|].
    assert (Hpath : path <> "").
    { subst path. unfold folderPath. cbn [JsString.template].
      destruct (JsString.truthyOpt parentFolder).
      - by destruct (JsString.template parentFolder).
      - done. }
    split.
    + subst marker. unfold folderPrefix.
      destruct (JsString.truthy path) eqn:Hp; [|by destruct path].
      intros Heq. by apply (inj (String.app path)) in Heq.
    + intros size modified. unfold fileItem. cbn [obj_Key obj_Size obj_LastModified].
      subst marker. change (path +:+ "/.keep") with (path +:+ String JsString.slash ".keep").
      by rewrite pop_split_app.
Qed.

(** *** Deleting files and folders *)

Lemma deleteFileHandler_run (decode : string -> Exn string) (f : Faults)
    (param : string) (w : World) :
  let failed := (Ok (storageError 500 "Failed to delete file"),
                 set_console (console w ++ ["Error deleting file:"]) w) in
  deleteFileHandler decode f param w
  = match decode param, cfg_bucket (serverConfig w) with
    | Ok key, Some b =>
        if f (DeleteObjectCommand (Some b) key) then failed
        else (Ok (storageJson DoneJson), set_s3 (delete (b, key) (s3 w)) w)
    | _, _ => failed
    end.
Proof.
  intros failed. subst failed.
  unfold deleteFileHandler, deleteObject, served. unfold_M. cbn [fst snd].
  destruct (decode param) as [key|e]; [|done].
  destruct (cfg_bucket (serverConfig w)) as [b|]; [|by destruct (f _)].
  by destruct (f _).
Qed.

(** X9. [DELETE /api/files/<key>]. The request names no bucket: the object is
    deleted in the bucket of the server configuration, whichever bucket the
    client is looking at. The answer is success when the gateway serves the
    deletion, the object being there or not, and 500 otherwise (no
    configured bucket, a key that does not decode, a gateway error). No
    other object and no registry entry changes. *)
Theorem delete_file_effect (decode : string -> Exn string) (f : Faults)
    (param : string) (w : World) :
  let r := deleteFileHandler decode f param w in
  jobs (snd r) = jobs w
  /\ (forall b k, s3 (snd r) !! (b, k) = s3 w !! (b, k)
                  \/ (cfg_bucket (serverConfig w) = Some b /\ decode param = Ok k
                      /\ s3 (snd r) !! (b, k) = None
                      /\ fst r = Ok (storageJson DoneJson)))
  /\ (forall b key,
        cfg_bucket (serverConfig w) = Some b -> decode param = Ok key ->
        f (DeleteObjectCommand (Some b) key) = false ->
        r = (Ok (storageJson DoneJson), set_s3 (delete (b, key) (s3 w)) w)
        /\ fst (deleteFileHandler decode f param (snd r)) = Ok (storageJson DoneJson))
  /\ (cfg_bucket (serverConfig w) = None ->
      r = (Ok (storageError 500 "Failed to delete file"),
           set_console (console w ++ ["Error deleting file:"]) w)).
Proof.
  intros r. subst r. rewrite deleteFileHandler_run. split_and!.
  - destruct (decode param); [|done].
    destruct (cfg_bucket _); [|done]. by destruct (f _).
  - intros b' k. destruct (decode param) as [key|]; [|by left].
    destruct (cfg_bucket _) as [b|]; [|by left].
    destruct (f _); [by left|]. cbn [fst snd s3 set_s3].
    destruct (decide ((b', k) = (b, key))) as [[= -> ->]|Hne].
    + right. by rewrite lookup_delete_eq.
    + left. by rewrite lookup_delete_ne.
  - intros b key Hb Hkey Hf. rewrite Hkey, Hb, Hf. split; [done|].
    rewrite deleteFileHandler_run. cbn [snd serverConfig set_s3].
    by rewrite Hkey, Hb, Hf.
  - intros ->. by destruct (decode param).
Qed.

Lemma withoutKeys_lookup (rejected : string -> bool) (b : string) (keys : list string)
    (objects : gmap (string * string) Body) (b' k : string) :
  withoutKeys rejected b keys objects !! (b', k)
  = if bool_decide (b' = b /\ k ∈ keys) && negb (rejected k) then None
    else objects !! (b', k).
Proof.
  induction keys as [|key keys IH]; cbn [withoutKeys foldr].
  - rewrite bool_decide_eq_false_2; [done|]. intros [_ Hin]. by apply elem_of_nil in Hin.
  - fold (withoutKeys rejected b keys objects).
    destruct (rejected key) eqn:Hrej.
    + rewrite IH. destruct (decide (k = key)) as [->|Hne].
      * rewrite Hrej, !andb_false_r. done.
      * by rewrite (bool_decide_ext (b' = b /\ k ∈ key :: keys) (b' = b /\ k ∈ keys))
          by (rewrite elem_of_cons; split;
              [intros [-> [->|?]]; done|intros [? ?]; split; [done|by right]]).
    + destruct (decide ((b', k) = (b, key))) as [[= -> ->]|Hne].
      * rewrite lookup_delete_eq, Hrej, bool_decide_eq_true_2; [done|].
        split; [done|]. by left.
      * rewrite lookup_delete_ne by done. rewrite IH.
        by rewrite (bool_decide_ext (b' = b /\ k ∈ key :: keys) (b' = b /\ k ∈ keys))
          by (rewrite elem_of_cons; split;
              [intros [-> [->|?]]; done|intros [? ?]; split; [done|by right]]).
Qed.

Lemma deleteFolderHandler_run (decode : string -> Exn string) (f : Faults)
    (fault : option string) (rejected : string -> bool) (param : string) (w : World) :
  let failed := (Ok (storageError 500 "Failed to delete folder"),
                 set_console (console w ++ ["Error deleting folder:"]) w) in
  deleteFolderHandler decode f fault rejected param w
  = match decode param, cfg_bucket (serverConfig w) with
    | Ok folder, Some b =>
        if f (ListObjectsV2Command (Some b) (folder +:+ "/")) then failed
        else match take maxKeys (keysUnder b (folder +:+ "/") (s3 w)), fault with
             | [], _ => (Ok (storageJson DoneJson), w)
             | keys, None =>
                 (Ok (storageJson DoneJson),
                  set_s3 (withoutKeys rejected b keys (s3 w)) w)
             | _, Some _ => failed
             end
    | _, _ => failed
    end.
Proof.
  intros failed. subst failed.
  unfold deleteFolderHandler, listObjectsPage, deleteObjects, served, settle. unfold_M.
  cbn [fst snd].
  destruct (decode param) as [folder|e]; [|done].
  destruct (cfg_bucket (serverConfig w)) as [b|]; [|by destruct (f _)].
  destruct (f _); [done|]. cbn [fst snd].
  destruct (take maxKeys _) as [|k ks]; [done|]. by destruct fault.
Qed.

(** X10. [DELETE /api/folders/<folder>]. One page of keys under [<folder>/] is
    listed in the configured bucket, and those keys are deleted in one
    batch. Only objects of that bucket whose key starts with [<folder>/]
    can go; the registry is not touched. When both calls are served the
    answer is success, even for keys the gateway refused to delete, and the
    objects that are gone are the listed ones that were not refused. If the
    folder holds no more keys than one page and none is refused, nothing is
    left under [<folder>/]. *)
Theorem delete_folder_effect (decode : string -> Exn string) (f : Faults)
    (fault : option string) (rejected : string -> bool) (param : string) (w : World) :
  let r := deleteFolderHandler decode f fault rejected param w in
  jobs (snd r) = jobs w
  /\ (forall b k, s3 (snd r) !! (b, k) = s3 w !! (b, k)
                  \/ (exists folder,
                        decode param = Ok folder
                        /\ cfg_bucket (serverConfig w) = Some b
                        /\ JsString.startsWith k (folder +:+ "/") = true
                        /\ s3 (snd r) !! (b, k) = None))
  /\ (forall folder b,
        decode param = Ok folder -> cfg_bucket (serverConfig w) = Some b ->
        f (ListObjectsV2Command (Some b) (folder +:+ "/")) = false -> fault = None ->
        let under := keysUnder b (folder +:+ "/") (s3 w) in
        fst r = Ok (storageJson DoneJson)
        /\ (forall b' k,
              s3 (snd r) !! (b', k)
              = if bool_decide (b' = b /\ k ∈ take maxKeys under) && negb (rejected k)
                then None else s3 w !! (b', k))
        /\ ((length under <= maxKeys)%nat -> (forall k, rejected k = false) ->
            keysUnder b (folder +:+ "/") (s3 (snd r)) = [])).
Proof.
  intros r. subst r. rewrite deleteFolderHandler_run. split_and!.
  - destruct (decode param); [|done]. destruct (cfg_bucket _); [|done].
    destruct (f _); [done|]. destruct (take _ _); [done|]. by destruct fault.
  - intros b' k. destruct (decode param) as [folder|]; [|by left].
    destruct (cfg_bucket _) as [b|]; [|by left].
    destruct (f _); [by left|].
    destruct (take maxKeys _) as [|key keys] eqn:Htake; [by left|].
    destruct fault; [by left|]. cbn [snd s3 set_s3].
    rewrite withoutKeys_lookup. rewrite <- Htake.
    destruct (bool_decide _) eqn:Hin; cbn [andb]; [|by left].
    destruct (rejected k); cbn [negb]; [by left|].
    apply bool_decide_eq_true in Hin as [-> Hin].
    right. exists folder. split_and!; try done.
    apply elem_of_take in Hin as (i & Hi & _).
    apply list_elem_of_lookup_2 in Hi. by apply keysUnder_spec in Hi as [_ ?].
  - intros folder b Hfolder Hb Hf -> under. rewrite Hfolder, Hb, Hf.
    fold under.
    assert (Hlook : forall b' k,
              s3 (snd (match take maxKeys under with
                       | [] => (Ok (storageJson DoneJson), w)
                       | _ :: _ =>
                           (Ok (storageJson DoneJson),
                            set_s3 (withoutKeys rejected b (take maxKeys under) (s3 w)) w)
                       end)) !! (b', k)
              = if bool_decide (b' = b /\ k ∈ take maxKeys under) && negb (rejected k)
                then None else s3 w !! (b', k)).
    { intros b' k. destruct (take maxKeys under) as [|key keys] eqn:Htake.
      - rewrite bool_decide_eq_false_2; [done|].
        intros [_ Hin]. by apply elem_of_nil in Hin.
      - cbn [snd s3 set_s3]. by rewrite withoutKeys_lookup. }
    split_and!.
    + by destruct (take maxKeys under).
    + intros b' k. rewrite <- Hlook. by destruct (take maxKeys under).
    + intros Hlen Hrej.
      match goal with |- keysUnder _ _ (s3 (snd ?x)) = [] => set (r := x) in * end.
      assert (Hr : forall b' k,
                s3 (snd r) !! (b', k)
                = if bool_decide (b' = b /\ k ∈ under) then None else s3 w !! (b', k)).
      { intros b' k. subst r.
        transitivity (if bool_decide (b' = b /\ k ∈ take maxKeys under) && negb (rejected k)
                      then None else s3 w !! (b', k)).
        - rewrite <- Hlook. by destruct (take maxKeys under).
        - rewrite Hrej, take_ge by done. by rewrite andb_true_r. }
      destruct (keysUnder b (folder +:+ "/") (s3 (snd r))) as [|k ks] eqn:Hleft; [done|].
      assert (Hk : k ∈ keysUnder b (folder +:+ "/") (s3 (snd r)))
        by (rewrite Hleft; by left).
      apply keysUnder_spec in Hk as [[body Hbody] Hprefix].
      rewrite Hr in Hbody. destruct (bool_decide _) eqn:Hd; [done|].
      apply bool_decide_eq_false in Hd. destruct Hd. split; [done|].
      apply keysUnder_spec. split; [by eexists|done].
Qed.

(** *** Upload keys *)

Lemma hasSlash_pretty_N_go (x : N) : forall s : string,
  hasSlash (pretty_N_go x s) = hasSlash s.
Proof.
  induction (N.lt_wf_0 x) as [x _ IH]; intros s.
  assert (x = 0 \/ 0 < x)%N as [->|Hx] by lia; [done|].
  rewrite pretty_N_go_step by done. rewrite IH by (by apply N.div_lt).
  cbn [hasSlash]. unfold pretty_N_char. by repeat case_match.
Qed.

(** A decimal numeral holds no slash. *)
Lemma hasSlash_pretty (n : N) : hasSlash (pretty n) = false.
Proof.
  unfold pretty, pretty_N. case_decide; [done|]. by rewrite hasSlash_pretty_N_go.
Qed.

Lemma fileItem_no_slash (key : string) (size : option N) (modified : option string) :
  hasSlash key = false ->
  fileItem (mkObjectInfo (Some key) size modified)
  = Ok (mkFileItem key (Some key) size modified).
Proof.
  intros Hkey. unfold fileItem. cbn [obj_Key obj_Size obj_LastModified].
  by rewrite split_no_slash.
Qed.

(** X11. [POST /api/upload-url]. In an existing bucket the answer carries the
    signed URL and the key the object will have; nothing changes on the
    server. With a folder the key is [<folder>/<filename>], and a later
    listing names the file by its filename. Without a folder the key is
    [<Date.now()>-<filename>], and a later listing names the file by that
    whole key, not by its filename. *)
Theorem upload_key_and_listed_name (filename contentType folder bucket : option string)
    (name url : string) (nowMs : N) (size : option N) (modified : option string)
    (w : World) :
  is_Some (JsString.orElse bucket (cfg_bucket (serverConfig w))) ->
  filename = Some name -> hasSlash name = false ->
  let key := if JsString.truthyOpt folder
             then JsString.template folder +:+ "/" +:+ name
             else pretty nowMs +:+ "-" +:+ name in
  uploadUrlHandler filename contentType folder bucket nowMs (Served tt) (Served url) w
  = (Ok (storageJson (UploadUrlJson url key)), w)
  /\ fileItem (mkObjectInfo (Some key) size modified)
     = Ok (mkFileItem key
             (Some (if JsString.truthyOpt folder then name else key)) size modified).
Proof.
  intros Hbucket -> Hname key. split.
  - unfold uploadUrlHandler, await. unfold_M. cbn [fst snd].
    by rewrite ensureBucketExists_served.
  - subst key. destruct (JsString.truthyOpt folder).
    + unfold fileItem. cbn [obj_Key obj_Size obj_LastModified].
      change (JsString.template folder +:+ "/" +:+ name)
        with (JsString.template folder +:+ String JsString.slash name).
      by rewrite pop_split_app.
    + apply fileItem_no_slash. rewrite !hasSlash_app, hasSlash_pretty. by rewrite Hname.
Qed.

Lemma upload_key_witness :
  uploadUrlHandler (Some "a.mp4") (Some "video/mp4") None (Some "demo") 1700000000000
    (Served tt) (Served "https://signed") (emptyWorld demoConfig)
  = (Ok (storageJson (UploadUrlJson "https://signed" "1700000000000-a.mp4")),
     emptyWorld demoConfig)
  /\ fileItem (mkObjectInfo (Some "1700000000000-a.mp4") None None)
     = Ok (mkFileItem "1700000000000-a.mp4" (Some "1700000000000-a.mp4") None None).
Proof.
  apply (upload_key_and_listed_name (Some "a.mp4") (Some "video/mp4") None (Some "demo")
           "a.mp4" "https://signed" 1700000000000 None None (emptyWorld demoConfig)).
  - by eexists.
  - reflexivity.
  - reflexivity.
Defined.

(** ** The settings form *)

Lemma truthy_masked (secret : string) :
  JsString.truthy (masked secret) = JsString.truthy secret.
Proof. unfold masked. by destruct (JsString.truthy secret) eqn:H. Qed.

Lemma substring_whole (s : string) : String.substring 0 (String.length s) s = s.
Proof. induction s as [|a s IH]; [done|]. cbn. by rewrite IH. Qed.

Lemma substring_skip (p s : string) (n : nat) :
  String.substring (String.length p) n (p +:+ s) = String.substring 0 n s.
Proof. induction p as [|a p IH]; [done|]. rewrite append_cons. by cbn. Qed.

Lemma length_append (p s : string) :
  String.length (p +:+ s) = (String.length p + String.length s)%nat.
Proof. induction p as [|a p IH]; [done|]. rewrite append_cons. cbn. by rewrite IH. Qed.

(** [("s3://" + b).substring(5)] is [b]. *)
Lemma substringFrom_scheme (b : string) : JsString.substringFrom ("s3://" +:+ b) 5 = b.
Proof.
  unfold JsString.substringFrom, JsString.substring, JsString.clamp.
  rewrite length_append. change (String.length "s3://") with 5%nat.
  replace (Z.to_nat (Z.min _ _)) with (String.length "s3://") by (cbn; lia).
  rewrite substring_skip.
  replace (Z.to_nat _) with (String.length b) by lia.
  apply substring_whole.
Qed.

Lemma startsWith_scheme (s : string) :
  JsString.startsWith s "s3://" = true -> exists b, s = "s3://" +:+ b.
Proof.
  unfold JsString.startsWith. intros H.
  do 5 (destruct s as [|? s]; [done|]; cbn [String.prefix] in H;
        match type of H with
        | context [ascii_dec ?x ?y] => destruct (ascii_dec x y) as [<-|]; [|done]
        end).
  by exists s.
Qed.

Lemma length_stripTrailingSlashes (s : string) :
  (String.length (JsString.stripTrailingSlashes s) <= String.length s)%nat.
Proof.
  induction s as [|a s IH]; [done|]. cbn [JsString.stripTrailingSlashes].
  destruct (JsString.stripTrailingSlashes s) eqn:Hs.
  - destruct (Ascii.eqb a JsString.slash); cbn; lia.
  - cbn in *. lia.
Qed.

(** A clean bucket name has no [s3://] in front and no slash at its end. *)
Lemma cleanName_inv (b : string) :
  cleanBucket b = b ->
  JsString.startsWith b "s3://" = false /\ JsString.stripTrailingSlashes b = b.
Proof.
  unfold cleanBucket. destruct (JsString.startsWith b "s3://") eqn:Hs; [|done].
  intros Heq. exfalso. apply startsWith_scheme in Hs as [rest ->].
  rewrite substringFrom_scheme in Heq.
  pose proof (length_stripTrailingSlashes rest) as Hlen.
  rewrite Heq, length_append in Hlen. cbn in Hlen. lia.
Qed.

Lemma startsWith_app (p s : string) : JsString.startsWith (p +:+ s) p = true.
Proof. apply prefix_app. Qed.

Lemma S3Config_ext (c1 c2 : S3Config) :
  cfg_storageType c1 = cfg_storageType c2 ->
  cfg_endpoint c1 = cfg_endpoint c2 ->
  cfg_accessKey c1 = cfg_accessKey c2 ->
  cfg_secretKey c1 = cfg_secretKey c2 ->
  cfg_bucket c1 = cfg_bucket c2 ->
  cfg_region c1 = cfg_region c2 ->
  cfg_oscToken c1 = cfg_oscToken c2 ->
  c1 = c2.
Proof. destruct c1, c2. cbn. by intros -> -> -> -> -> -> ->. Qed.

(** What a post does to each public field. *)
Lemma postConfigHandler_storageType (body : ConfigPost) (c : S3Config) :
  cfg_storageType (postConfigHandler body c)
  = default (cfg_storageType c) (post_storageType body).
Proof. post_cases body. Qed.

Lemma postConfigHandler_region (body : ConfigPost) (c : S3Config) :
  cfg_region (postConfigHandler body c)
  = match post_region body with
    | Some v => Some v
    | None => cfg_region c
    end.
Proof. post_cases body. Qed.

Lemma postConfigHandler_endpoint (body : ConfigPost) (c : S3Config) :
  cfg_endpoint (postConfigHandler body c)
  = match post_endpoint body, post_storageType body with
    | Some v, _ => Some v
    | None, Some storageType =>
        if String.eqb storageType "s3-compatible" then cfg_endpoint c
        else if String.eqb storageType "aws" then None
        else cfg_endpoint c
    | None, None => cfg_endpoint c
    end.
Proof. post_cases body. Qed.

Lemma postConfigHandler_bucket (body : ConfigPost) (c : S3Config) :
  cfg_bucket (postConfigHandler body c)
  = match post_bucket body, post_storageType body with
    | Some v, _ => Some (cleanBucket v)
    | None, Some storageType =>
        if String.eqb storageType "s3-compatible" then None else cfg_bucket c
    | None, None => cfg_bucket c
    end.
Proof. post_cases body. Qed.

(** What the form posts when it is opened and saved as it is. *)
Lemma submitData_unchanged (c : S3Config) :
  cleanName (cfg_bucket c) ->
  let compatible := String.eqb (cfg_storageType c) "s3-compatible" in
  let aws := String.eqb (cfg_storageType c) "aws" in
  submitData (settingsOpened (getConfigHandler c))
  = mkConfigView (cfg_storageType c)
      (if compatible then cfg_endpoint c else if aws then Some "" else cfg_endpoint c)
      (cfg_region c)
      (if compatible then Some "" else cfg_bucket c)
      (masked (cfg_accessKey c)) (masked (cfg_secretKey c)) (masked (cfg_oscToken c)).
Proof.
  intros Hclean compatible aws. subst compatible aws.
  destruct c as [st ep ak sk bk rg tk].
  unfold cleanName in Hclean. cbn [cfg_bucket] in Hclean.
  unfold submitData, settingsOpened, getConfigHandler.
  cbn [cfg_storageType cfg_endpoint cfg_accessKey cfg_secretKey cfg_bucket cfg_region
       cfg_oscToken view_storageType view_bucket].
  destruct (String.eqb st "aws") eqn:Haws.
  - apply String.eqb_eq in Haws as ->. cbn [String.eqb Ascii.eqb Bool.eqb andb].
    destruct bk as [b|]; [|reflexivity].
    destruct (cleanName_inv b (Hclean b eq_refl)) as [Hscheme Hstrip].
    cbn [JsString.truthyOpt JsString.template]. rewrite Hscheme.
    destruct (JsString.truthy b) eqn:Hb; cbn [andb negb].
    + cbn [with_view_bucket with_view_endpoint view_storageType view_bucket
           String.eqb Ascii.eqb Bool.eqb JsString.truthyOpt JsString.template].
      assert (JsString.truthy ("s3://" +:+ b) = true) as -> by done.
      by rewrite startsWith_app, substringFrom_scheme, Hstrip.
    + cbn [with_view_bucket with_view_endpoint view_storageType view_bucket
           String.eqb Ascii.eqb Bool.eqb JsString.truthyOpt JsString.template].
      by rewrite Hb.
  - cbn [andb view_storageType view_bucket].
    destruct (String.eqb st "s3-compatible") eqn:Hcompat; [reflexivity|].
    rewrite Haws.
    destruct bk as [b|]; [|reflexivity].
    destruct (cleanName_inv b (Hclean b eq_refl)) as [Hscheme Hstrip].
    cbn [JsString.truthyOpt JsString.template view_bucket].
    destruct (JsString.truthy b) eqn:Hb; [|reflexivity].
    by rewrite Hscheme, Hstrip.
Qed.

(** X12. Opening the settings and saving them unchanged is not the identity on
    the server configuration. With storage type [s3-compatible] the bucket
    becomes the empty string, whatever it was; with [aws] the endpoint
    becomes the empty string. Everything else, the three secrets included,
    stays as it is (the bucket name being one that the server stored). *)
Theorem saving_unchanged_settings (c : S3Config) :
  cleanName (cfg_bucket c) ->
  saveSettings id c
  = if String.eqb (cfg_storageType c) "s3-compatible" then set_bucket (Some "") c
    else if String.eqb (cfg_storageType c) "aws" then set_endpoint (Some "") c
    else c.
Proof.
  intros Hclean. unfold saveSettings, id. rewrite submitData_unchanged by done.
  assert (Hbucket : forall b, cfg_bucket c = Some b -> cleanBucket b = b) by done.
  clear Hclean.
  apply S3Config_ext;
    rewrite ?postConfigHandler_storageType, ?postConfigHandler_endpoint,
      ?postConfigHandler_accessKey, ?postConfigHandler_secretKey,
      ?postConfigHandler_bucket, ?postConfigHandler_region, ?postConfigHandler_oscToken;
    cbn [postBack post_storageType post_endpoint post_region post_bucket post_accessKey
         post_secretKey post_oscToken view_storageType view_endpoint view_region
         view_bucket view_accessKey view_secretKey view_oscToken default];
    rewrite ?masked_posted_back;
    destruct c as [st ep ak sk bk rg tk];
    cbn [cfg_storageType cfg_endpoint cfg_accessKey cfg_secretKey cfg_bucket cfg_region
         cfg_oscToken] in *;
    destruct (String.eqb st "s3-compatible") eqn:Hcompat;
    destruct (String.eqb st "aws") eqn:Haws;
    rewrite ?Hcompat, ?Haws;
    cbn [set_bucket set_endpoint cfg_storageType cfg_endpoint cfg_accessKey
         cfg_secretKey cfg_bucket cfg_region cfg_oscToken];
    try reflexivity.
  all: try (destruct ep; reflexivity).
  all: try (destruct rg; reflexivity).
  all: destruct bk as [b|]; rewrite ?(Hbucket b eq_refl), ?Hcompat; reflexivity.
Qed.

Lemma saving_unchanged_settings_witness :
  saveSettings id deployedConfig = set_bucket (Some "") deployedConfig.
Proof.
  apply (saving_unchanged_settings deployedConfig).
  intros b [= <-]. reflexivity.
Defined.

(** X13. [POST /api/config] is a partial update of the public fields. The
    storage type and the region are replaced when they are posted, by
    whatever string is posted. A posted endpoint is stored as it is and a
    posted bucket is stored cleaned. A field that is not posted keeps its
    value, except that a post of the storage type [s3-compatible] clears
    the bucket and a post of [aws] clears the endpoint. *)
Theorem config_post_is_a_partial_update (body : ConfigPost) (c : S3Config) :
  let c' := postConfigHandler body c in
  cfg_storageType c' = default (cfg_storageType c) (post_storageType body)
  /\ cfg_region c' = (if post_region body is Some v then Some v else cfg_region c)
  /\ cfg_endpoint c'
     = (if post_endpoint body is Some v then Some v
        else if post_storageType body is Some "aws" then None
        else cfg_endpoint c)
  /\ cfg_bucket c'
     = (if post_bucket body is Some v then Some (cleanBucket v)
        else if post_storageType body is Some "s3-compatible" then None
        else cfg_bucket c).
Proof.
  intros c'. subst c'.
  rewrite postConfigHandler_storageType, postConfigHandler_region,
    postConfigHandler_endpoint, postConfigHandler_bucket.
  split; [done|]. split; [done|]. split.
  - destruct (post_endpoint body); [done|].
    destruct (post_storageType body) as [st|]; [|done].
    destruct (String.eqb st "s3-compatible") eqn:Hc.
    { apply String.eqb_eq in Hc as ->. done. }
    destruct (String.eqb st "aws") eqn:Ha.
    { apply String.eqb_eq in Ha as ->. done. }
    apply String.eqb_neq in Ha. by repeat case_match.
  - destruct (post_bucket body); [done|].
    destruct (post_storageType body) as [st|]; [|done].
    destruct (String.eqb st "s3-compatible") eqn:Hc.
    { apply String.eqb_eq in Hc as ->. done. }
    apply String.eqb_neq in Hc. by repeat case_match.
Qed.

(** ** Is the backend configured? *)

(** X14. The client decides from the masked answer of [GET /api/config] what the
    server decides from the configuration itself for [GET /api/jobs], and
    asks for the OSC token on top: masking loses nothing that the decision
    needs. So a client that takes the backend as configured never gets the
    empty job list of an unconfigured server. *)
Theorem client_configured_iff (c : S3Config) :
  checkConfiguration (getConfigHandler c)
  = isConfigured c && JsString.truthy (cfg_oscToken c).
Proof.
  unfold checkConfiguration, isConfigured, getConfigHandler.
  cbn [view_storageType view_endpoint view_region view_bucket view_accessKey
       view_secretKey view_oscToken].
  rewrite !truthy_masked. by destruct (String.eqb _ _).
Qed.

(** ** The score circle *)

Lemma Qle_bool_false (x y : Q) : Qle_bool x y = false <-> y < x.
Proof.
  split.
  - intros H. apply Qnot_le_lt. intros Hle%Qle_bool_iff. congruence.
  - intros H. apply not_true_is_false. intros Hle%Qle_bool_iff.
    by apply Qle_not_lt in Hle.
Qed.

Lemma drawn_iff (filled : Q) : VmafScoreCircle.drawn filled = true <-> 0 < filled.
Proof. unfold VmafScoreCircle.drawn. by rewrite negb_true_iff, Qle_bool_false. Qed.

Ltac q_cases :=
  unfold VmafScoreCircle.redFilled, VmafScoreCircle.orangeFilled,
         VmafScoreCircle.yellowFilled, VmafScoreCircle.greenFilled in *;
  repeat match goal with
         | |- context [Qmin ?a ?b] =>
             let m := fresh "m" in
             destruct (Q.min_spec a b) as [[? ?]|[? ?]];
             set (m := Qmin a b) in *; clearbody m
         | |- context [Qmax ?a ?b] =>
             let m := fresh "m" in
             destruct (Q.max_spec a b) as [[? ?]|[? ?]];
             set (m := Qmax a b) in *; clearbody m
         | H0 : context [Qmin ?a ?b] |- _ =>
             let m := fresh "m" in
             destruct (Q.min_spec a b) as [[? ?]|[? ?]];
             set (m := Qmin a b) in *; clearbody m
         | H0 : context [Qmax ?a ?b] |- _ =>
             let m := fresh "m" in
             destruct (Q.max_spec a b) as [[? ?]|[? ?]];
             set (m := Qmax a b) in *; clearbody m
         end.

(** X15. The lit parts of the four zones add up to the score, capped at 100; a
    zone is lit exactly when the score is above its lower bound (0, 55, 70,
    95). The number has the colour of the highest lit zone, except on the
    bounds 55, 70 and 95 themselves, where it already has the colour of the
    zone that starts there while nothing of that zone is lit. *)
Theorem score_circle_zones (score : Q) :
  VmafScoreCircle.redFilled score + VmafScoreCircle.orangeFilled score
  + VmafScoreCircle.yellowFilled score + VmafScoreCircle.greenFilled score
  == Qmin score 100
  /\ (VmafScoreCircle.drawn (VmafScoreCircle.redFilled score) = true <-> 0 < score)
  /\ (VmafScoreCircle.drawn (VmafScoreCircle.orangeFilled score) = true <-> 55 < score)
  /\ (VmafScoreCircle.drawn (VmafScoreCircle.yellowFilled score) = true <-> 70 < score)
  /\ (VmafScoreCircle.drawn (VmafScoreCircle.greenFilled score) = true <-> 95 < score)
  /\ VmafScoreCircle.getColor score
     = (if Qle_bool 95 score then "#4ade80"
        else if VmafScoreCircle.drawn (VmafScoreCircle.yellowFilled score)
                || Qeq_bool score 70 then "#facc15"
        else if VmafScoreCircle.drawn (VmafScoreCircle.orangeFilled score)
                || Qeq_bool score 55 then "#fb923c"
        else "#f87171").
Proof.
  split_and!.
  - q_cases; lra.
  - rewrite drawn_iff. split; intros; q_cases; lra.
  - rewrite drawn_iff. split; intros; q_cases; lra.
  - rewrite drawn_iff. split; intros; q_cases; lra.
  - rewrite drawn_iff. split; intros; q_cases; lra.
  - unfold VmafScoreCircle.getColor.
    destruct (Qle_bool 95 score) eqn:H95; [done|].
    destruct (Qle_bool 70 score) eqn:H70.
    + apply Qle_bool_iff in H70.
      destruct (Qeq_bool score 70) eqn:Heq; [by rewrite orb_true_r|].
      apply Qeq_bool_neq in Heq.
      assert (VmafScoreCircle.drawn (VmafScoreCircle.yellowFilled score) = true) as ->;
        [|done].
      apply drawn_iff. assert (70 < score) by (apply Qle_lt_or_eq in H70 as [?|?]; [done|]; by destruct Heq).
      q_cases; lra.
    + apply Qle_bool_false in H70.
      assert (VmafScoreCircle.drawn (VmafScoreCircle.yellowFilled score) = false) as ->.
      { apply not_true_is_false. rewrite drawn_iff. q_cases; lra. }
      assert (Qeq_bool score 70 = false) as ->.
      { apply not_true_is_false. intros Heq%Qeq_bool_iff. lra. }
      cbn [orb].
      destruct (Qle_bool 55 score) eqn:H55.
      * apply Qle_bool_iff in H55.
        destruct (Qeq_bool score 55) eqn:Heq; [by rewrite orb_true_r|].
        apply Qeq_bool_neq in Heq.
        assert (VmafScoreCircle.drawn (VmafScoreCircle.orangeFilled score) = true) as ->;
          [|done].
        apply drawn_iff.
        assert (55 < score)
          by (apply Qle_lt_or_eq in H55 as [?|?]; [done|]; by destruct Heq).
        q_cases; lra.
      * apply Qle_bool_false in H55.
        assert (VmafScoreCircle.drawn (VmafScoreCircle.orangeFilled score) = false) as ->.
        { apply not_true_is_false. rewrite drawn_iff. q_cases; lra. }
        assert (Qeq_bool score 55 = false) as ->; [|done].
        apply not_true_is_false. intros Heq%Qeq_bool_iff. lra.
Qed.

(** ** Moving between folders *)

Lemma join_cons (p : string) (h : string) (t : list string) (sep : string) :
  JsText.join (p :: h :: t) sep = p +:+ sep +:+ JsText.join (h :: t) sep.
Proof. done. Qed.

(** [s.split('/').join('/')] is [s]. *)
Lemma join_split (s : string) : JsText.join (JsString.split s JsString.slash) "/" = s.
Proof.
  induction s as [|a s IH]; [done|]. cbn [JsString.split].
  destruct (split_nonempty s) as (h & t & Hsplit). rewrite Hsplit in *.
  destruct (Ascii.eqb_spec a JsString.slash) as [->|Hne].
  - by rewrite join_cons, IH.
  - destruct t as [|x t]; [by cbn in *; subst|]. rewrite join_cons in *.
    rewrite append_cons. by rewrite IH.
Qed.

Lemma split_app (p q : string) :
  JsString.split (p +:+ String JsString.slash q) JsString.slash
  = JsString.split p JsString.slash ++ JsString.split q JsString.slash.
Proof.
  induction p as [|a p IH].
  - change ("" +:+ ?x) with x. cbn [JsString.split].
    by replace (Ascii.eqb JsString.slash JsString.slash) with true by done.
  - rewrite append_cons. cbn [JsString.split]. rewrite IH.
    destruct (split_nonempty p) as (h & t & ->).
    by destruct (Ascii.eqb a JsString.slash).
Qed.

Lemma dropTrailingSlash_app (s : string) : JsText.dropTrailingSlash (s +:+ "/") = s.
Proof.
  induction s as [|a s IH]; [done|]. rewrite append_cons.
  cbn [JsText.dropTrailingSlash]. rewrite IH. by destruct s.
Qed.

(** X16. A folder as the files route lists it under the current folder: a click
    on it goes to the folder whose listing is asked for under exactly the
    key of the folder, and the Back button leads from there to the current
    folder again. *)
Theorem folder_navigation_round_trip (currentFolder name : string) :
  hasSlash name = false -> name <> "" ->
  let folder := mkFolderItem (folderPrefix currentFolder +:+ name +:+ "/") name in
  let entered := enterFolder folder in
  entered = folderPrefix currentFolder +:+ name
  /\ folderPrefix entered = folder_key folder
  /\ navigateUp entered = currentFolder.
Proof.
  intros Hslash Hname folder entered.
  assert (Hentered : entered = folderPrefix currentFolder +:+ name).
  { subst entered folder. unfold enterFolder. cbn [folder_key].
    by rewrite <- append_assoc, dropTrailingSlash_app. }
  split; [done|]. rewrite Hentered. split.
  - subst folder. cbn [folder_key]. unfold folderPrefix at 1.
    assert (JsString.truthy (folderPrefix currentFolder +:+ name) = true) as ->.
    { destruct (folderPrefix currentFolder); [by destruct name|done]. }
    by rewrite append_assoc.
  - unfold navigateUp, folderPrefix.
    destruct (JsString.truthy currentFolder) eqn:Hcf.
    + rewrite append_assoc. change ("/" +:+ name) with (String JsString.slash name).
      rewrite split_app, (split_no_slash name) by done.
      rewrite removelast_last. apply join_split.
    + destruct currentFolder; [|done]. change ("" +:+ name) with name.
      by rewrite split_no_slash.
Qed.

Lemma folder_navigation_witness :
  enterFolder (mkFolderItem "clips/raw/" "raw") = "clips/raw"
  /\ folderPrefix "clips/raw" = "clips/raw/"
  /\ navigateUp "clips/raw" = "clips".
Proof.
  apply (folder_navigation_round_trip "clips" "raw"); [reflexivity|done].
Defined.

(** ** Results of a job the registry does not hold *)

Lemma getObject_state (f : Faults) (bucket : option string) (key : string) (w : World) :
  snd (getObject f bucket key w) = w.
Proof.
  unfold getObject, served. unfold_M. destruct (f _); [done|].
  destruct bucket; [|done]. cbn. by destruct (s3 w !! _).
Qed.

(** X17. After a restart the registry is empty, and the two results routes go
    by the record in the Metadata Store of the bucket in the query (or of
    the default bucket): 404 when no record loads; the status of the record
    when the job is not completed, never with the error the record holds
    (the raw route answers 400); else the report at the raw result key, in
    the bucket the record names. *)
Theorem results_after_restart (f : Faults) (jobId : string) (queryBucket : option string)
    (w : World) :
  jobs w !! jobId = None ->
  let searchBucket := JsString.orElse queryBucket (cfg_bucket (serverConfig w)) in
  let record := loadsAs f searchBucket w jobId in
  fst (resultsHandler f jobId queryBucket w) = Ok (resultsFromRecord f jobId w record)
  /\ fst (rawResultsHandler f jobId queryBucket w) = Ok (rawFromRecord f w record).
Proof.
  intros Hjob searchBucket record.
  unfold resultsHandler, rawResultsHandler, gatherFacts. unfold_M.
  rewrite Hjob. cbn [fst snd]. rewrite loadJobMetadata_run. fold searchBucket record.
  cbn [fst snd]. unfold resultsFromRecord, rawFromRecord.
  destruct record as [m|]; [|done].
  cbn [fact_status fact_config fact_resultKey fact_bucket fact_oscJobName
       createS3Client required mbind option_bind].
  destruct (bool_decide (md_status m = Some Completed)); cbn [negb]; [|done].
  unfold_M. unfold bodyJson.
  destruct (md_resultKey m) as [resultKey|]; cbn [fst snd]; [|done].
  unfold required. unfold_M. split.
  - rewrite <- resultFileKey_results_spec.
    destruct (getObject f (md_bucket m) _ w) as [[[v|]|e] w'] eqn:Hget; cbn [fst snd];
      try done.
    by destruct (parseResults v).
  - rewrite <- resultFileKey_raw_spec.
    by destruct (getObject f (md_bucket m) _ w) as [[body|e] w'].
Qed.

Lemma results_after_restart_witness :
  fst (resultsHandler noFaults "job1" (Some "demo") restartedWithReport)
  = Ok (json (ResultsJson "job1"
                {| vmafScore := Json.JNum 91.2;
                   frames := [mkFrameData (Some (Json.JNum 0)) [("vmaf_hd", Json.JNum 90.1)];
                              mkFrameData (Some (Json.JNum 1)) [("vmaf_hd", Json.JNum 92.3)]];
                   vmafMetrics := [("vmaf_hd", pooled 91.2 80 98 90.5)];
                   primaryMetric := Some "vmaf_hd" |})).
Proof.
  rewrite (proj1 (results_after_restart noFaults "job1" (Some "demo")
                    restartedWithReport eq_refl)).
  vm_compute. reflexivity.
Defined.

(** ** [GET /api/jobs] *)

Lemma listJobMetadata_total (getTime : option string -> option Z) (f : Faults)
    (bucket : option string) (w : World) :
  exists jobList w',
    listJobMetadata getTime f bucket w = (Ok jobList, w')
    /\ jobs w' = jobs w /\ s3 w' = s3 w /\ serverConfig w' = serverConfig w.
Proof.
  unfold listJobMetadata, listObjects, served. unfold_M.
  destruct (f _); cbn [fst snd]; [by eexists _, _|].
  destruct bucket as [b|]; cbn [fst snd]; [|by eexists _, _].
  destruct (keysUnder b "jobs/" (s3 w)) as [|k ks]; cbn [fst snd]; [by eexists _, _|].
  rewrite loadListed_run. by eexists _, _.
Qed.

(** X18. The job list is always answered with status 200 and an array: an
    unconfigured server answers the empty array without asking the gateway,
    and every storage failure ends as an empty array too, so the 500 of the
    handler is never sent. Neither the registry nor the stored objects
    change. *)
Theorem jobs_route_never_fails (getTime : option string -> option Z) (f : Faults)
    (queryBucket : option string) (w : World) :
  let r := listJobsHandler getTime f queryBucket w in
  (exists jobList, fst r = Ok (json (JobListJson jobList)))
  /\ jobs (snd r) = jobs w /\ s3 (snd r) = s3 w
  /\ (isConfigured (serverConfig w) = false -> r = (Ok (json (JobListJson [])), w))
  /\ (isConfigured (serverConfig w) = true ->
      f (ListObjectsV2Command (JsString.orElse queryBucket (cfg_bucket (serverConfig w)))
           "jobs/") = true ->
      fst r = Ok (json (JobListJson []))).
Proof.
  intros r. subst r. unfold listJobsHandler. unfold_M. cbn [fst snd].
  destruct (isConfigured (serverConfig w)) eqn:Hc; cbn [negb].
  - set (bucket := JsString.orElse _ _).
    destruct (listJobMetadata_total getTime f bucket w)
      as (jobList & w' & Hrun & Hj & Hs & _).
    rewrite Hrun. cbn [fst snd]. split_and!; try done; [by eexists|].
    intros _ Hf. revert Hrun.
    unfold listJobMetadata, listObjects, served. unfold_M. rewrite Hf. cbn.
    by intros [= <- _].
  - split_and!; try done. by eexists.
Qed.

(** ** What the parser hands out *)

Lemma mapM_Ok {A B} (f : A -> Exn B) (l : list A) (k : list B) :
  mapM f l = Ok k -> Forall2 (fun x y => f x = Ok y) l k.
Proof.
  revert k. induction l as [|x l IH]; intros k; cbn [mapM].
  - intros [= <-]. constructor.
  - destruct (f x) as [y|e] eqn:Hx; cbn [mbind Exn_bind]; [|done].
    destruct (mapM f l) as [k'|e] eqn:Hl; cbn [mbind Exn_bind]; [|done].
    intros [= <-]. constructor; [done|]. by apply IH.
Qed.

Lemma keysWithPrefix_named (p : string) (v : Json.value) (key : string) :
  key ∈ Json.keysWithPrefix p v ->
  JsString.startsWith key p = true /\ is_Some (Json.optProp key (Some v)).
Proof.
  destruct v as [| | | | |fields]; cbn [Json.keysWithPrefix Json.optProp];
    try (intros H; by apply elem_of_nil in H).
  intros [Hin Hp]%list_elem_of_In%filter_In. split; [done|].
  apply in_map_iff in Hin as ([k v] & <- & Hin). cbn [fst].
  induction fields as [|[k' v'] fields IH]; [done|]. cbn [Json.lookup].
  destruct (String.eqb_spec k k') as [->|Hne]; [by eexists|].
  destruct Hin as [[= -> ->]|Hin]; [done|]. by apply IH.
Qed.



Lemma prop_optProp (k : string) (v r : option Json.value) :
  Json.prop k v = Ok r -> r = Json.optProp k v.
Proof. destruct v as [[]|]; cbn; by intros [= <-]. Qed.

(** What the parser computes, step by step. *)
Lemma parseResults_inv (vmafData : Json.value) (parsed : ParsedResults) :
  parseResults vmafData = Ok parsed ->
  let pooledMetrics := orEmptyObject (pooledOf vmafData) in
  let keys := Json.keysWithPrefix "vmaf_" pooledMetrics in
  let metrics := flat_map (fun key => field key (Json.optProp key (Some pooledMetrics)))
                          keys in
  let primary := if bool_decide ("vmaf_hd" ∈ keys) then Some "vmaf_hd" else head keys in
  let mean := Json.optProp "mean" (Json.lookup (JsString.template primary) metrics) in
  vmafMetrics parsed = metrics
  /\ primaryMetric parsed = primary
  /\ vmafScore parsed = (if Json.truthy mean then default (Json.JNum 0) mean
                         else Json.JNum 0)
  /\ Forall2 (fun frame data => parseFrame keys frame = Ok data)
             (framesOf vmafData) (frames parsed).
Proof.
  unfold parseResults, pooledOf.
  destruct (Json.prop "pooled_metrics" (Some vmafData)) as [pm|] eqn:Hpm;
    cbn [mbind Exn_bind]; [|done].
  apply prop_optProp in Hpm as ->.
  destruct (Json.prop "frames" (Some vmafData)) as [fr|] eqn:Hfr;
    cbn [mbind Exn_bind]; [|done].
  apply prop_optProp in Hfr. unfold framesOf. rewrite <- Hfr. clear Hfr.
  match goal with
  | |- context [mbind _ ?m] => destruct m as [parsedFrames|] eqn:Hrun
  end; cbn [mbind Exn_bind]; [|done].
  intros [= <-]. cbv zeta. cbn [vmafMetrics primaryMetric vmafScore frames].
  split_and!; try done.
  destruct fr as [[| | | |items|]|]; try done; try (injection Hrun as <-; constructor).
  by apply mapM_Ok.
Qed.




(** ** The score on the card and the score of the results *)

Lemma optProp_orEmptyObject (k : string) (pm : option Json.value) :
  Json.optProp k (Some (orEmptyObject pm)) = Json.optProp k pm.
Proof.
  destruct pm as [v|]; [|done]. unfold orEmptyObject.
  destruct (Json.truthy (Some v)) eqn:Ht; [done|]. by destruct v.
Qed.

Lemma lookup_Some_key (k : string) (fields : list (string * Json.value)) (v : Json.value) :
  Json.lookup k fields = Some v -> In k (List.map fst fields).
Proof.
  induction fields as [|[k' v'] fields IH]; [done|]. cbn [Json.lookup List.map fst].
  destruct (String.eqb_spec k k') as [->|_]; [by left|]. right. by apply IH.
Qed.

(** A pooled metric whose name starts with [vmaf_] is among the keys the
    parser discovers. *)
Lemma discovered (k : string) (pooledMetrics v : Json.value) :
  Json.optProp k (Some pooledMetrics) = Some v ->
  JsString.startsWith k "vmaf_" = true ->
  k ∈ Json.keysWithPrefix "vmaf_" pooledMetrics.
Proof.
  destruct pooledMetrics as [| | | | |fields]; try done. cbn [Json.optProp Json.keysWithPrefix].
  intros Hv Hk. apply list_elem_of_In, filter_In. split; [|done].
  by eapply lookup_Some_key.
Qed.

Lemma lookup_metrics_not_in (k : string) (g : string -> option Json.value)
    (keys : list string) :
  k ∉ keys -> Json.lookup k (flat_map (fun key => field key (g key)) keys) = None.
Proof.
  induction keys as [|key keys IH]; [done|]. intros Hnot.
  apply not_elem_of_cons in Hnot as [Hne Hnot]. cbn [flat_map].
  destruct (g key); cbn [field app Json.lookup]; [|by apply IH].
  destruct (String.eqb_spec k key); [done|by apply IH].
Qed.

Lemma lookup_metrics (k : string) (g : string -> option Json.value) (keys : list string) :
  k ∈ keys -> Json.lookup k (flat_map (fun key => field key (g key)) keys) = g k.
Proof.
  induction keys as [|key keys IH]; [by intros ?%elem_of_nil|]. intros Hin.
  cbn [flat_map]. destruct (decide (k = key)) as [->|Hne].
  - destruct (g key) as [v|] eqn:Hg; cbn [field app Json.lookup].
    + by rewrite String.eqb_refl.
    + destruct (decide (key ∈ keys)) as [Hin'|Hnot]; [by rewrite IH|].
      by apply lookup_metrics_not_in.
  - apply elem_of_cons in Hin as [?|Hin]; [done|].
    destruct (g key); cbn [field app Json.lookup]; [|by apply IH].
    destruct (String.eqb_spec k key); [done|by apply IH].
Qed.

(** X20. The score the polling task keeps for the card and the score the results
    route reports are the same number when the report has a pooled
    [vmaf_hd] with a mean (not 0). They differ for a report whose only
    pooled metric is the plain [vmaf]: the card gets its mean, the results
    route reports 0 and no primary metric. *)
Theorem card_score_and_results_score (vmafData mean : Json.value)
    (parsed : ParsedResults) :
  parseResults vmafData = Ok parsed ->
  (pooledMean "vmaf_hd" vmafData = Some mean -> Json.truthy (Some mean) = true ->
   scoreOf (Doc vmafData) = Ok (Some mean)
   /\ vmafScore parsed = mean /\ primaryMetric parsed = Some "vmaf_hd")
  /\ (vmafMetrics parsed = [] -> pooledMean "vmaf" vmafData = Some mean ->
      scoreOf (Doc vmafData) = Ok (Some mean)
      /\ vmafScore parsed = Json.JNum 0 /\ primaryMetric parsed = None).
Proof.
  intros Hparsed.
  assert (Hscore : scoreOf (Doc vmafData)
                   = Ok (let hd := Json.optProp "vmaf_hd" (pooledOf vmafData) in
                         Json.optProp "mean"
                           (if Json.truthy hd then hd
                            else Json.optProp "vmaf" (pooledOf vmafData)))).
  { unfold scoreOf, pooledOf. revert Hparsed. unfold parseResults.
    destruct (Json.prop "pooled_metrics" (Some vmafData)) as [pm|] eqn:Hpm; [|done].
    intros _. apply prop_optProp in Hpm as ->. cbn [mbind Exn_bind mret Exn_ret].
    by rewrite !optProp_orEmptyObject. }
  apply parseResults_inv in Hparsed as (Hmetrics & Hprimary & Hvalue & _).
  set (pooledMetrics := orEmptyObject (pooledOf vmafData)) in *.
  set (keys := Json.keysWithPrefix "vmaf_" pooledMetrics) in *.
  rewrite Hscore, Hprimary, Hvalue. unfold pooledMean. split.
  - intros Hmean Htruthy.
    destruct (Json.optProp "vmaf_hd" (pooledOf vmafData)) as [hd|] eqn:Hhd; [|done].
    assert (Hobj : Json.truthy (Some hd) = true) by by destruct hd.
    assert (Hin : "vmaf_hd" ∈ keys).
    { apply (discovered _ _ hd); [|done]. subst pooledMetrics.
      by rewrite optProp_orEmptyObject. }
    cbv zeta. rewrite Hobj, Hmean. rewrite bool_decide_eq_true_2 by done.
    cbn [JsString.template]. rewrite (lookup_metrics "vmaf_hd"
      (fun key => Json.optProp key (Some pooledMetrics)) keys Hin).
    subst pooledMetrics. rewrite optProp_orEmptyObject, Hhd, Hmean, Htruthy. done.
  - intros Hnone Hmean. rewrite Hmetrics in Hnone.
    assert (Hkeys : keys = []).
    { destruct keys as [|key ks] eqn:Hk; [done|]. exfalso.
      assert (Hin : key ∈ keys) by (rewrite Hk; by left).
      apply keysWithPrefix_named in Hin as [_ [v Hv]].
      cbn [flat_map] in Hnone. fold pooledMetrics in Hnone. rewrite Hv in Hnone. done. }
    rewrite Hkeys. rewrite bool_decide_eq_false_2 by (by intros ?%elem_of_nil).
    cbn [head JsString.template flat_map Json.lookup Json.optProp Json.truthy].
    assert (Hhd : Json.optProp "vmaf_hd" (pooledOf vmafData) = None).
    { destruct (Json.optProp "vmaf_hd" (pooledOf vmafData)) as [hd|] eqn:Hhd; [|done].
      exfalso. assert (Hin : "vmaf_hd" ∈ keys).
      { apply (discovered _ _ hd); [|done]. subst pooledMetrics.
        by rewrite optProp_orEmptyObject. }
      rewrite Hkeys in Hin. by apply elem_of_nil in Hin. }
    cbv zeta. rewrite Hhd. cbn [Json.truthy]. by rewrite Hmean.
Qed.

Lemma card_score_and_results_score_witness :
  scoreOf (Doc demoReport) = Ok (Some (Json.JNum 91.2))
  /\ parseResults (Json.JObj [("pooled_metrics", Json.JObj [("vmaf", pooled 88.0 75 96 87.1)])])
     = Ok (mkParsedResults (Json.JNum 0) [] [] None)
  /\ scoreOf (Doc (Json.JObj [("pooled_metrics", Json.JObj [("vmaf", pooled 88.0 75 96 87.1)])]))
     = Ok (Some (Json.JNum 88.0)).
Proof.
  split; [|split; [reflexivity|]].
  - destruct (card_score_and_results_score demoReport (Json.JNum 91.2)
                {| vmafScore := Json.JNum 91.2;
                   frames := [mkFrameData (Some (Json.JNum 0)) [("vmaf_hd", Json.JNum 90.1)];
                              mkFrameData (Some (Json.JNum 1)) [("vmaf_hd", Json.JNum 92.3)]];
                   vmafMetrics := [("vmaf_hd", pooled 91.2 80 98 90.5)];
                   primaryMetric := Some "vmaf_hd" |} eq_refl) as [Hhd _].
    by apply Hhd.
  - destruct (card_score_and_results_score
                (Json.JObj [("pooled_metrics", Json.JObj [("vmaf", pooled 88.0 75 96 87.1)])])
                (Json.JNum 88.0) (mkParsedResults (Json.JNum 0) [] [] None) eq_refl)
      as [_ Hplain].
    by apply Hplain.
Defined.

(** ** Bucket names *)

Lemma stripTrailingSlashes_unfold (a : ascii) (s : string) :
  JsString.stripTrailingSlashes (String a s)
  = match JsString.stripTrailingSlashes s with
    | EmptyString => if Ascii.eqb a JsString.slash then EmptyString else String a EmptyString
    | rest => String a rest
    end.
Proof. done. Qed.

Lemma stripTrailingSlashes_no_slash (s t : string) :
  JsString.stripTrailingSlashes s <> t +:+ "/".
Proof.
  revert t. induction s as [|a s IH]; intros t.
  - by destruct t.
  - rewrite stripTrailingSlashes_unfold.
    destruct (JsString.stripTrailingSlashes s) as [|b rest] eqn:Hs.
    + destruct (Ascii.eqb_spec a JsString.slash) as [->|Hne]; [by destruct t|].
      destruct t as [|c t]; [|by destruct t]. intros [= ->]. done.
    + destruct t as [|c t]; [done|]. rewrite append_cons. intros [= -> Heq].
      by apply (IH t).
Qed.

Lemma stripTrailingSlashes_idemp (s : string) :
  JsString.stripTrailingSlashes (JsString.stripTrailingSlashes s)
  = JsString.stripTrailingSlashes s.
Proof.
  induction s as [|a s IH]; [done|]. rewrite stripTrailingSlashes_unfold.
  destruct (JsString.stripTrailingSlashes s) as [|b rest] eqn:Hs.
  - destruct (Ascii.eqb a JsString.slash) eqn:Ha; [done|].
    rewrite stripTrailingSlashes_unfold. cbn [JsString.stripTrailingSlashes]. by rewrite Ha.
  - rewrite stripTrailingSlashes_unfold. by rewrite IH.
Qed.

(** X21. The bucket name that [POST /api/config] stores never ends with a slash.
    One leading [s3://] is taken off, not more: the stored name of
    [s3://s3://x] is [s3://x]. Cleaning a stored name again changes it only
    if it still starts with [s3://]. *)
Theorem stored_bucket_name (bucket : string) (body : ConfigPost) (c : S3Config) :
  post_bucket body = Some bucket ->
  let stored := cleanBucket bucket in
  cfg_bucket (postConfigHandler body c) = Some stored
  /\ (forall t, stored <> t +:+ "/")
  /\ (forall name, bucket = "s3://" +:+ name ->
                   stored = JsString.stripTrailingSlashes name)
  /\ (JsString.startsWith bucket "s3://" = false ->
      stored = JsString.stripTrailingSlashes bucket)
  /\ (JsString.startsWith stored "s3://" = false -> cleanBucket stored = stored).
Proof.
  intros Hpost stored. subst stored. split_and!.
  - by rewrite postConfigHandler_bucket, Hpost.
  - intros t. apply stripTrailingSlashes_no_slash.
  - intros name ->. unfold cleanBucket. by rewrite startsWith_app, substringFrom_scheme.
  - intros Hs. unfold cleanBucket. by rewrite Hs.
  - intros Hs. unfold cleanBucket at 1. rewrite Hs. unfold cleanBucket.
    destruct (JsString.startsWith bucket "s3://"); apply stripTrailingSlashes_idemp.
Qed.

Lemma stored_bucket_name_witness :
  cfg_bucket (postConfigHandler
                (mkConfigPost None None None (Some "s3://s3://videos//") None None None)
                demoConfig)
  = Some "s3://videos".
Proof.
  exact (proj1 (stored_bucket_name "s3://s3://videos//"
                  (mkConfigPost None None None (Some "s3://s3://videos//") None None None)
                  demoConfig eq_refl)).
Defined.

(** ** Saving a record, then listing the bucket *)








(** ** The identifier and the result key of a created job *)

(** What the create handler has bound when it hands over its task. *)
Lemma analyzeHandler_inv (urlParses : string -> bool) (req : AnalyzeRequest)
    (nowMs : N) (nowIso : string) (w : World) (t : Task) (w1 : World) :
  analyzeHandler urlParses req nowMs nowIso w = (Ok (inl t), w1) ->
  let jobId := "job" +:+ pretty nowMs in
  let resultKey := resultsFolder (req_folder req) +:+ jobId +:+ ".json" in
  cl_jobId (t_env t) = jobId
  /\ cl_resultKey (t_env t) = resultKey
  /\ Some (cl_referenceKey (t_env t)) = req_referenceKey req
  /\ (exists entry,
        jobs w1 = <[jobId := entry]> (jobs w)
        /\ job_status entry = Some Running
        /\ job_resultKey entry = Some resultKey
        /\ job_referenceKey entry = req_referenceKey req)
  /\ statusLog w1 = statusLog w ++ [(jobId, Some Queued); (jobId, Some Running)].
Proof.
  unfold analyzeHandler, required, newURL, resultsFolder. unfold_M.
  destruct (req_referenceKey req) as [referenceKey|]; cbn [fst snd]; [|done].
  destruct (req_distortedKey req) as [distortedKey|]; cbn [fst snd]; [|done].
  repeat (destruct (urlParses _); cbn [fst snd]; [|done]).
  intros [= <- <-]. cbn [t_env cl_jobId cl_resultKey cl_referenceKey jobs statusLog
                         set_jobs set_statusLog].
  rewrite lookup_insert_eq. cbn [spread default]. rewrite insert_insert_eq.
  split_and!; try done.
  - by destruct (JsString.truthyOpt (req_folder req)); rewrite ?append_assoc.
  - eexists. split; [done|]. split_and!; try done. cbn [with_status job_resultKey].
    by destruct (JsString.truthyOpt (req_folder req)); rewrite ?append_assoc.
  - by rewrite <- app_assoc.
Qed.




(** X24. The identifier of a job is the clock of its create request, to the
    millisecond. Two requests that the handler accepts get the same
    identifier exactly when they are handled in the same millisecond; the
    second then replaces the registry entry of the first, and the statuses
    recorded under the identifier go from running back to queued. *)
Theorem job_identifier_is_the_clock (urlParses : string -> bool)
    (req1 req2 : AnalyzeRequest) (ms1 ms2 : N) (iso1 iso2 : string)
    (w w1 w2 : World) (t1 t2 : Task) :
  analyzeHandler urlParses req1 ms1 iso1 w = (Ok (inl t1), w1) ->
  analyzeHandler urlParses req2 ms2 iso2 w1 = (Ok (inl t2), w2) ->
  let jobId := cl_jobId (t_env t1) in
  (cl_jobId (t_env t2) = jobId <-> ms2 = ms1)
  /\ (ms2 = ms1 ->
      (jobs w2 !! jobId) ≫= job_referenceKey = req_referenceKey req2
      /\ statusHistory jobId w2
         = statusHistory jobId w
           ++ [Some Queued; Some Running; Some Queued; Some Running]
      /\ (statusHistory jobId w = [] -> forwardOnly (statusHistory jobId w2) = false)).
Proof.
  intros (Hid1 & _ & _ & _ & Hlog1)%analyzeHandler_inv
         (Hid2 & _ & _ & (entry & Hjobs & _ & _ & Href) & Hlog2)%analyzeHandler_inv jobId.
  subst jobId. rewrite Hid1, Hid2. split.
  - split; [|by intros ->]. intros Heq. apply (inj (String.app "job")) in Heq.
    by apply (inj pretty) in Heq.
  - intros ->.
    assert (Hhistory : statusHistory ("job" +:+ pretty ms1) w2
                       = statusHistory ("job" +:+ pretty ms1) w
                         ++ [Some Queued; Some Running; Some Queued; Some Running]).
    { unfold statusHistory. rewrite Hlog2, Hlog1.
      rewrite <- app_assoc. cbn [app].
      change [("job" +:+ pretty ms1, Some Queued); ("job" +:+ pretty ms1, Some Running);
              ("job" +:+ pretty ms1, Some Queued); ("job" +:+ pretty ms1, Some Running)]
        with ([("job" +:+ pretty ms1, Some Queued)] ++ [("job" +:+ pretty ms1, Some Running)]
              ++ [("job" +:+ pretty ms1, Some Queued)]
              ++ [("job" +:+ pretty ms1, Some Running)]).
      rewrite !app_assoc, !historyIn_snoc. by rewrite <- !app_assoc. }
    split_and!.
    + by rewrite Hjobs, lookup_insert_eq.
    + done.
    + intros Hfresh. rewrite Hhistory, Hfresh. reflexivity.
Qed.

Lemma job_identifier_witness :
  forwardOnly
    (statusHistory demoJobId
       (snd (analyzeHandler anyUrl demoRequest demoClock demoIso (snd demoStarted))))
  = false.
Proof.
  destruct (job_identifier_is_the_clock anyUrl demoRequest demoRequest demoClock demoClock
              demoIso demoIso (emptyWorld demoConfig) (snd demoStarted)
              (snd (analyzeHandler anyUrl demoRequest demoClock demoIso (snd demoStarted)))
              demoTask demoTask eq_refl eq_refl) as [_ Hsame].
  destruct (Hsame eq_refl) as (_ & _ & Hback). exact (Hback eq_refl).
Defined.

(** ** One poll of the runner *)

Lemma isFailure_not_running (status : string) :
  isFailure status = true -> String.eqb status "Running" = false.
Proof.
  unfold isFailure. intros H.
  destruct (String.eqb status "Running") eqn:Hr; [|done].
  apply String.eqb_eq in Hr. subst status. discriminate H.
Qed.

Lemma isFailure_not_success (status : string) :
  isFailure status = true -> isSuccess status = false.
Proof.
  unfold isFailure, isSuccess. intros H.
  destruct (String.eqb status "Failed") eqn:Hf.
  { apply String.eqb_eq in Hf. by subst status. }
  destruct (String.eqb status "Error") eqn:He; [|done].
  apply String.eqb_eq in He. by subst status.
Qed.

(** A run is its first turn, then the run of the rest. *)
Lemma run_cons (t : Task) (reply : Reply) (rest : list Reply) (w : World) :
  run t (reply :: rest) w
  = match step t reply w with
    | (Ok turn, w1) =>
        match run (fst turn) rest w1 with
        | (Ok more, w2) =>
            (Ok (fst more, from_option (fun r => [r]) [] (snd turn) ++ snd more), w2)
        | (Throw msg, w2) => (Throw msg, w2)
        end
    | (Throw msg, w1) => (Throw msg, w1)
    end.
Proof.
  cbn [run]. unfold mbind, M_bind, mret, M_ret.
  destruct (step t reply w) as [[turn|msg] w1]; [|done].
  by destruct (run (fst turn) rest w1) as [[more|msg] w2].
Qed.

(** The task ends after the save of a failed record, served or not. *)
Lemma run_failed_save (env : Closure) (pending : JobMetadata) (fault : option string)
    (rest : list Reply) (w : World) :
  fst (run (mkTask env (PcFailedSave pending)) (RStorage fault :: rest) w)
  = Ok (mkTask env PcDone, []).
Proof.
  rewrite run_cons.
  destruct (step (mkTask env (PcFailedSave pending)) (RStorage fault) w)
    as [[turn|msg] w1] eqn:Hstep.
  - assert (turn = (mkTask env PcDone, None)) as ->.
    { destruct fault as [msg|]; [by injection Hstep as <- _|].
      revert Hstep. exec. destruct (cl_targetBucket env); exec; by intros [= <- _]. }
    cbn [fst snd]. by rewrite run_done.
  - exfalso. revert Hstep. destruct fault as [m|]; [done|].
    exec. destruct (cl_targetBucket env); exec; done.
Qed.

(** The poll that fails the job. *)
Lemma poll_failure (env : Closure) (jobName now msg : string) (r : Exn string)
    (e : JobEntry) (w : World) :
  jobs w !! cl_jobId env = Some e ->
  match r with
  | Throw m => m = msg
  | Ok status => isFailure status = true /\ msg = "Job failed with status: " +:+ status
  end ->
  exists w',
    step (mkTask env (PcGetJob jobName)) (RGetJob r now) w
    = (Ok (mkTask env (PcFailedSave (failedMetadata env e msg)), None), w')
    /\ jobs w' !! cl_jobId env = Some (with_error msg (with_status Failed e)).
Proof.
  destruct w as [cfg js objs con log]. cbn [jobs]. intros He Hr.
  destruct r as [status|m].
  - destruct Hr as [Hfail ->].
    pose proof (isFailure_not_running _ Hfail) as Hrun.
    pose proof (isFailure_not_success _ Hfail) as Hok.
    eexists. split.
    + exec. rewrite Hrun. exec. rewrite Hok, Hfail. exec. rewrite He. reflexivity.
    + exec. by rewrite lookup_insert_eq.
  - subst m. eexists. split.
    + exec. rewrite He. reflexivity.
    + exec. by rewrite lookup_insert_eq.
Qed.

(** X25. One answer of [getJob] decides. When the call throws, or the runner
    reports [Failed] or [Error], the job is failed for good: the registry
    takes status failed with the message, the failed record is what is saved
    next, and the task ends after that save whether it is served or not,
    without asking the runner again. A success status completes the job in
    the registry. Any other status leaves the task waiting for its next
    poll; [Running] moves a queued job to running, and nothing else changes
    the registry entry. *)
Theorem poll_answer_decides (env : Closure) (jobName now : string) (r : Exn string)
    (e : JobEntry) (fault : option string) (rest : list Reply) (w : World) :
  jobs w !! cl_jobId env = Some e ->
  let polling := mkTask env (PcGetJob jobName) in
  let polled := step polling (RGetJob r now) w in
  let failsWith msg :=
    fst polled = Ok (mkTask env (PcFailedSave (failedMetadata env e msg)), None)
    /\ jobs (snd polled) !! cl_jobId env = Some (with_error msg (with_status Failed e))
    /\ fst (run polling (RGetJob r now :: RStorage fault :: rest) w)
       = Ok (mkTask env PcDone, []) in
  match r with
  | Throw msg => failsWith msg
  | Ok status =>
      if isFailure status then failsWith ("Job failed with status: " +:+ status)
      else if isSuccess status then
        registryStatus (cl_jobId env) (snd polled) = Some Completed
      else
        fst polled = Ok (mkTask env (PcTimer jobName), None)
        /\ jobs (snd polled) !! cl_jobId env
           = Some (if String.eqb status "Running"
                      && bool_decide (job_status e = Some Queued)
                   then with_status Running e else e)
  end.
Proof.
  intros He polling polled failsWith.
  assert (forall msg,
            match r with
            | Throw m => m = msg
            | Ok status =>
                isFailure status = true /\ msg = "Job failed with status: " +:+ status
            end -> failsWith msg) as Hfails.
  { intros msg Hr. subst failsWith polled polling. cbn beta.
    destruct (poll_failure env jobName now msg r e w He Hr) as (w' & Hstep & Hjobs).
    rewrite run_cons, Hstep. cbn [fst snd]. split_and!; [done..|].
    pose proof (run_failed_save env (failedMetadata env e msg) fault rest w') as Hrun.
    destruct (run _ _ w') as [[more|m] w2]; cbn [fst] in Hrun; [|done].
    by injection Hrun as ->. }
  destruct r as [status|msg]; [|by apply Hfails].
  destruct (isFailure status) eqn:Hfail; [by apply Hfails|].
  clear Hfails. subst failsWith polled polling.
  destruct w as [cfg js objs con log]. cbn [jobs] in He.
  destruct (isSuccess status) eqn:Hok.
  - exec. rewrite (isSuccess_not_running _ Hok). exec. rewrite Hok. exec.
    rewrite He. destruct (job_resultKey e); exec; by rewrite lookup_insert_eq.
  - destruct (String.eqb status "Running") eqn:Hrun.
    + exec. rewrite Hrun. exec. rewrite He. cbn [andb].
      destruct (bool_decide (job_status e = Some Queued)); exec;
        rewrite Hok, Hfail; exec; rewrite ?lookup_insert_eq; done.
    + exec. rewrite Hrun. exec. rewrite Hok, Hfail. exec. by rewrite He.
Qed.

Lemma poll_answer_witness :
  registryStatus demoJobId
    (snd (step (mkTask demoEnv (PcGetJob "k3x9q"))
            (RGetJob (Throw "socket hang up") "2023-11-14T22:20:00.000Z")
            (snd (run demoTask [RToken (Ok "service-token"); RCreateJob (Ok "k3x9q");
                                RStorage None; RTimer] (snd demoStarted)))))
  = Some Failed.
Proof.
  set (w := snd (run demoTask _ _)).
  assert (is_Some (jobs w !! cl_jobId demoEnv)) as [e He] by (vm_compute; eauto).
  destruct (poll_answer_decides demoEnv "k3x9q" "2023-11-14T22:20:00.000Z"
              (Throw "socket hang up") e None [] w He) as (_ & Hjobs & _).
  unfold registryStatus. change demoJobId with (cl_jobId demoEnv).
  by rewrite Hjobs.
Defined.

(** ** Editing a secret in the settings form *)

Lemma submitData_secrets (formData : ConfigView) :
  view_accessKey (submitData formData) = view_accessKey formData
  /\ view_secretKey (submitData formData) = view_secretKey formData
  /\ view_oscToken (submitData formData) = view_oscToken formData.
Proof. unfold submitData. by repeat case_match. Qed.

(** X26. What is typed into a secret field of the settings form is what the
    server stores when the form is submitted; only the text ['****'] cannot
    be stored: it leaves the secret as it was. *)
Theorem typed_secret_is_stored (value : string) (c : S3Config) :
  cfg_accessKey (saveSettings (handleChange FieldAccessKey value) c)
  = (if String.eqb value "****" then cfg_accessKey c else value)
  /\ cfg_secretKey (saveSettings (handleChange FieldSecretKey value) c)
     = (if String.eqb value "****" then cfg_secretKey c else value)
  /\ cfg_oscToken (saveSettings (handleChange FieldOscToken value) c)
     = (if String.eqb value "****" then cfg_oscToken c else value).
Proof.
  unfold saveSettings.
  rewrite postConfigHandler_accessKey, postConfigHandler_secretKey,
          postConfigHandler_oscToken.
  cbn [postBack post_accessKey post_secretKey post_oscToken].
  split_and!.
  - by rewrite (proj1 (submitData_secrets _)).
  - by rewrite (proj1 (proj2 (submitData_secrets _))).
  - by rewrite (proj2 (proj2 (submitData_secrets _))).
Qed.

(** ** Deleting a listed folder *)

(** The folder route leaves every key that is not under [<folder>/]. *)
Lemma deleteFolderHandler_keeps (decode : string -> Exn string) (f : Faults)
    (fault : option string) (rejected : string -> bool) (param folder : string)
    (w : World) (b k : string) :
  decode param = Ok folder ->
  JsString.startsWith k (folder +:+ "/") = false ->
  s3 (snd (deleteFolderHandler decode f fault rejected param w)) !! (b, k)
  = s3 w !! (b, k).
Proof.
  intros Hfolder Hk. rewrite deleteFolderHandler_run, Hfolder.
  destruct (cfg_bucket _) as [b0|]; [|done].
  destruct (f _); [done|].
  destruct (take maxKeys _) as [|key keys] eqn:Htake; [done|].
  destruct fault; [done|]. cbn [snd s3 set_s3].
  rewrite withoutKeys_lookup, <- Htake.
  rewrite bool_decide_eq_false_2; [done|].
  intros [_ Hin]. apply elem_of_take in Hin as (i & Hi & _).
  apply list_elem_of_lookup_2 in Hi. apply keysUnder_spec in Hi as [_ Hi].
  by rewrite Hi in Hk.
Qed.

Lemma startsWith_after (p s t : string) :
  JsString.startsWith (p +:+ s) (p +:+ t) = JsString.startsWith s t.
Proof.
  unfold JsString.startsWith. induction p as [|a p IH]; [done|].
  rewrite !append_cons. cbn [String.prefix].
  by destruct (ascii_dec a a).
Qed.

(** X27. A folder as the files route lists it has a key that ends with a slash,
    and that key is what the client asks to delete. The folder route then
    looks under [<key>/], with two slashes: every object of the folder stays,
    in every bucket, and when no key of the configured bucket is under the
    doubled slash and the listing is served, the answer is success and
    nothing has changed. *)
Theorem listed_folder_is_not_deleted (decode : string -> Exn string) (f : Faults)
    (fault : option string) (rejected : string -> bool)
    (param currentFolder name : string) (w : World) :
  let folder := mkFolderItem (folderPrefix currentFolder +:+ name +:+ "/") name in
  decode param = Ok (deleteFolderKey folder) ->
  let r := deleteFolderHandler decode f fault rejected param w in
  (forall b rest,
     JsString.startsWith rest "/" = false ->
     s3 (snd r) !! (b, folder_key folder +:+ rest) = s3 w !! (b, folder_key folder +:+ rest))
  /\ (forall b,
        cfg_bucket (serverConfig w) = Some b ->
        f (ListObjectsV2Command (Some b) (folder_key folder +:+ "/")) = false ->
        (forall k, is_Some (s3 w !! (b, k)) ->
                   JsString.startsWith k (folder_key folder +:+ "/") = false) ->
        r = (Ok (storageJson DoneJson), w)).
Proof.
  intros folder Hparam r. subst r. unfold deleteFolderKey in Hparam. split.
  - intros b rest Hrest.
    apply (deleteFolderHandler_keeps _ _ _ _ _ _ _ _ _ Hparam).
    by rewrite startsWith_after.
  - intros b Hb Hf Hnone. rewrite deleteFolderHandler_run, Hparam, Hb, Hf.
    assert (keysUnder b (folder_key folder +:+ "/") (s3 w) = []) as ->; [|done].
    apply elem_of_nil_inv. intros k [Hk Hunder]%keysUnder_spec.
    by rewrite (Hnone k Hk) in Hunder.
Qed.

Lemma listed_folder_witness :
  let r := deleteFolderHandler Ok noFaults None (fun _ => false) "clips/raw/" clipsWorld in
  fst r = Ok (storageJson DoneJson)
  /\ s3 (snd r) !! ("vmaf-files", "clips/raw/a.mp4") = Some Garbage.
Proof.
  destruct (listed_folder_is_not_deleted Ok noFaults None (fun _ => false)
              "clips/raw/" "clips" "raw" clipsWorld eq_refl) as [Hkeeps Hsame].
  cbn zeta. split.
  - rewrite (Hsame "vmaf-files" eq_refl eq_refl); [done|].
    intros k [body Hk]. unfold clipsWorld in Hk. cbn [s3 set_s3] in Hk.
    apply lookup_insert_Some in Hk as [[[= <-] _]|[_ Hk]]; [done|].
    apply lookup_insert_Some in Hk as [[[= <-] _]|[_ Hk]]; [done|].
    by rewrite lookup_empty in Hk.
  - exact (Hkeeps "vmaf-files" "a.mp4" eq_refl).
Defined.
